(** * syntool: project resolution (src/project.py) and the actions on a
      project (src/action.py, src/app.py)

    A shallow embedding of [Project.__init__] and of the helpers it drives:
    the file discoverer [_file_lists], the registry insertion rule
    [_append_file_to_map_parteval], the testbench resolver
    [_load_testbench_files], the IP core resolver [_load_ip_cores] and the
    spec resolver [_load_spec_file]; of the actions of action.py, which
    build the command lines of iverilog and yosys; and of the entry point
    [app_start] of app.py with the four actions it dispatches to.

    Modelling scope.
    - Strings are [string] (8-bit characters); the platform is POSIX, so
      [os.sep] is "/" and [os.path] is [posixpath].
    - The file system is a finite tree of directories and regular files (no
      symbolic links); a directory lists its entries in the order in which
      [os.scandir] reports them.
    - A parsed TOML document is a record whose fields are the keys the code
      reads; an absent key is [None]; a key that is present holds a value of
      the TOML type the code expects.
    - [re] and [str.format] are embedded for a fragment of their syntax;
      outside of it the embedding raises [Unmodelled].
    - The external tools are a parameter of the upper modules: what
      [subprocess.run] makes of a command line, and with it [repr], [str] of
      an exception and the groups of the two version patterns, whose results
      are only printed or tested, are fields of an environment [env] over
      which the statements quantify.
    - The command-line parser of __main__.py is not embedded; [app_start]
      takes the [Namespace] it produces as a record. *)

From Stdlib Require Import String Ascii List ZArith Bool Lia Permutation.
From Stdlib Require Import DecimalString.
Import ListNotations.
Open Scope string_scope.
Open Scope list_scope.

Set Implicit Arguments.

Infix "+++" := String.append (right associativity, at level 60).

(* ================================================================= *)
(** ** Python strings *)

Module PyStr.

Definition len (s : string) : Z := Z.of_nat (String.length s).

Definition of_char (c : ascii) : string := String c EmptyString.

(** [s.startswith(p)] *)
Definition startswith (p s : string) : bool := String.prefix p s.

Fixpoint rev_acc (s acc : string) : string :=
  match s with
  | EmptyString => acc
  | String c s' => rev_acc s' (String c acc)
  end.

Definition rev (s : string) : string := rev_acc s EmptyString.

(** [s.endswith(p)] *)
Definition endswith (p s : string) : bool := String.prefix (rev p) (rev s).

(** [s.rfind(c)] for a one-character needle: the highest index, or -1. *)
Fixpoint rfind_from (c : ascii) (s : string) (i : Z) (best : Z) : Z :=
  match s with
  | EmptyString => best
  | String d s' => rfind_from c s' (i + 1) (if Ascii.eqb c d then i else best)
  end.

Definition rfind (c : ascii) (s : string) : Z := rfind_from c s 0 (-1).

(** Slice bounds as Python clamps them: a negative index counts from the
    end, and both ends are clamped to [0, len]. *)
Definition clamp (n : Z) (i : Z) : Z :=
  if (i <? 0)%Z then Z.max 0 (n + i) else Z.min i n.

(** [s[lo:hi]]; [None] is an omitted bound. *)
Definition slice (s : string) (lo hi : option Z) : string :=
  let n := len s in
  let a := match lo with Some i => clamp n i | None => 0%Z end in
  let b := match hi with Some j => clamp n j | None => n end in
  if (a <? b)%Z then String.substring (Z.to_nat a) (Z.to_nat (b - a)) s
  else EmptyString.

(** [s.split(c)] for a one-character separator: never the empty list. *)
Fixpoint split (c : ascii) (s : string) : list string :=
  match s with
  | EmptyString => [EmptyString]
  | String d s' =>
      if Ascii.eqb c d then EmptyString :: split c s'
      else match split c s' with
           | [] => [of_char d]
           | w :: ws => String d w :: ws
           end
  end.

(** [sep.join(l)] *)
Fixpoint join (sep : string) (l : list string) : string :=
  match l with
  | [] => EmptyString
  | [x] => x
  | x :: rest => x +++ sep +++ join sep rest
  end.

(** [s.replace(a, b)] for one-character [a] and [b]. *)
Fixpoint replace (a b : ascii) (s : string) : string :=
  match s with
  | EmptyString => EmptyString
  | String c s' => String (if Ascii.eqb c a then b else c) (replace a b s')
  end.

(** [s.lstrip(c)] *)
Fixpoint lstrip (c : ascii) (s : string) : string :=
  match s with
  | String d s' => if Ascii.eqb c d then lstrip c s' else s
  | EmptyString => EmptyString
  end.

Fixpoint all_chars (f : ascii -> bool) (s : string) : bool :=
  match s with
  | EmptyString => true
  | String c s' => f c && all_chars f s'
  end.

Definition dquote : string := of_char "034"%char.
Definition esc : string := of_char "027"%char.

End PyStr.

(* ================================================================= *)
(** ** posixpath *)

Module PosixPath.
Import PyStr.

Definition sep : string := "/".

(** [os.path.join(a, b)] *)
Definition join (a b : string) : string :=
  if startswith sep b then b
  else if (String.eqb a "" || endswith sep a)%bool then a +++ b
  else a +++ sep +++ b.

(** [os.path.basename(p)] *)
Definition basename (p : string) : string :=
  slice p (Some (rfind "/" p + 1)%Z) None.

(** [os.path.splitext(p)], from [genericpath._splitext]: the extension is
    everything from the last dot of the last component, unless that
    component has only dots before it. *)
Definition splitext (p : string) : string * string :=
  let sepIndex := rfind "/" p in
  let dotIndex := rfind "." p in
  if (sepIndex <? dotIndex)%Z then
    if all_chars (Ascii.eqb ".") (slice p (Some (sepIndex + 1)%Z) (Some dotIndex))
    then (p, EmptyString)
    else (slice p None (Some dotIndex), slice p (Some dotIndex) None)
  else (p, EmptyString).

(** The loop of [normpath] over the components. *)
Fixpoint norm_comps (initial_slashes : nat) (comps new_comps : list string)
  : list string :=
  match comps with
  | [] => new_comps
  | comp :: rest =>
      if (String.eqb comp "" || String.eqb comp ".")%bool
      then norm_comps initial_slashes rest new_comps
      else if (negb (String.eqb comp "..")
               || (Nat.eqb initial_slashes 0 && Nat.eqb (List.length new_comps) 0)
               || (negb (Nat.eqb (List.length new_comps) 0)
                   && String.eqb (List.last new_comps "") ".."))%bool
      then norm_comps initial_slashes rest (new_comps ++ [comp])
      else norm_comps initial_slashes rest (List.removelast new_comps)
  end.

Fixpoint slashes (n : nat) : string :=
  match n with O => "" | S k => "/" +++ slashes k end.

(** [os.path.normpath(path)] *)
Definition normpath (path : string) : string :=
  if String.eqb path "" then "."
  else
    let initial_slashes :=
      if startswith "/" path then
        if (startswith "//" path && negb (startswith "///" path))%bool
        then 2%nat else 1%nat
      else 0%nat in
    let comps := norm_comps initial_slashes (split "/" path) [] in
    let p := slashes initial_slashes +++ PyStr.join "/" comps in
    if String.eqb p "" then "." else p.

(** [os.path.abspath(path)] given the result of [os.getcwd()]. *)
Definition abspath (getcwd : string) (path : string) : string :=
  normpath (if startswith "/" path then path else join getcwd path).

(** [str(pathlib.Path(s))]: empty and "." components are dropped, ".." is
    kept, and exactly two leading slashes are preserved. *)
Definition pathlib_str (s : string) : string :=
  let root :=
    if startswith "/" s then
      if Z.eqb (len s - len (lstrip "/" s)) 2 then "//" else "/"
    else "" in
  let rel := if startswith "/" s then lstrip "/" s else s in
  let parts :=
    List.filter (fun x => negb (String.eqb x "" || String.eqb x "."))
      (split "/" rel) in
  let r := root +++ PyStr.join "/" parts in
  if String.eqb r "" then "." else r.

End PosixPath.

(* ================================================================= *)
(** ** re: the fragment of Python regular expressions that is embedded *)

Module Re.

Inductive regex : Type :=
| Void
| Eps
| Chr (c : ascii)
| Any
| Alt (r1 r2 : regex)
| Seq (r1 r2 : regex)
| Star (r : regex).

Inductive quant : Type := QStar | QPlus | QOpt.

Inductive token : Type :=
| TAtom (r : regex)
| TQuant (q : quant)
| TOther.

Definition is_alnum (c : ascii) : bool :=
  let n := nat_of_ascii c in
  ((48 <=? n) && (n <=? 57) || (65 <=? n) && (n <=? 90)
   || (97 <=? n) && (n <=? 122))%nat%bool.

(** Characters with a meaning of their own in a pattern. *)
Definition is_special (c : ascii) : bool :=
  existsb (Ascii.eqb c)
    ["."; "^"; "$"; "*"; "+"; "?"; "{"; "}"; "["; "]"; "\"; "|"; "("; ")"]%char.

(** One token per pattern element.  A backslash before a character that
    is not alphanumeric is that character; the classes, groups,
    alternation, anchors and counted repeats are [TOther]. *)
Fixpoint tokens (escaped : bool) (s : string) : list token :=
  match s with
  | EmptyString => if escaped then [TOther] else []
  | String c s' =>
      if escaped then
        (if is_alnum c then TOther else TAtom (Chr c)) :: tokens false s'
      else if Ascii.eqb c "\" then tokens true s'
      else if Ascii.eqb c "." then TAtom Any :: tokens false s'
      else if Ascii.eqb c "*" then TQuant QStar :: tokens false s'
      else if Ascii.eqb c "+" then TQuant QPlus :: tokens false s'
      else if Ascii.eqb c "?" then TQuant QOpt :: tokens false s'
      else if is_special c then TOther :: tokens false s'
      else TAtom (Chr c) :: tokens false s'
  end.

Definition repeat (q : quant) (r : regex) : regex :=
  match q with
  | QStar => Star r
  | QPlus => Seq r (Star r)
  | QOpt => Alt r Eps
  end.

(** A sequence of atoms, each with at most one greedy quantifier. *)
Fixpoint build (ts : list token) : option regex :=
  match ts with
  | [] => Some Eps
  | TAtom a :: rest =>
      match rest with
      | TQuant q :: rest' =>
          match rest' with
          | TQuant _ :: _ => None
          | _ => option_map (Seq (repeat q a)) (build rest')
          end
      | _ => option_map (Seq a) (build rest)
      end
  | _ => None
  end.

(** [re.compile(pattern)]; [None] outside the embedded fragment. *)
Definition compile (pattern : string) : option regex :=
  build (tokens false pattern).

Fixpoint nullable (r : regex) : bool :=
  match r with
  | Void | Chr _ | Any => false
  | Eps | Star _ => true
  | Alt r1 r2 => nullable r1 || nullable r2
  | Seq r1 r2 => nullable r1 && nullable r2
  end.

(** "." is any character except a newline. *)
Definition any_char (c : ascii) : bool := negb (Ascii.eqb c "010").

Fixpoint deriv (c : ascii) (r : regex) : regex :=
  match r with
  | Void | Eps => Void
  | Chr d => if Ascii.eqb c d then Eps else Void
  | Any => if any_char c then Eps else Void
  | Alt r1 r2 => Alt (deriv c r1) (deriv c r2)
  | Seq r1 r2 =>
      if nullable r1 then Alt (Seq (deriv c r1) r2) (deriv c r2)
      else Seq (deriv c r1) r2
  | Star r1 => Seq (deriv c r1) (Star r1)
  end.

(** [regexp.match(text)] as a truth value: the pattern matches at the
    start of [text], on some prefix of it. *)
Fixpoint match_ (r : regex) (text : string) : bool :=
  nullable r ||
  match text with
  | EmptyString => false
  | String c text' => match_ (deriv c r) text'
  end.

(** The words of a pattern. *)
Inductive lang : regex -> string -> Prop :=
| LEps : lang Eps ""
| LChr c : lang (Chr c) (String c "")
| LAny c : any_char c = true -> lang Any (String c "")
| LAltL r1 r2 s : lang r1 s -> lang (Alt r1 r2) s
| LAltR r1 r2 s : lang r2 s -> lang (Alt r1 r2) s
| LSeq r1 r2 s1 s2 : lang r1 s1 -> lang r2 s2 -> lang (Seq r1 r2) (s1 +++ s2)
| LStar0 r : lang (Star r) ""
| LStarS r s1 s2 : lang r s1 -> lang (Star r) s2 -> lang (Star r) (s1 +++ s2).

End Re.

(* ================================================================= *)
(** ** Parsed TOML documents *)

Module Toml.

Module Project.
Record t : Type := mk {
  language : option string;
  top_module : option string;
  rtl_dir : option string;
  rtl_dir_pattern : option string;
  tb_dir : option string;
  tb_dir_pattern : option string;
  tb_file_fmt : option string;
  build_dir : option string;
  spec : option string
}.
End Project.

Module Ip.
Record t : Type := mk {
  name : option string;
  rtl_dir : option string;
  rtl_dir_pattern : option string
}.
End Ip.

Module Lib.
Record t : Type := mk {
  name : option string;
  path : option string
}.
End Lib.

Record doc : Type := mk {
  project : option Project.t;
  ip : option (list Ip.t);
  lib : option (list Lib.t);
  ext_including_dir : option (list string)
}.

End Toml.

(* ================================================================= *)
(** ** The file system *)

Module FS.

Inductive node : Type :=
| File (content : option Toml.doc)   (* [None]: not a TOML document *)
| Dir (entries : list (string * node)).

Inductive errno : Type := ENOENT | ENOTDIR.

Fixpoint assoc {V : Type} (k : string) (l : list (string * V)) : option V :=
  match l with
  | [] => None
  | (k', v) :: r => if String.eqb k' k then Some v else assoc k r
  end.

(** The node at a list of entry names below [n]. *)
Fixpoint lookup (n : node) (p : list string) : option node :=
  match p with
  | [] => Some n
  | c :: p' =>
      match n with
      | Dir es => match assoc c es with
                  | Some ch => lookup ch p'
                  | None => None
                  end
      | File _ => None
      end
  end.

(** Path resolution, one component at a time from the directory [cur]. *)
Fixpoint namei (root : node) (cur : list string) (comps : list string)
  : errno + list string :=
  match comps with
  | [] => inr cur
  | c :: rest =>
      match lookup root cur with
      | Some (Dir es) =>
          if (String.eqb c "" || String.eqb c ".")%bool then namei root cur rest
          else if String.eqb c ".." then namei root (removelast cur) rest
          else match assoc c es with
               | Some _ => namei root (cur ++ [c]) rest
               | None => inl ENOENT
               end
      | Some (File _) => inl ENOTDIR
      | None => inl ENOENT
      end
  end.

Definition is_dir (n : node) : bool :=
  match n with Dir _ => true | File _ => false end.

Definition dirnames (es : list (string * node)) : list string :=
  map fst (filter (fun e => is_dir (snd e)) es).

Definition filenames (es : list (string * node)) : list string :=
  map fst (filter (fun e => negb (is_dir (snd e))) es).

(** [os.walk] below a node reached as [top]: top-down, one triple
    (dirpath, dirnames, filenames) per directory. *)
Fixpoint walk_node (top : string) (n : node)
  : list (string * list string * list string) :=
  match n with
  | File _ => []
  | Dir es =>
      (top, dirnames es, filenames es)
        :: flat_map (fun e => walk_node (PosixPath.join top (fst e)) (snd e)) es
  end.

Fixpoint update_first (k : string) (f : node -> node)
  (es : list (string * node)) : list (string * node) :=
  match es with
  | [] => []
  | (k', v) :: r =>
      if String.eqb k' k then (k', f v) :: r else (k', v) :: update_first k f r
  end.

(** A new empty directory [name] at the end of the directory at [p]. *)
Fixpoint insert_dir (p : list string) (name : string) (n : node) : node :=
  match n with
  | File c => File c
  | Dir es =>
      match p with
      | [] => Dir (es ++ [(name, Dir [])])
      | c :: p' => Dir (update_first c (insert_dir p' name) es)
      end
  end.

(** The components of a path without the empty ones at its end. *)
Fixpoint strip_trailing (l : list string) : list string :=
  match l with
  | [] => []
  | x :: r =>
      match strip_trailing r with
      | [] => if String.eqb x "" then [] else [x]
      | r' => x :: r'
      end
  end.

End FS.

(* ================================================================= *)
(** ** Exceptions and the world *)

Inductive exn : Type :=
| KeyError (key : string)
| IndexError
| ValueError
| FileNotFoundError (filename : string)
| NotADirectoryError (filename : string)
| IsADirectoryError (filename : string)
| FileExistsError (filename : string)
| TomlParsingError
| Exception                              (* [raise Exception()] *)
| AttributeError (msg : string)
| Unmodelled (what : string).

Inductive outcome (A : Type) : Type :=
| Ok (a : A)
| Raise (e : exn).

Arguments Ok {A} a.
Arguments Raise {A} e.

(** The file tree, the working directory as entry names below the root, and
    the lines printed so far. *)
Record world : Type := mkWorld {
  root : FS.node;
  cwd : list string;
  stdout : list string
}.

Definition M (A : Type) : Type := world -> outcome A * world.

Definition ret {A : Type} (a : A) : M A := fun w => (Ok a, w).

Definition raise {A : Type} (e : exn) : M A := fun w => (Raise e, w).

Definition bind {A B : Type} (m : M A) (k : A -> M B) : M B :=
  fun w => match m w with
           | (Ok a, w') => k a w'
           | (Raise e, w') => (Raise e, w')
           end.

Notation "x <- m ;; k" := (bind m (fun x => k))
  (at level 61, m at next level, right associativity).
Notation "m ;;; k" := (bind m (fun _ => k))
  (at level 61, right associativity).

Definition lift {A : Type} (o : outcome A) : M A := fun w => (o, w).

(** [print(line)] *)
Definition print (line : string) : M unit :=
  fun w => (Ok tt, mkWorld (root w) (cwd w) (stdout w ++ [line])).

(** [for a in l: s = f(a, s)] *)
Fixpoint foldM {A S : Type} (f : A -> S -> M S) (l : list A) (s : S) : M S :=
  match l with
  | [] => ret s
  | a :: r => s' <- f a s ;; foldM f r s'
  end.

(** [d[key]] on a table of a parsed document. *)
Definition getitem {A : Type} (key : string) (o : option A) : M A :=
  match o with
  | Some a => ret a
  | None => raise (KeyError key)
  end.

(* ================================================================= *)
(** ** str.format with one positional argument *)

Module Format.

Inductive piece : Type :=
| Lit (c : ascii)
| Auto                       (* {} *)
| Index (n : nat)            (* {0}, {1}, ... *)
| Named (name : string)      (* {name} *)
| Other                      (* conversions, format specs, attributes *)
| Bad.                       (* a brace without its partner *)

Inductive state : Type :=
| Out
| AfterOpen
| InField (acc : string)
| AfterClose.

Definition is_digit (c : ascii) : bool :=
  let n := nat_of_ascii c in ((48 <=? n) && (n <=? 57))%nat%bool.

Definition is_ident_char (c : ascii) : bool :=
  (Re.is_alnum c || Ascii.eqb c "_")%bool.

Fixpoint digits_value (s : string) (acc : nat) : nat :=
  match s with
  | EmptyString => acc
  | String c s' => digits_value s' (10 * acc + (nat_of_ascii c - 48))
  end.

Definition field (f : string) : piece :=
  match f with
  | EmptyString => Auto
  | String c _ =>
      if PyStr.all_chars is_digit f then Index (digits_value f 0)
      else if (PyStr.all_chars is_ident_char f && negb (is_digit c))%bool
      then Named f
      else Other
  end.

Fixpoint scan (st : state) (s : string) : list piece :=
  match s with
  | EmptyString => match st with Out => [] | _ => [Bad] end
  | String c s' =>
      match st with
      | Out =>
          if Ascii.eqb c "{" then scan AfterOpen s'
          else if Ascii.eqb c "}" then scan AfterClose s'
          else Lit c :: scan Out s'
      | AfterOpen =>
          if Ascii.eqb c "{" then Lit "{" :: scan Out s'
          else if Ascii.eqb c "}" then Auto :: scan Out s'
          else scan (InField (PyStr.of_char c)) s'
      | InField acc =>
          if Ascii.eqb c "}" then field acc :: scan Out s'
          else if Ascii.eqb c "{" then [Other]
          else scan (InField (acc +++ PyStr.of_char c)) s'
      | AfterClose =>
          if Ascii.eqb c "}" then Lit "}" :: scan Out s' else [Bad]
      end
  end.

(** [numbering]: [None] before the first field, then [Some true] for
    automatic and [Some false] for explicit numbering. *)
Fixpoint render (ps : list piece) (numbering : option bool) (next : nat)
  (arg : string) : outcome string :=
  match ps with
  | [] => Ok ""
  | Lit c :: r =>
      match render r numbering next arg with
      | Ok t => Ok (String c t)
      | Raise e => Raise e
      end
  | Auto :: r =>
      match numbering with
      | Some false => Raise ValueError
      | _ =>
          match next with
          | O => match render r (Some true) 1 arg with
                 | Ok t => Ok (arg +++ t)
                 | Raise e => Raise e
                 end
          | S _ => Raise IndexError
          end
      end
  | Index n :: r =>
      match numbering with
      | Some true => Raise ValueError
      | _ =>
          match n with
          | O => match render r (Some false) next arg with
                 | Ok t => Ok (arg +++ t)
                 | Raise e => Raise e
                 end
          | S _ => Raise IndexError
          end
      end
  | Named name :: _ => Raise (KeyError name)
  | Other :: _ => Raise (Unmodelled "str.format")
  | Bad :: _ => Raise ValueError
  end.

(** [fmt.format(arg)] *)
Definition format (fmt arg : string) : outcome string :=
  render (scan Out fmt) None 0 arg.

End Format.

(* ================================================================= *)
(** ** os and rtoml *)

Module Os.

(** [os.getcwd()] *)
Definition getcwd (w : world) : string := "/" +++ PyStr.join "/" (cwd w).

(** The entry names from the root that a path leads to. *)
Definition resolve (w : world) (path : string) : FS.errno + list string :=
  if String.eqb path "" then inl FS.ENOENT
  else FS.namei (root w)
         (if PyStr.startswith "/" path then [] else cwd w)
         (PyStr.split "/" path).

Definition stat (w : world) (path : string) : FS.errno + FS.node :=
  match resolve w path with
  | inl e => inl e
  | inr p => match FS.lookup (root w) p with
             | Some n => inr n
             | None => inl FS.ENOENT
             end
  end.

(** [os.path.exists(path)] *)
Definition path_exists (path : string) : M bool :=
  fun w => (Ok (match stat w path with inr _ => true | inl _ => false end), w).


(** [os.path.abspath(path)] *)
Definition abspath (path : string) : M string :=
  fun w => (Ok (PosixPath.abspath (getcwd w) path), w).

(** The triples of [os.walk(top)]: errors of [os.scandir] are ignored, so a
    top that is missing or is not a directory gives no triple at all. *)
Definition walked (w : world) (top : string)
  : list (string * list string * list string) :=
  match stat w top with
  | inr n => FS.walk_node top n
  | inl _ => []
  end.

(** [list(os.walk(top))] *)
Definition walk (top : string) : M (list (string * list string * list string)) :=
  fun w => (Ok (walked w top), w).

(** [os.mkdir(path)] *)
Definition mkdir (path : string) : M unit :=
  fun w =>
    let comps := FS.strip_trailing (PyStr.split "/" path) in
    match comps with
    | [] => (Raise (if String.eqb path "" then FileNotFoundError path
                    else FileExistsError path), w)
    | _ :: _ =>
        let name := List.last comps "" in
        match FS.namei (root w)
                (if PyStr.startswith "/" path then [] else cwd w)
                (List.removelast comps) with
        | inl FS.ENOENT => (Raise (FileNotFoundError path), w)
        | inl FS.ENOTDIR => (Raise (NotADirectoryError path), w)
        | inr p =>
            match FS.lookup (root w) p with
            | Some (FS.Dir es) =>
                if (String.eqb name "." || String.eqb name "..")%bool
                then (Raise (FileExistsError path), w)
                else match FS.assoc name es with
                     | Some _ => (Raise (FileExistsError path), w)
                     | None =>
                         (Ok tt, mkWorld (FS.insert_dir p name (root w))
                                   (cwd w) (stdout w))
                     end
            | Some (FS.File _) => (Raise (NotADirectoryError path), w)
            | None => (Raise (FileNotFoundError path), w)
            end
        end
    end.

End Os.

Module Rtoml.

(** [rtoml.load(Path(file))]: the text of the file is read through
    [pathlib], whose rendering of the path is the [filename] of the
    [OSError] raised when it cannot be opened. *)
Definition load (file : string) : M Toml.doc :=
  fun w =>
    let name := PosixPath.pathlib_str file in
    match Os.stat w name with
    | inl FS.ENOENT => (Raise (FileNotFoundError name), w)
    | inl FS.ENOTDIR => (Raise (NotADirectoryError name), w)
    | inr (FS.Dir _) => (Raise (IsADirectoryError name), w)
    | inr (FS.File None) => (Raise TomlParsingError, w)
    | inr (FS.File (Some d)) => (Ok d, w)
    end.

End Rtoml.

(* ================================================================= *)
(** ** dict: insertion-ordered, one entry per key *)

Module Dict.

Definition t (V : Type) : Type := list (string * V).

Definition empty {V : Type} : t V := [].

(** [d.get(k)] *)
Definition get {V : Type} (k : string) (d : t V) : option V := FS.assoc k d.

(** [k in d] *)
Definition contains {V : Type} (k : string) (d : t V) : bool :=
  match get k d with Some _ => true | None => false end.

(** [d.update({k: v})]: a key that is present keeps its position. *)
Fixpoint update {V : Type} (k : string) (v : V) (d : t V) : t V :=
  match d with
  | [] => [(k, v)]
  | (k', v') :: r =>
      if String.eqb k' k then (k', v) :: r else (k', v') :: update k v r
  end.

Definition keys {V : Type} (d : t V) : list string := map fst d.

Definition values {V : Type} (d : t V) : list V := map snd d.

End Dict.

(* ================================================================= *)
(** ** project.py *)

Module FileInfo.
Record t : Type := mk {
  filename : string;     (* without the suffix *)
  ext_name : string;     (* the suffix, with its dot *)
  fullpath : string
}.
End FileInfo.

Module IpCoreInfo.
Record t : Type := mk {
  name : string;
  root_dir : string;
  rtl_files : Dict.t FileInfo.t
}.
End IpCoreInfo.

Module LibInfo.
Record t : Type := mk {
  name : string;
  full_path : string
}.
End LibInfo.

Module Project.

Record t : Type := mk {
  language : string;
  files : Dict.t FileInfo.t;
  test_bench : Dict.t FileInfo.t;
  ip_cores : Dict.t IpCoreInfo.t;
  libs : list LibInfo.t;
  including_dir : list string;
  root_dir : string;
  top_module : string;
  build_out_dir : string
}.

Definition quoted (s : string) : string := PyStr.dquote +++ s +++ PyStr.dquote.

Definition red : string := PyStr.esc +++ "[1;31m".

Definition msg_duplicate (name : string) : string :=
  "  " +++ red +++ "Module " +++ quoted name +++ " is already exist.".

Definition msg_no_top (top : string) : string :=
  "  " +++ red +++ "Top module " +++ quoted top +++ " is not exist.".

Definition msg_no_ip_top (ip_name : string) : string :=
  "  " +++ red +++ "Cannot find top module " +++ quoted ip_name
    +++ " in IP core " +++ quoted ip_name +++ ".".

(** The function returned by [_append_file_to_map_parteval(target_map)];
    the map it updates in place is passed and returned. *)
Definition _append_file_to_map_parteval
  (filename filepath extname : string) (target_map : Dict.t FileInfo.t)
  : M (Dict.t FileInfo.t) :=
  let info := FileInfo.mk filename extname filepath in
  if Dict.contains (FileInfo.filename info) target_map then
    print (msg_duplicate (FileInfo.filename info)) ;;;
    raise Exception
  else
    ret (Dict.update (FileInfo.filename info) info target_map).

(** What one file of a walked directory passes to [cont], if anything:
    (file_name, absolute path, ext_name). *)
Definition candidate (getcwd : string) (regexp : Re.regex) (path file : string)
  : option (string * string * string) :=
  let fullpath := PosixPath.join path file in
  let fullpath_text := PyStr.replace "\" "/" fullpath in
  if Re.match_ regexp fullpath_text then
    let ext_name := snd (PosixPath.splitext fullpath) in
    let file_name :=
      PyStr.slice (PosixPath.basename fullpath) None
        (Some (- PyStr.len ext_name)%Z) in
    Some (file_name, PosixPath.abspath getcwd fullpath, ext_name)
  else None.

(** [_file_lists(dir, pattern, cont)]; [acc] is the state [cont] updates. *)
Definition _file_lists {S : Type} (dir pattern : string)
  (cont : string -> string -> string -> S -> M S) (acc : S) : M S :=
  regexp <- match Re.compile ("\./" +++ pattern) with
            | Some r => ret r
            | None => raise (Unmodelled "re.compile")
            end ;;
  triples <- Os.walk dir ;;
  foldM (fun '(path, _dir, files) acc1 =>
           foldM (fun file acc2 =>
                    fun w =>
                      match candidate (Os.getcwd w) regexp path file with
                      | Some (file_name, abs, ext_name) =>
                          cont file_name abs ext_name acc2 w
                      | None => (Ok acc2, w)
                      end)
             files acc1)
    triples acc.

(** The calls [_file_lists] makes to [cont], in order, as the triples
    (file_name, absolute path, ext_name) it passes. *)
Definition discovered (w : world) (regexp : Re.regex) (dir : string)
  : list (string * string * string) :=
  flat_map (fun '(path, _dir, files) =>
              flat_map (fun file =>
                          match candidate (Os.getcwd w) regexp path file with
                          | Some e => [e]
                          | None => []
                          end) files)
    (Os.walked w dir).

Definition discover (w : world) (dir pattern : string)
  : option (list (string * string * string)) :=
  option_map (fun r => discovered w r dir) (Re.compile ("\./" +++ pattern)).

Definition entry_name (e : string * string * string) : string := fst (fst e).

(** The registry a sequence of calls builds from [acc], or the first
    name that is already present. *)
Fixpoint registered (l : list (string * string * string))
  (acc : Dict.t FileInfo.t) : Dict.t FileInfo.t + string :=
  match l with
  | [] => inl acc
  | (n, p, e) :: r =>
      if Dict.contains n acc then inr n
      else registered r (Dict.update n (FileInfo.mk n e p) acc)
  end.

(** [_check_top_module] *)
Definition _check_top_module (top_module : string) (files : Dict.t FileInfo.t)
  : M unit :=
  if negb (Dict.contains top_module files) then
    print (msg_no_top top_module) ;;;
    raise Exception
  else ret tt.

(** [_load_project_properties]: the attributes it sets on [self], as
    (language, top_module, root_dir, files). *)
Definition _load_project_properties (toml_prj_dat : Toml.Project.t)
  : M (string * string * string * Dict.t FileInfo.t) :=
  language <- getitem "language" (Toml.Project.language toml_prj_dat) ;;
  top_module <- getitem "top_module" (Toml.Project.top_module toml_prj_dat) ;;
  rtl_dir <- getitem "rtl_dir" (Toml.Project.rtl_dir toml_prj_dat) ;;
  root_dir <- Os.abspath rtl_dir ;;
  rtl_dir' <- getitem "rtl_dir" (Toml.Project.rtl_dir toml_prj_dat) ;;
  pattern <- getitem "rtl_dir_pattern" (Toml.Project.rtl_dir_pattern toml_prj_dat) ;;
  files <- _file_lists rtl_dir' pattern _append_file_to_map_parteval Dict.empty ;;
  _check_top_module top_module files ;;;
  ret (language, top_module, root_dir, files).

(** [_load_testbench_files]; it reads [self.files] and neither reads nor
    changes anything outside its arguments. *)
Fixpoint testbench_loop (items : Dict.t FileInfo.t) (tb_file_fmt : option string)
  (test_bench_files test_bench : Dict.t FileInfo.t)
  : outcome (Dict.t FileInfo.t) :=
  match items with
  | [] => Ok test_bench
  | (module_name, _file) :: rest =>
      match tb_file_fmt with
      | None => Raise (KeyError "tb_file_fmt")
      | Some tb_fmt =>
          match Format.format tb_fmt module_name with
          | Raise e => Raise e
          | Ok tb_module =>
              match Dict.get tb_module test_bench_files with
              | Some info =>
                  testbench_loop rest tb_file_fmt test_bench_files
                    (Dict.update module_name info test_bench)
              | None =>
                  testbench_loop rest tb_file_fmt test_bench_files test_bench
              end
          end
      end
  end.

Definition _load_testbench_files (files : Dict.t FileInfo.t)
  (toml_prj_dat : Toml.Project.t) (test_bench_files : Dict.t FileInfo.t)
  : outcome (Dict.t FileInfo.t) :=
  testbench_loop files (Toml.Project.tb_file_fmt toml_prj_dat)
    test_bench_files Dict.empty.

(** One iteration of the loop of [_load_ip_cores]. *)
Definition load_ip_core (ip : Toml.Ip.t) (ip_cores : Dict.t IpCoreInfo.t)
  : M (Dict.t IpCoreInfo.t) :=
  ip_name <- getitem "name" (Toml.Ip.name ip) ;;
  rtl_dir <- getitem "rtl_dir" (Toml.Ip.rtl_dir ip) ;;
  pattern <- getitem "rtl_dir_pattern" (Toml.Ip.rtl_dir_pattern ip) ;;
  ip_files <- _file_lists rtl_dir pattern _append_file_to_map_parteval Dict.empty ;;
  if negb (Dict.contains ip_name ip_files) then
    print (msg_no_ip_top ip_name) ;;;
    raise Exception
  else
    rtl_dir' <- getitem "rtl_dir" (Toml.Ip.rtl_dir ip) ;;
    root_dir <- Os.abspath rtl_dir' ;;
    let ip_info := IpCoreInfo.mk ip_name root_dir ip_files in
    ret (Dict.update ip_name ip_info ip_cores).

(** The [IpCoreInfo] one iteration of the loop of [_load_ip_cores] builds,
    when it builds one. *)
Definition core_info (w : world) (ip : Toml.Ip.t) : option IpCoreInfo.t :=
  match Toml.Ip.name ip, Toml.Ip.rtl_dir ip, Toml.Ip.rtl_dir_pattern ip with
  | Some ip_name, Some rtl_dir, Some pattern =>
      match discover w rtl_dir pattern with
      | Some l =>
          match registered l Dict.empty with
          | inl ip_files =>
              if Dict.contains ip_name ip_files
              then Some (IpCoreInfo.mk ip_name
                           (PosixPath.abspath (Os.getcwd w) rtl_dir) ip_files)
              else None
          | inr _ => None
          end
      | None => None
      end
  | _, _, _ => None
  end.

(** The dict the loop of [_load_ip_cores] builds from the infos. *)
Definition collect_cores (infos : list IpCoreInfo.t) (acc : Dict.t IpCoreInfo.t)
  : Dict.t IpCoreInfo.t :=
  fold_left (fun d i => Dict.update (IpCoreInfo.name i) i d) infos acc.

(** [_load_ip_cores] *)
Definition _load_ip_cores (toml_ip_dat : list Toml.Ip.t)
  : M (Dict.t IpCoreInfo.t) :=
  foldM load_ip_core toml_ip_dat Dict.empty.

(** [_load_spec_file] *)
Definition _load_spec_file (file : string) : M (list LibInfo.t * list string) :=
  full_path <- Os.abspath file ;;
  toml_dat <- Rtoml.load full_path ;;
  libs <- match Toml.lib toml_dat with
          | Some toml_lib_dat =>
              foldM (fun lib libs =>
                       name <- getitem "name" (Toml.Lib.name lib) ;;
                       path <- getitem "path" (Toml.Lib.path lib) ;;
                       full <- Os.abspath path ;;
                       ret (libs ++ [LibInfo.mk name full]))
                toml_lib_dat []
          | None => ret []
          end ;;
  including_dir <- match Toml.ext_including_dir toml_dat with
                   | Some dirs =>
                       foldM (fun inc_dir including_dir =>
                                full <- Os.abspath inc_dir ;;
                                ret (including_dir ++ [full]))
                         dirs []
                   | None => ret []
                   end ;;
  ret (libs, including_dir).

(** The body of the [try] of [__init__]. *)
Definition init_body (file : string) : M t :=
  toml_dat <- Rtoml.load file ;;
  toml_prj_dat <- getitem "project" (Toml.project toml_dat) ;;
  props <- _load_project_properties toml_prj_dat ;;
  let '(language, top_module, root_dir, files) := props in
  tb_dir <- getitem "tb_dir" (Toml.Project.tb_dir toml_prj_dat) ;;
  tb_dir_pattern <- getitem "tb_dir_pattern" (Toml.Project.tb_dir_pattern toml_prj_dat) ;;
  test_bench_file <-
    _file_lists tb_dir tb_dir_pattern _append_file_to_map_parteval Dict.empty ;;
  test_bench <- lift (_load_testbench_files files toml_prj_dat test_bench_file) ;;
  ip_cores <- match Toml.ip toml_dat with
              | Some toml_ip_dat => _load_ip_cores toml_ip_dat
              | None => ret Dict.empty
              end ;;
  spec_res <- match Toml.Project.spec toml_prj_dat with
              | Some spec_file => _load_spec_file spec_file
              | None => ret ([], [])
              end ;;
  let '(libs, ext_including) := spec_res in
  let including_dir :=
    ([root_dir] ++ map IpCoreInfo.root_dir (Dict.values ip_cores))
      ++ ext_including in
  build_dir <- getitem "build_dir" (Toml.Project.build_dir toml_prj_dat) ;;
  abs_build <- Os.abspath build_dir ;;
  let build_out_dir := abs_build +++ PosixPath.sep in
  present <- Os.path_exists build_out_dir ;;
  (if negb present then Os.mkdir build_out_dir else ret tt) ;;;
  ret (mk language files test_bench ip_cores libs including_dir
         root_dir top_module build_out_dir).

Definition msg_missing_items : string := "Project file was missing some items.".

Definition msg_missing_file (filename : string) : string :=
  "Missing file " +++ filename +++ ".".

(** [Project(file)]: the [try] with its two handlers. *)
Definition __init__ (file : string) : M t :=
  fun w =>
    match init_body file w with
    | (Raise (KeyError _), w') => (Raise (AttributeError msg_missing_items), w')
    | (Raise (FileNotFoundError filename), w') =>
        (Raise (AttributeError (msg_missing_file filename)), w')
    | r => r
    end.

(** The three kinds of failure the resolution reports. *)
Inductive error_class : Type :=
| ManifestIncomplete
| MissingFile
| StructuralConflict.

Definition classify (e : exn) : option error_class :=
  match e with
  | Exception => Some StructuralConflict
  | AttributeError msg =>
      if String.eqb msg msg_missing_items then Some ManifestIncomplete
      else if PyStr.startswith "Missing file " msg then Some MissingFile
      else None
  | _ => None
  end.

End Project.

(* ================================================================= *)
(** ** Notions used in the statements, and example worlds *)

(** A computation that leaves the world as it found it whenever it
    returns. *)
Definition quiet {A : Type} (m : M A) : Prop :=
  forall w a w', m w = (Ok a, w') -> w' = w.

Definition call {S : Type} (cont : string -> string -> string -> S -> M S)
  (e : string * string * string) (acc : S) : M S :=
  cont (fst (fst e)) (snd (fst e)) (snd e) acc.

Definition with_line (w : world) (line : string) : world :=
  mkWorld (root w) (cwd w) (stdout w ++ [line]).

(** The directories a spec file adds, in the order it lists them. *)
Definition spec_dirs (w : world) (doc : Toml.doc) : list string :=
  match Toml.ext_including_dir doc with
  | Some dirs => map (PosixPath.abspath (Os.getcwd w)) dirs
  | None => []
  end.

(** Exists-or-create of the output directory. *)
Definition ensure_dir (path : string) (w w' : world) : Prop :=
  ((exists n, Os.stat w path = inr n) /\ w' = w)
  \/ ((exists e, Os.stat w path = inl e) /\ Os.mkdir path w = (Ok tt, w')).

Definition vfile : FS.node := FS.File None.

Definition home (entries : list (string * FS.node)) : FS.node :=
  FS.Dir [("home", FS.Dir [("u", FS.Dir [("prj", FS.Dir entries)])])].

Definition at_prj (entries : list (string * FS.node)) : world :=
  mkWorld (home entries) ["home"; "u"; "prj"] [].

Definition prj_adder : Toml.Project.t :=
  Toml.Project.mk (Some "verilog") (Some "adder") (Some "./rtl")
    (Some "rtl/.*\.v") (Some "./rtl_tb") (Some "rtl_tb/.*\.v") (Some "{}_tb")
    (Some "./build") None.

Definition doc_adder : Toml.doc := Toml.mk (Some prj_adder) None None None.

(** rtl/adder.v, rtl/sub/mul.v and rtl_tb/adder_tb.v. *)
Definition w_adder : world :=
  at_prj [("project.toml", FS.File (Some doc_adder));
          ("rtl", FS.Dir [("adder.v", vfile); ("sub", FS.Dir [("mul.v", vfile)])]);
          ("rtl_tb", FS.Dir [("adder_tb.v", vfile)])].


(** Two files with the stem adder below rtl/. *)
Definition w_dup : world :=
  at_prj [("project.toml", FS.File (Some doc_adder));
          ("rtl", FS.Dir [("adder.v", vfile); ("old", FS.Dir [("adder.v", vfile)])]);
          ("rtl_tb", FS.Dir [("adder_tb.v", vfile)])].

(** What the loop has made of module [m] once it has gone through [items],
    starting from [acc]. *)
Definition resolved (T : string -> string) (F : Dict.t FileInfo.t)
  (items acc : Dict.t FileInfo.t) (m : string) : option FileInfo.t :=
  if Dict.contains m items then
    match Dict.get (T m) F with
    | Some info => Some info
    | None => Dict.get m acc
    end
  else Dict.get m acc.

Definition brace_free (s : string) : Prop :=
  PyStr.all_chars (fun c => negb (Ascii.eqb c "{" || Ascii.eqb c "}")) s = true.

Fixpoint lits (s : string) : list Format.piece :=
  match s with
  | EmptyString => []
  | String c s' => Format.Lit c :: lits s'
  end.

(** The last info with a given name, as a dict lookup. *)
Definition last_named (n : string) (infos : list IpCoreInfo.t)
  : option IpCoreInfo.t :=
  find (fun i => String.eqb (IpCoreInfo.name i) n) (rev infos).


Definition ip_decl (name dir pattern : string) : Toml.Ip.t :=
  Toml.Ip.mk (Some name) (Some dir) (Some pattern).



(** Three declarations, the first and the last both named fifo. *)
Definition doc_three_cores : Toml.doc :=
  Toml.mk (Some prj_adder)
    (Some [ip_decl "fifo" "./ip/fifo" "ip/fifo/.*\.v";
           ip_decl "uart" "./ip/uart" "ip/uart/.*\.v";
           ip_decl "fifo" "./ip/fifo2" "ip/fifo2/.*\.v"])
    None None.

Definition w_three_cores : world :=
  at_prj [("project.toml", FS.File (Some doc_three_cores));
          ("rtl", FS.Dir [("adder.v", vfile)]);
          ("rtl_tb", FS.Dir [("adder_tb.v", vfile)]);
          ("ip", FS.Dir [("fifo", FS.Dir [("fifo.v", vfile)]);
                         ("uart", FS.Dir [("uart.v", vfile)]);
                         ("fifo2", FS.Dir [("fifo.v", vfile)])])].

(** The names and the absolute directories of the declarations, in the
    order of the manifest. *)
Definition declared_names (decls : list Toml.Ip.t) : list string :=
  flat_map (fun ip => match Toml.Ip.name ip with Some n => [n] | None => [] end)
    decls.

Definition declared_root_dirs (w : world) (decls : list Toml.Ip.t) : list string :=
  flat_map (fun ip => match Toml.Ip.rtl_dir ip with
                      | Some d => [PosixPath.abspath (Os.getcwd w) d]
                      | None => []
                      end) decls.

Definition prj_spec : Toml.Project.t :=
  Toml.Project.mk (Some "verilog") (Some "adder") (Some "./rtl")
    (Some "rtl/.*\.v") (Some "./rtl_tb") (Some "rtl_tb/.*\.v") (Some "{}_tb")
    (Some "./build") (Some "./spec.toml").

Definition doc_spec : Toml.doc :=
  Toml.mk (Some prj_spec)
    (Some [ip_decl "fifo" "./ip/fifo" "ip/fifo/.*\.v";
           ip_decl "uart" "./ip/uart" "ip/uart/.*\.v"])
    None None.

Definition doc_spec_file : Toml.doc :=
  Toml.mk None None
    (Some [Toml.Lib.mk (Some "cells") (Some "./lib/cells")])
    (Some ["./inc"; "/opt/inc"]).

(** Two cores of different names and a spec file. *)
Definition w_spec : world :=
  at_prj [("project.toml", FS.File (Some doc_spec));
          ("spec.toml", FS.File (Some doc_spec_file));
          ("rtl", FS.Dir [("adder.v", vfile)]);
          ("rtl_tb", FS.Dir [("adder_tb.v", vfile)]);
          ("ip", FS.Dir [("fifo", FS.Dir [("fifo.v", vfile)]);
                         ("uart", FS.Dir [("uart.v", vfile)])])].


(** The include directories as the specification words them: the root
    directory, the directory of every declared core in the order of the
    manifest, then the directories of the spec file. *)
Definition spec_including_dir (w : world) (root_dir : string)
  (decls : list Toml.Ip.t) (ext : list string) : list string :=
  [root_dir] ++ declared_root_dirs w decls ++ ext.

(** The matching the specification words: a shell glob, where "*" is any
    run of characters other than "/", "?" is one such character and every
    other character is itself, and the whole text has to be matched. *)
Fixpoint spec_glob_match (p s : string) : bool :=
  match p with
  | EmptyString => match s with EmptyString => true | String _ _ => false end
  | String c p' =>
      if Ascii.eqb c "*" then
        (fix star (s : string) : bool :=
           spec_glob_match p' s ||
           match s with
           | EmptyString => false
           | String d s' => negb (Ascii.eqb d "/") && star s'
           end) s
      else
        match s with
        | EmptyString => false
        | String d s' =>
            (Ascii.eqb c "?" && negb (Ascii.eqb d "/") || Ascii.eqb c d)
            && spec_glob_match p' s'
        end
  end.

(** The specification's criterion for the file at [rel] below the root
    directory: the pattern, anchored with "./", matches the whole of the
    relative path. *)
Definition spec_yields (pattern rel : string) : bool :=
  spec_glob_match ("./" +++ pattern) ("./" +++ rel).

(** rtl/ holds adder.v and a Makefile. *)
Definition w_makefile : world :=
  at_prj [("project.toml", FS.File (Some doc_adder));
          ("rtl", FS.Dir [("adder.v", vfile); ("Makefile", vfile)]);
          ("rtl_tb", FS.Dir [("adder_tb.v", vfile)])].




(* ================================================================= *)
(** ** Notions used in the statements about the rest of the code *)

(** A path that starts at the root. *)
Definition absolute (s : string) : Prop := PyStr.startswith "/" s = true.

(** The entry the insertion rule makes of one call of [cont]. *)
Definition to_entry (e : string * string * string) : string * FileInfo.t :=
  (fst (fst e), FileInfo.mk (fst (fst e)) (snd e) (snd (fst e))).

(** The [LibInfo] one iteration of the loop of [_load_spec_file] builds,
    when the declaration has both keys. *)
Definition lib_info (w : world) (lib : Toml.Lib.t) : option LibInfo.t :=
  match Toml.Lib.name lib, Toml.Lib.path lib with
  | Some name, Some path =>
      Some (LibInfo.mk name (PosixPath.abspath (Os.getcwd w) path))
  | _, _ => None
  end.

(** The key whose lookup fails first in a declaration without both keys. *)
Definition lib_missing_key (lib : Toml.Lib.t) : string :=
  match Toml.Lib.name lib with
  | None => "name"
  | Some _ => "path"
  end.

(** What a step that raises [e] may have done to the world: nothing to the
    file tree and the working directory, and one printed line at most, and
    that only before the bare [Exception]. *)
Definition raised_in (w w' : world) (e : exn) : Prop :=
  root w' = root w /\ cwd w' = cwd w
  /\ (stdout w' = stdout w
      \/ (e = Exception /\ exists line, stdout w' = stdout w ++ [line])).

(** A computation that relates the worlds by [okrel] when it returns and
    by [raised_in] when it raises. *)
Definition eff {A : Type} (okrel : world -> A -> world -> Prop) (m : M A) : Prop :=
  forall w r w',
    m w = (r, w') ->
    match r with
    | Ok a => okrel w a w'
    | Raise e => raised_in w w' e
    end.

Definition tidy {A : Type} (m : M A) : Prop := eff (fun w _ w' => w' = w) m.

(** What a construction that returns [p] has done to the world. *)
Definition constructed_in (w : world) (p : Project.t) (w' : world) : Prop :=
  stdout w' = stdout w /\ cwd w' = cwd w
  /\ (w' = w \/ Os.mkdir (Project.build_out_dir p) w = (Ok tt, w')).

(** A field name that [str.format] looks up among the keyword arguments:
    letters, digits and underscores, not starting with a digit. *)
Definition identifier (name : string) : Prop :=
  PyStr.all_chars Format.is_ident_char name = true
  /\ exists c rest, name = String c rest /\ Format.is_digit c = false.

(** The adder project with another testbench template. *)
Definition prj_fmt (tmpl : string) : Toml.Project.t :=
  Toml.Project.mk (Some "verilog") (Some "adder") (Some "./rtl")
    (Some "rtl/.*\.v") (Some "./rtl_tb") (Some "rtl_tb/.*\.v") (Some tmpl)
    (Some "./build") None.

Definition w_fmt (tmpl : string) : world :=
  at_prj [("project.toml", FS.File (Some (Toml.mk (Some (prj_fmt tmpl)) None None None)));
          ("rtl", FS.Dir [("adder.v", vfile)]);
          ("rtl_tb", FS.Dir [("adder_tb.v", vfile)])].

(* ================================================================= *)
(** ** subprocess, repr, re and str, as action.py and app.py use them *)

Module Subprocess.

(** What the operating system makes of a command line.  [run] is
    [subprocess.run(command)] with the streams of the program: the
    exception of a launch that fails or the exit code, and the world the
    child leaves behind.  [run_captured] is the call with
    [capture_output=True, encoding='utf-8']: the text the child wrote to its
    standard output comes with the exit code. *)
Record t : Type := mk {
  run : list string -> world -> (exn + Z) * world;
  run_captured : list string -> world -> (exn + Z * string) * world
}.

End Subprocess.

(** The exceptions of the two upper modules: those of project.py, the one
    [subprocess.run(..., check=True)] raises, and the one [exit] raises. *)
Inductive error : Type :=
| Py (e : exn)
| CalledProcessError (returncode : Z) (cmd : list string)
| SystemExit (code : Z).

(** The library functions whose results the program only prints or tests. *)
Record env : Type := mkEnv {
  sub : Subprocess.t;
  (** [repr(s)] *)
  repr : string -> string;
  (** [re.match(pattern, s, flags=0)], and [.groups()] of the match *)
  re_groups : string -> string -> option (list string);
  (** [str(e)] *)
  str_error : error -> string
}.

Inductive result (A : Type) : Type :=
| Return (a : A)
| Raised (e : error).

Arguments Raised {A} e.

Definition Act (A : Type) : Type := world -> result A * world.

Definition areturn {A : Type} (a : A) : Act A := fun w => (Return a, w).

Definition araise {A : Type} (e : error) : Act A := fun w => (Raised e, w).

Definition abind {A B : Type} (m : Act A) (k : A -> Act B) : Act B :=
  fun w => match m w with
           | (Return a, w') => k a w'
           | (Raised e, w') => (Raised e, w')
           end.

Notation "x <~ m ;; k" := (abind m (fun x => k))
  (at level 61, m at next level, right associativity).
Notation "m ;;~ k" := (abind m (fun _ => k))
  (at level 61, right associativity).

(** A call into project.py. *)
Definition of_py {A : Type} (m : M A) : Act A :=
  fun w => match m w with
           | (Ok a, w') => (Return a, w')
           | (Raise e, w') => (Raised (Py e), w')
           end.

Definition aprint (line : string) : Act unit := of_py (print line).

(** [subprocess.run(command, check=True)] *)
Definition check_run (E : env) (command : list string) : Act unit :=
  fun w => match Subprocess.run (sub E) command w with
           | (inl e, w') => (Raised (Py e), w')
           | (inr code, w') =>
               if (code =? 0)%Z then (Return tt, w')
               else (Raised (CalledProcessError code command), w')
           end.

(** [f'{x}'] for an [x] that is a [str] or [None]. *)
Definition fstr (x : option string) : string :=
  match x with
  | Some s => s
  | None => "None"
  end.

(** [x in d] for a dict whose keys are strings. *)
Definition has {V : Type} (x : option string) (d : Dict.t V) : bool :=
  match x with
  | Some k => Dict.contains k d
  | None => false
  end.

(** [d[x]] *)
Definition item {V : Type} (x : option string) (d : Dict.t V) : Act V :=
  match x with
  | Some k => of_py (getitem k (Dict.get k d))
  | None => araise (Py (Unmodelled "KeyError(None)"))
  end.

(** [t[i]] for a tuple *)
Definition index {A : Type} (t : list A) (i : nat) : Act A :=
  match nth_error t i with
  | Some a => areturn a
  | None => araise (Py IndexError)
  end.

Definition cyan : string := PyStr.esc +++ "[1;36m".
Definition yellow : string := PyStr.esc +++ "[1;33m".
Definition plain : string := PyStr.esc +++ "[0m".

(* ================================================================= *)
(** ** action.py *)

Module ActionBase.

Record t : Type := mk {
  vvp_path : string;
  yosys_path : string;
  iverilog_path : string
}.

Definition __init__ (tool_basepath : option string) : t :=
  let basepath :=
    match tool_basepath with
    | Some b => b +++ "/"
    | None => ""
    end in
  mk (basepath +++ "vvp") (basepath +++ "yosys") (basepath +++ "iverilog").

End ActionBase.

Module Actions.

(** The command line [_iverilog_invoke] builds. *)
Definition iverilog_command (self : ActionBase.t) (project : Project.t)
  (ext_args file_args : list string) : list string :=
  let command := [ActionBase.iverilog_path self] in
  let command := command ++ ext_args in
  let command :=
    fold_left (fun command including_dir => (command ++ ["-I"]) ++ [including_dir])
      (Project.including_dir project) command in
  let command :=
    fold_left (fun command lib => (command ++ ["-y"]) ++ [LibInfo.full_path lib])
      (Project.libs project) command in
  let command :=
    fold_left (fun command ip => (command ++ ["-y"]) ++ [IpCoreInfo.root_dir (snd ip)])
      (Project.ip_cores project) command in
  let command := (command ++ ["-y"]) ++ [Project.root_dir project] in
  command ++ file_args.

Definition _iverilog_invoke (E : env) (self : ActionBase.t) (project : Project.t)
  (ext_args file_args : list string) : Act bool :=
  let command := iverilog_command self project ext_args file_args in
  let cmd_strs := PyStr.join " " command in
  aprint (">" +++ cyan +++ " Running iverilog...") ;;~
  fun w =>
    match check_run E command w with
    | (Return _, w') => (Return true, w')
    | (Raised (CalledProcessError _ _), w') =>
        (aprint ("> " +++ Project.red +++ "iverilog exitcode is not 0.") ;;~
         aprint ("  " +++ Project.red +++ "Command: " +++ repr E cmd_strs) ;;~
         areturn false) w'
    | (Raised e, w') => (Raised e, w')
    end.

Definition msg_no_module (module : option string) : string :=
  "  " +++ Project.red +++ "Module " +++ Project.quoted (fstr module)
    +++ " is not exist.".

Definition msg_no_testbench (module : option string) : string :=
  "  " +++ Project.red +++ "Test bench for module "
    +++ Project.quoted (fstr module) +++ " is not exist.".

Definition make_testbench (E : env) (self : ActionBase.t) (project : Project.t)
  (module : option string) : Act bool :=
  aprint ("> " +++ cyan +++ "make_test " +++ fstr module) ;;~
  if negb (has module (Project.files project)) then
    aprint (msg_no_module module) ;;~ areturn false
  else if negb (has module (Project.test_bench project)) then
    aprint (msg_no_testbench module) ;;~ areturn false
  else
    let ivlg_mkout := Project.build_out_dir project +++ fstr module +++ ".vo" in
    rtl <~ item module (Project.files project) ;;
    tb <~ item module (Project.test_bench project) ;;
    _iverilog_invoke E self project ["-o"; ivlg_mkout]
      (([] ++ [FileInfo.fullpath rtl]) ++ [FileInfo.fullpath tb]).

Definition _yosys_gen_load_script (project : Project.t) : list string :=
  let command_script :=
    fold_left
      (fun command_script entry =>
         command_script ++ ["read_verilog " +++ FileInfo.fullpath (snd entry)])
      (Project.files project) [] in
  command_script ++ ["hierarchy -check -top " +++ Project.top_module project].

Definition yosys_command (self : ActionBase.t) (script : string) : list string :=
  [ActionBase.yosys_path self; "-Q"; "-v"; "info"; "-p"; script].

Definition _yosys_invoke (E : env) (self : ActionBase.t) (script : string)
  : Act bool :=
  let command := yosys_command self script in
  let cmd_strs := PyStr.join " " command in
  aprint (">" +++ cyan +++ " Running yosys...") ;;~
  fun w =>
    match check_run E command w with
    | (Return _, w') => (Return true, w')
    | (Raised (CalledProcessError _ _), w') =>
        (aprint ("> " +++ Project.red +++ "yosys exitcode is not 0.") ;;~
         aprint ("  " +++ Project.red +++ "Command: " +++ repr E cmd_strs) ;;~
         areturn false) w'
    | (Raised e, w') => (Raised e, w')
    end.

(** The script [synthesis] hands to yosys. *)
Definition synthesis_script (project : Project.t) (output : option string)
  : string :=
  let command_script := [] ++ _yosys_gen_load_script project in
  let command_script := command_script ++ ["synth"] in
  let command_script := command_script ++ ["write_verilog " +++ fstr output] in
  PyStr.join "; " command_script.

Definition synthesis (E : env) (self : ActionBase.t) (project : Project.t)
  (output : option string) : Act bool :=
  _yosys_invoke E self (synthesis_script project output).

End Actions.

Module EnviromentActions.

Definition iverilog_version_re : string :=
  "Icarus Verilog version ([0-9]+\.[0-9]+)".

Definition yosys_version_re : string := "(Y|y)osys (([a-zA-Z0-9]|\.)+)".

(** [subprocess.run(command, capture_output=True, encoding='utf-8').stdout] *)
Definition captured (E : env) (command : list string) : Act string :=
  fun w => match Subprocess.run_captured (sub E) command w with
           | (inl e, w') => (Raised (Py e), w')
           | (inr (_, out), w') => (Return out, w')
           end.

Definition check_iverilog_enviroment (E : env) (self : ActionBase.t) : Act bool :=
  aprint ("> " +++ cyan +++ "iverilog -v") ;;~
  out <~ captured E [ActionBase.iverilog_path self; "-v"] ;;
  match re_groups E iverilog_version_re out with
  | None =>
      aprint ("  " +++ Project.red
              +++ "iverilog command output is not be recognized.") ;;~
      areturn false
  | Some groups =>
      iverilog_version <~ index groups 0 ;;
      aprint ("  iverilog version " +++ iverilog_version) ;;~
      areturn true
  end.

Definition check_yosys_enviroment (E : env) (self : ActionBase.t) : Act bool :=
  aprint ("> " +++ cyan +++ "yosys -V") ;;~
  out <~ captured E [ActionBase.yosys_path self; "-V"] ;;
  match re_groups E yosys_version_re out with
  | None =>
      aprint ("  " +++ Project.red
              +++ "yosys command output is not be recognized.") ;;~
      areturn false
  | Some groups =>
      version <~ index groups 1 ;;
      aprint ("  yosys version " +++ version) ;;~
      areturn true
  end.

End EnviromentActions.

(* ================================================================= *)
(** ** app.py *)

Module App.

(** [f'{len(d)}'] *)
Definition str_of_len {A : Type} (l : list A) : string :=
  NilEmpty.string_of_uint (Nat.to_uint (List.length l)).

Definition found (n what : string) : string :=
  "  found " +++ yellow +++ n +++ plain +++ " " +++ what.

Definition msg_load (prj_file : string) : string :=
  "> " +++ cyan +++ "load project: " +++ prj_file.

Definition _load_project (prj_file : string) : Act Project.t :=
  aprint (msg_load prj_file) ;;~
  prj <~ of_py (Project.__init__ prj_file) ;;
  aprint ("  language: " +++ yellow +++ Project.language prj) ;;~
  aprint ("  top module: " +++ yellow +++ Project.top_module prj) ;;~
  aprint (found (str_of_len (Project.files prj)) "RTL file(s)") ;;~
  aprint (found (str_of_len (Project.test_bench prj)) "RTL TestBench file(s)") ;;~
  aprint (found (str_of_len (Project.ip_cores prj)) "IP core(s)") ;;~
  areturn prj.

Definition msg_tools : string :=
  "  " +++ Project.red +++ "Tools was not found, did your forget add it to PATH?".

Definition msg_invalid_file (E : env) (e : error) : string :=
  "  " +++ Project.red +++ "Project file is invaild: " +++ str_error E e.

Definition msg_missing_keys (msg : string) : string :=
  "  " +++ Project.red +++ "Project file missing one or more keys: " +++ msg.

Definition msg_exception (E : env) (e : error) : string :=
  "  " +++ Project.red +++ "Loading project cause an exception: " +++ str_error E e.

(** The body of the [try] of [_check_enviroment]. *)
Definition check_body (E : env) (action : ActionBase.t) (project_file : string)
  : Act bool :=
  EnviromentActions.check_iverilog_enviroment E action ;;~
  EnviromentActions.check_yosys_enviroment E action ;;~
  _load_project project_file ;;~
  areturn true.

(** The handlers, tried in the order of the source.  [SystemExit] is no
    [Exception]; what the model leaves open stays open. *)
Definition _check_enviroment (E : env) (action : ActionBase.t)
  (project_file : string) : Act bool :=
  fun w =>
    match check_body E action project_file w with
    | (Return b, w') => (Return b, w')
    | (Raised (SystemExit c), w') => (Raised (SystemExit c), w')
    | (Raised (Py (Unmodelled what)), w') => (Raised (Py (Unmodelled what)), w')
    | (Raised (Py (FileNotFoundError _)), w') =>
        (aprint msg_tools ;;~ areturn false) w'
    | (Raised (Py TomlParsingError), w') =>
        (aprint (msg_invalid_file E (Py TomlParsingError)) ;;~ areturn false) w'
    | (Raised (Py (AttributeError msg)), w') =>
        (aprint (msg_missing_keys msg) ;;~ areturn false) w'
    | (Raised e, w') =>
        (aprint (msg_exception E e) ;;~ areturn false) w'
    end.

Definition _make_simu (E : env) (action : ActionBase.t) (project_file : string)
  (top_module : option string) : Act bool :=
  prj <~ _load_project project_file ;;
  Actions.make_testbench E action prj top_module.

Definition vvp_command (action : ActionBase.t) (prj : Project.t)
  (top_module : option string) : list string :=
  let vvp := ActionBase.vvp_path action in
  let ivlg_mkout := Project.build_out_dir prj +++ fstr top_module +++ ".vo" in
  [vvp; "-n"; ivlg_mkout].

Definition _dump_wave (E : env) (action : ActionBase.t) (prj : Project.t)
  (top_module : option string) : Act bool :=
  aprint (">" +++ cyan +++ " Running vvp...") ;;~
  check_run E (vvp_command action prj top_module) ;;~
  areturn true.

Definition _simu (E : env) (action : ActionBase.t) (project_file : string)
  (top_module : option string) : Act bool :=
  prj <~ _load_project project_file ;;
  made <~ Actions.make_testbench E action prj top_module ;;
  if negb made then areturn false
  else _dump_wave E action prj top_module.

Definition _synth (E : env) (action : ActionBase.t) (project_file : string)
  (output : option string) : Act bool :=
  prj <~ _load_project project_file ;;
  Actions.synthesis E action prj output.

(** The [Namespace] argparse hands over. *)
Record args : Type := mkArgs {
  project : string;
  basepath : option string;
  target : option string;
  active : string
}.

Definition msg_invalid_action (a : args) : string :=
  "> " +++ Project.red +++ "Build action " +++ Project.quoted (active a)
    +++ " is invaild.".

Definition msg_outcome (colour : string) (a : args) (word : string) : string :=
  "> " +++ colour +++ "Make target " +++ Project.quoted (fstr (target a))
    +++ " (action=" +++ Project.quoted (active a) +++ ") " +++ word.

(** The table of the supported actions. *)
Definition actions (E : env) (a : args) : Dict.t (Act bool) :=
  let prj_action := ActionBase.__init__ (basepath a) in
  let env_action := ActionBase.__init__ (basepath a) in
  [("check", _check_enviroment E env_action (project a));
   ("simu", _simu E prj_action (project a) (target a));
   ("synth", _synth E prj_action (project a) (target a));
   ("make_simu", _make_simu E prj_action (project a) (target a))].

Definition app_start (E : env) (a : args) : Act unit :=
  res <~ match Dict.get (active a) (actions E a) with
         | Some act => act
         | None => aprint (msg_invalid_action a) ;;~ areturn false
         end ;;
  if (res : bool) then aprint (msg_outcome cyan a "successed.")
  else aprint (msg_outcome Project.red a "failed.") ;;~ araise (SystemExit (-1)).

End App.

(* ================================================================= *)
(** ** Notions used in the statements about action.py and app.py *)

(** What [_iverilog_invoke] and [_yosys_invoke] make of a run of their
    tool: [True] for the exit code 0, [False] and two lines for another
    one, and the exception of a launch that fails. *)
Definition invoked (E : env) (tool : string) (command : list string) (w : world)
  : result bool * world :=
  let w1 := with_line w (">" +++ cyan +++ " Running " +++ tool +++ "...") in
  match Subprocess.run (sub E) command w1 with
  | (inl e, w') => (Raised (Py e), w')
  | (inr code, w') =>
      if (code =? 0)%Z then (Return true, w')
      else (Return false,
            with_line
              (with_line w' ("> " +++ Project.red +++ tool +++ " exitcode is not 0."))
              ("  " +++ Project.red +++ "Command: "
               +++ repr E (PyStr.join " " command)))
  end.

(** The world after several lines have been printed. *)
Definition with_lines (w : world) (lines : list string) : world :=
  mkWorld (root w) (cwd w) (stdout w ++ lines).

(** The five lines [_load_project] prints about a project it has loaded. *)
Definition summary (p : Project.t) : list string :=
  ["  language: " +++ yellow +++ Project.language p;
   "  top module: " +++ yellow +++ Project.top_module p;
   App.found (App.str_of_len (Project.files p)) "RTL file(s)";
   App.found (App.str_of_len (Project.test_bench p)) "RTL TestBench file(s)";
   App.found (App.str_of_len (Project.ip_cores p)) "IP core(s)"].

(** A computation that never ends in [SystemExit]. *)
Definition no_exit {A : Type} (m : Act A) : Prop :=
  forall w c w', m w <> (Raised (SystemExit c), w').

(** The last line printed. *)
Definition last_line (w : world) (line : string) : Prop :=
  exists before, stdout w = before ++ [line].

(** A machine on which every tool starts and exits with the code 0, except
    [vvp], which exits with 1; the version texts are not recognised. *)
Definition tools_vvp_fails : Subprocess.t :=
  Subprocess.mk
    (fun command w =>
       match command with
       | tool :: _ => if String.eqb tool "vvp" then (inr 1%Z, w) else (inr 0%Z, w)
       | [] => (inl (Unmodelled "empty command"), w)
       end)
    (fun _ w => (inr (0%Z, "unknown"), w)).

Definition env_vvp_fails : env :=
  mkEnv tools_vvp_fails (fun s => "'" +++ s +++ "'") (fun _ _ => None) (fun _ => "").

(** A machine without the tools. *)
Definition tools_missing : Subprocess.t :=
  Subprocess.mk
    (fun command w => (inl (FileNotFoundError (hd "" command)), w))
    (fun command w => (inl (FileNotFoundError (hd "" command)), w)).

Definition env_tools_missing : env :=
  mkEnv tools_missing (fun s => "'" +++ s +++ "'") (fun _ _ => None) (fun _ => "").

(* ================================================================= *)
(** * Properties *)

Example splitext_v : PosixPath.splitext "./rtl/adder.v" = ("./rtl/adder", ".v").
Proof. reflexivity. Qed.

Example splitext_none : PosixPath.splitext "./rtl.d/Makefile" = ("./rtl.d/Makefile", "").
Proof. reflexivity. Qed.

Example splitext_dotfile : PosixPath.splitext "./rtl/.hidden" = ("./rtl/.hidden", "").
Proof. reflexivity. Qed.

Example normpath_ex : PosixPath.normpath "/home/u/prj/./rtl/../build//" = "/home/u/prj/build".
Proof. reflexivity. Qed.

Example abspath_ex : PosixPath.abspath "/home/u" "../x/rtl" = "/home/x/rtl".
Proof. reflexivity. Qed.

Example pathlib_ex : PosixPath.pathlib_str "./a//b/./c/" = "a/b/c".
Proof. reflexivity. Qed.

(* ================================================================= *)
(** ** Strings *)

Lemma append_nil_r s : s +++ "" = s.
Proof. induction s as [|c s IH]; simpl; [reflexivity | rewrite IH; reflexivity]. Qed.

Lemma append_assoc s1 s2 s3 : (s1 +++ s2) +++ s3 = s1 +++ s2 +++ s3.
Proof. induction s1 as [|c s1 IH]; simpl; [reflexivity | rewrite IH; reflexivity]. Qed.

Lemma append_eq_nil s1 s2 : s1 +++ s2 = "" -> s1 = "" /\ s2 = "".
Proof. destruct s1; simpl; [auto | discriminate]. Qed.

(* ================================================================= *)
(** ** The monad *)

Lemma bind_ok {A B : Type} (m : M A) (k : A -> M B) w a w1 :
  m w = (Ok a, w1) -> bind m k w = k a w1.
Proof. unfold bind; intros ->; reflexivity. Qed.

Lemma bind_raise {A B : Type} (m : M A) (k : A -> M B) w e w1 :
  m w = (Raise e, w1) -> bind m k w = (Raise e, w1).
Proof. unfold bind; intros ->; reflexivity. Qed.

Lemma bind_ok_inv {A B : Type} (m : M A) (k : A -> M B) w b w' :
  bind m k w = (Ok b, w') ->
  exists a w1, m w = (Ok a, w1) /\ k a w1 = (Ok b, w').
Proof.
  unfold bind; destruct (m w) as [[a|e] w1]; intros H.
  - exists a, w1; split; [reflexivity | exact H].
  - discriminate H.
Qed.

Lemma foldM_app {A S : Type} (f : A -> S -> M S) l1 l2 s w :
  foldM f (l1 ++ l2) s w = bind (foldM f l1 s) (foldM f l2) w.
Proof.
  revert s w; induction l1 as [|a l1 IH]; intros s w; simpl.
  - reflexivity.
  - change (bind (f a s) (fun s' => foldM f (l1 ++ l2) s') w
            = bind (bind (f a s) (fun s' => foldM f l1 s')) (foldM f l2) w).
    unfold bind.
    destruct (f a s w) as [[s1|e] w1].
    + rewrite IH. reflexivity.
    + reflexivity.
Qed.

Lemma quiet_ret {A : Type} (a : A) : quiet (ret a).
Proof. intros w b w' H; inversion H; reflexivity. Qed.

Lemma quiet_raise {A : Type} e : quiet (@raise A e).
Proof. intros w b w' H; inversion H. Qed.

Lemma quiet_lift {A : Type} (o : outcome A) : quiet (lift o).
Proof. intros w b w' H; inversion H; reflexivity. Qed.

Lemma quiet_getitem {A : Type} key (o : option A) : quiet (getitem key o).
Proof. destruct o; [apply quiet_ret | apply quiet_raise]. Qed.

Lemma quiet_bind {A B : Type} (m : M A) (k : A -> M B) :
  quiet m -> (forall a, quiet (k a)) -> quiet (bind m k).
Proof.
  intros Hm Hk w b w' H.
  apply bind_ok_inv in H as (a & w1 & H1 & H2).
  apply Hm in H1; subst w1. exact (Hk a _ _ _ H2).
Qed.

Lemma quiet_foldM {A S : Type} (f : A -> S -> M S) l :
  (forall a s, quiet (f a s)) -> forall s, quiet (foldM f l s).
Proof.
  intros Hf; induction l as [|a l IH]; intros s; simpl.
  - apply quiet_ret.
  - apply quiet_bind; [apply Hf | exact IH].
Qed.

Lemma quiet_abspath p : quiet (Os.abspath p).
Proof. intros w a w' H; inversion H; reflexivity. Qed.

Lemma quiet_walk p : quiet (Os.walk p).
Proof. intros w a w' H; inversion H; reflexivity. Qed.

Lemma quiet_path_exists p : quiet (Os.path_exists p).
Proof. intros w a w' H; inversion H; reflexivity. Qed.

Lemma quiet_load f : quiet (Rtoml.load f).
Proof.
  intros w a w' H; unfold Rtoml.load in H.
  destruct (Os.stat w (PosixPath.pathlib_str f)) as [[|]|[[d|]|es]];
    inversion H; reflexivity.
Qed.

Lemma quiet_append n p e acc :
  quiet (Project._append_file_to_map_parteval n p e acc).
Proof.
  unfold Project._append_file_to_map_parteval; simpl.
  destruct (Dict.contains n acc).
  - intros w a w' H. unfold bind, print, raise in H. discriminate H.
  - apply quiet_ret.
Qed.

(* ================================================================= *)
(** ** dict *)

Lemma get_update_same {V : Type} k (v : V) d :
  Dict.get k (Dict.update k v d) = Some v.
Proof.
  unfold Dict.get; induction d as [|[k' v'] d IH]; simpl.
  - rewrite String.eqb_refl; reflexivity.
  - destruct (String.eqb k' k) eqn:E; simpl; rewrite E; [reflexivity | exact IH].
Qed.

Lemma get_update_other {V : Type} k k' (v : V) d :
  k <> k' -> Dict.get k' (Dict.update k v d) = Dict.get k' d.
Proof.
  intros Hne; unfold Dict.get; induction d as [|[k0 v0] d IH]; simpl.
  - destruct (String.eqb_spec k k'); [contradiction | reflexivity].
  - destruct (String.eqb_spec k0 k) as [->|Hk]; simpl.
    + destruct (String.eqb_spec k k'); [contradiction | reflexivity].
    + rewrite IH; reflexivity.
Qed.

Lemma contains_in_keys {V : Type} k (d : Dict.t V) :
  Dict.contains k d = true <-> In k (Dict.keys d).
Proof.
  unfold Dict.contains, Dict.get, Dict.keys.
  induction d as [|[k' v'] d IH]; simpl.
  - split; [discriminate | contradiction].
  - destruct (String.eqb_spec k' k) as [->|Hk].
    + split; auto.
    + rewrite IH; split; [auto | intros [H|H]; [contradiction | exact H]].
Qed.

Lemma contains_false_keys {V : Type} k (d : Dict.t V) :
  Dict.contains k d = false <-> ~ In k (Dict.keys d).
Proof.
  rewrite <- contains_in_keys. destruct (Dict.contains k d); split; intros H.
  - discriminate.
  - exfalso; apply H; reflexivity.
  - intros H'; discriminate.
  - reflexivity.
Qed.

Lemma get_in {V : Type} k (v : V) d : Dict.get k d = Some v -> In (k, v) d.
Proof.
  unfold Dict.get; induction d as [|[k' v'] d IH]; simpl; [discriminate|].
  destruct (String.eqb_spec k' k) as [->|Hk]; intros H.
  - inversion H; left; reflexivity.
  - right; exact (IH H).
Qed.

Lemma update_fresh {V : Type} k (v : V) d :
  Dict.contains k d = false -> Dict.update k v d = d ++ [(k, v)].
Proof.
  unfold Dict.contains, Dict.get; induction d as [|[k' v'] d IH]; simpl.
  - reflexivity.
  - destruct (String.eqb k' k); [discriminate|].
    intros H; rewrite (IH H); reflexivity.
Qed.

Lemma keys_update_present {V : Type} k (v : V) d :
  Dict.contains k d = true -> Dict.keys (Dict.update k v d) = Dict.keys d.
Proof.
  unfold Dict.contains, Dict.get, Dict.keys; induction d as [|[k' v'] d IH]; simpl.
  - discriminate.
  - destruct (String.eqb k' k); simpl; [reflexivity|].
    intros H; rewrite (IH H); reflexivity.
Qed.

Lemma in_keys_update {V : Type} k k' (v : V) d :
  In k' (Dict.keys (Dict.update k v d)) <-> k' = k \/ In k' (Dict.keys d).
Proof.
  destruct (Dict.contains k d) eqn:E.
  - rewrite keys_update_present by exact E.
    apply contains_in_keys in E. split; [auto | intros [->|H]; assumption].
  - rewrite update_fresh by exact E. unfold Dict.keys.
    rewrite map_app, in_app_iff; simpl. split.
    + intros [H|[H|[]]]; auto.
    + intros [H|H]; auto.
Qed.

(* ================================================================= *)
(** ** The file discoverer and the registries *)

Section FileLists.

Context {S : Type}.
Variable cont : string -> string -> string -> S -> M S.
Hypothesis cont_quiet : forall n p e acc, quiet (cont n p e acc).

Lemma quiet_call_fold l acc : quiet (foldM (call cont) l acc).
Proof. apply quiet_foldM; intros a s; apply cont_quiet. Qed.

Lemma file_lists_inner regexp path files acc w :
  foldM (fun file acc2 =>
           fun w =>
             match Project.candidate (Os.getcwd w) regexp path file with
             | Some (file_name, abs, ext_name) => cont file_name abs ext_name acc2 w
             | None => (Ok acc2, w)
             end) files acc w
  = foldM (call cont)
      (flat_map (fun file =>
                   match Project.candidate (Os.getcwd w) regexp path file with
                   | Some e => [e]
                   | None => []
                   end) files) acc w.
Proof.
  revert acc; induction files as [|file files IH]; intros acc; simpl.
  - reflexivity.
  - unfold bind at 1.
    destruct (Project.candidate (Os.getcwd w) regexp path file)
      as [[[n a] e]|] eqn:Ec; simpl.
    + unfold bind, call; simpl.
      destruct (cont n a e acc w) as [[acc'|ex] w1] eqn:Ek.
      * apply cont_quiet in Ek; subst w1. apply IH.
      * reflexivity.
    + apply IH.
Qed.

Lemma file_lists_outer regexp
  (triples : list (string * list string * list string)) acc w :
  foldM (fun '(path, _dir, files) acc1 =>
           foldM (fun file acc2 =>
                    fun w =>
                      match Project.candidate (Os.getcwd w) regexp path file with
                      | Some (file_name, abs, ext_name) =>
                          cont file_name abs ext_name acc2 w
                      | None => (Ok acc2, w)
                      end)
             files acc1) triples acc w
  = foldM (call cont)
      (flat_map (fun '(path, _dir, files) =>
                   flat_map (fun file =>
                               match Project.candidate (Os.getcwd w) regexp path file with
                               | Some e => [e]
                               | None => []
                               end) files) triples) acc w.
Proof.
  revert acc; induction triples as [|[[path dirs] files] triples IH];
    intros acc; simpl.
  - reflexivity.
  - rewrite foldM_app. unfold bind.
    rewrite file_lists_inner.
    match goal with
    | |- context [foldM (call cont) ?l acc w] =>
        destruct (foldM (call cont) l acc w) as [[acc'|ex] w1] eqn:Ef
    end.
    + apply quiet_call_fold in Ef; subst w1. apply IH.
    + reflexivity.
Qed.

(** [_file_lists] calls [cont] on the discovered triples, in order. *)
Lemma file_lists_spec dir pattern acc w :
  Project._file_lists dir pattern cont acc w
  = match Re.compile ("\./" +++ pattern) with
    | Some r => foldM (call cont) (Project.discovered w r dir) acc w
    | None => (Raise (Unmodelled "re.compile"), w)
    end.
Proof.
  unfold Project._file_lists.
  destruct (Re.compile ("\./" +++ pattern)) as [r|]; [|reflexivity].
  unfold bind at 1; simpl. unfold bind at 1; simpl.
  apply file_lists_outer.
Qed.

End FileLists.

Lemma register_spec l acc w :
  foldM (call Project._append_file_to_map_parteval) l acc w
  = match Project.registered l acc with
    | inl d => (Ok d, w)
    | inr n => (Raise Exception, with_line w (Project.msg_duplicate n))
    end.
Proof.
  revert acc; induction l as [|[[n p] e] l IH]; intros acc; simpl.
  - reflexivity.
  - unfold bind, call, Project._append_file_to_map_parteval; simpl.
    destruct (Dict.contains n acc); simpl.
    + reflexivity.
    + apply IH.
Qed.

(** The one expression the code uses for the primary registry, the raw
    testbench map and the registry of each IP core. *)
Lemma registry_spec dir pattern w :
  Project._file_lists dir pattern Project._append_file_to_map_parteval Dict.empty w
  = match Project.discover w dir pattern with
    | Some l =>
        match Project.registered l Dict.empty with
        | inl d => (Ok d, w)
        | inr n => (Raise Exception, with_line w (Project.msg_duplicate n))
        end
    | None => (Raise (Unmodelled "re.compile"), w)
    end.
Proof.
  rewrite file_lists_spec by (intros; apply quiet_append).
  unfold Project.discover.
  destruct (Re.compile ("\./" +++ pattern)); simpl; [apply register_spec | reflexivity].
Qed.


Lemma registered_ok_iff l acc :
  (exists d, Project.registered l acc = inl d)
  <-> (NoDup (map Project.entry_name l)
       /\ forall n, In n (map Project.entry_name l) -> ~ In n (Dict.keys acc)).
Proof.
  revert acc; induction l as [|[[n p] e] l IH]; intros acc; simpl.
  - split; [intros _; split; [constructor | contradiction] | intros _; eauto].
  - destruct (Dict.contains n acc) eqn:E.
    + split.
      * intros [d H]; discriminate.
      * intros [_ H]. exfalso. apply (H n); [left; reflexivity|].
        apply contains_in_keys; exact E.
    + rewrite IH. apply contains_false_keys in E. split.
      * intros [Hnd Hfr]. split.
        -- constructor; [|exact Hnd].
           intros Hin. apply (Hfr _ Hin). apply in_keys_update; left; reflexivity.
        -- intros m [<-|Hm]; [exact E|].
           intros Hk. apply (Hfr _ Hm). apply in_keys_update; right; exact Hk.
      * intros [Hnd Hfr]. inversion Hnd as [|? ? Hn Hnd']; subst. split; [exact Hnd'|].
        intros m Hm Hk. apply in_keys_update in Hk as [->|Hk].
        -- unfold Project.entry_name in Hn; simpl in Hn. contradiction.
        -- exact (Hfr m (or_intror Hm) Hk).
Qed.


Lemma quiet_file_lists {S : Type} (cont : string -> string -> string -> S -> M S)
  dir pattern acc :
  (forall n p e a, quiet (cont n p e a)) ->
  quiet (Project._file_lists dir pattern cont acc).
Proof.
  intros Hc w a w' H. rewrite file_lists_spec in H by exact Hc.
  destruct (Re.compile ("\./" +++ pattern)); [|discriminate].
  exact (quiet_call_fold cont Hc _ _ _ H).
Qed.

Lemma registry_ok_inv dir pattern w d w' :
  Project._file_lists dir pattern Project._append_file_to_map_parteval Dict.empty w
  = (Ok d, w') ->
  w' = w /\ exists l, Project.discover w dir pattern = Some l
                      /\ Project.registered l Dict.empty = inl d.
Proof.
  rewrite registry_spec. destruct (Project.discover w dir pattern) as [l|]; [|discriminate].
  destruct (Project.registered l Dict.empty) as [d'|n] eqn:E; [|discriminate].
  intros H; inversion H; subst. split; [reflexivity|]. exists l; auto.
Qed.

(* ================================================================= *)
(** ** The steps of the resolution *)

Lemma check_top_module_spec top files w :
  Project._check_top_module top files w
  = if Dict.contains top files then (Ok tt, w)
    else (Raise Exception, with_line w (Project.msg_no_top top)).
Proof.
  unfold Project._check_top_module. destruct (Dict.contains top files); reflexivity.
Qed.

(** [_load_project_properties] on a table that has the four keys it reads. *)
Lemma load_project_properties_spec prj lang top dir pat w :
  Toml.Project.language prj = Some lang ->
  Toml.Project.top_module prj = Some top ->
  Toml.Project.rtl_dir prj = Some dir ->
  Toml.Project.rtl_dir_pattern prj = Some pat ->
  Project._load_project_properties prj w
  = match Project.discover w dir pat with
    | None => (Raise (Unmodelled "re.compile"), w)
    | Some l =>
        match Project.registered l Dict.empty with
        | inr n => (Raise Exception, with_line w (Project.msg_duplicate n))
        | inl files =>
            if Dict.contains top files
            then (Ok (lang, top, PosixPath.abspath (Os.getcwd w) dir, files), w)
            else (Raise Exception, with_line w (Project.msg_no_top top))
        end
    end.
Proof.
  intros Hl Ht Hd Hp. unfold Project._load_project_properties.
  rewrite Hl, Ht, Hd, Hp.
  unfold getitem, bind, ret, Os.abspath; cbv beta iota.
  rewrite registry_spec.
  destruct (Project.discover w dir pat) as [l|]; [|reflexivity].
  destruct (Project.registered l Dict.empty) as [files|n]; [|reflexivity].
  rewrite check_top_module_spec.
  destruct (Dict.contains top files); reflexivity.
Qed.

Lemma load_project_properties_inv prj w lang top rd files w' :
  Project._load_project_properties prj w = (Ok (lang, top, rd, files), w') ->
  w' = w
  /\ Toml.Project.language prj = Some lang
  /\ Toml.Project.top_module prj = Some top
  /\ exists dir pat l,
      Toml.Project.rtl_dir prj = Some dir
      /\ Toml.Project.rtl_dir_pattern prj = Some pat
      /\ rd = PosixPath.abspath (Os.getcwd w) dir
      /\ Project.discover w dir pat = Some l
      /\ Project.registered l Dict.empty = inl files
      /\ Dict.contains top files = true.
Proof.
  destruct (Toml.Project.language prj) as [lang0|] eqn:Hl;
    [|unfold Project._load_project_properties; rewrite Hl; discriminate].
  destruct (Toml.Project.top_module prj) as [top0|] eqn:Ht;
    [|unfold Project._load_project_properties; rewrite Hl, Ht; discriminate].
  destruct (Toml.Project.rtl_dir prj) as [dir|] eqn:Hd;
    [|unfold Project._load_project_properties; rewrite Hl, Ht, Hd; discriminate].
  destruct (Toml.Project.rtl_dir_pattern prj) as [pat|] eqn:Hp;
    [|unfold Project._load_project_properties; rewrite Hl, Ht, Hd, Hp; discriminate].
  rewrite (load_project_properties_spec prj w Hl Ht Hd Hp).
  destruct (Project.discover w dir pat) as [l|] eqn:Hdisc; [|discriminate].
  destruct (Project.registered l Dict.empty) as [fs|n] eqn:Hreg; [|discriminate].
  destruct (Dict.contains top0 fs) eqn:Hc; [|discriminate].
  intros H; inversion H; subst.
  repeat split; try reflexivity.
  exists dir, pat, l. repeat split; assumption.
Qed.

Lemma quiet_load_project_properties prj : quiet (Project._load_project_properties prj).
Proof.
  intros w [[[lang top] rd] files] w' H.
  apply load_project_properties_inv in H. tauto.
Qed.

(** One iteration of [_load_ip_cores] on a declaration with its three keys. *)
Lemma load_ip_core_spec ip n dir pat cores w :
  Toml.Ip.name ip = Some n ->
  Toml.Ip.rtl_dir ip = Some dir ->
  Toml.Ip.rtl_dir_pattern ip = Some pat ->
  Project.load_ip_core ip cores w
  = match Project.discover w dir pat with
    | None => (Raise (Unmodelled "re.compile"), w)
    | Some l =>
        match Project.registered l Dict.empty with
        | inr m => (Raise Exception, with_line w (Project.msg_duplicate m))
        | inl ip_files =>
            if Dict.contains n ip_files
            then (Ok (Dict.update n
                        (IpCoreInfo.mk n (PosixPath.abspath (Os.getcwd w) dir) ip_files)
                        cores), w)
            else (Raise Exception, with_line w (Project.msg_no_ip_top n))
        end
    end.
Proof.
  intros Hn Hd Hp. unfold Project.load_ip_core. rewrite Hn, Hd, Hp.
  unfold getitem, bind at 1 2 3, ret; cbv beta iota.
  unfold bind at 1. rewrite registry_spec.
  destruct (Project.discover w dir pat) as [l|]; [|reflexivity].
  destruct (Project.registered l Dict.empty) as [files|m]; [|reflexivity].
  destruct (Dict.contains n files); reflexivity.
Qed.

Lemma load_ip_core_ok ip cores w info :
  Project.core_info w ip = Some info ->
  Project.load_ip_core ip cores w
  = (Ok (Dict.update (IpCoreInfo.name info) info cores), w).
Proof.
  unfold Project.core_info.
  destruct (Toml.Ip.name ip) as [n|] eqn:Hn; [|discriminate].
  destruct (Toml.Ip.rtl_dir ip) as [d|] eqn:Hd; [|discriminate].
  destruct (Toml.Ip.rtl_dir_pattern ip) as [pat|] eqn:Hp; [|discriminate].
  rewrite (load_ip_core_spec ip cores w Hn Hd Hp).
  destruct (Project.discover w d pat) as [l|]; [|discriminate].
  destruct (Project.registered l Dict.empty) as [files|m]; [|discriminate].
  destruct (Dict.contains n files); [|discriminate].
  intros H; inversion H; reflexivity.
Qed.

Lemma load_ip_core_inv ip cores w c w' :
  Project.load_ip_core ip cores w = (Ok c, w') ->
  w' = w /\ exists info, Project.core_info w ip = Some info
                         /\ c = Dict.update (IpCoreInfo.name info) info cores.
Proof.
  unfold Project.core_info.
  destruct (Toml.Ip.name ip) as [n|] eqn:Hn;
    [|unfold Project.load_ip_core; rewrite Hn; discriminate].
  destruct (Toml.Ip.rtl_dir ip) as [d|] eqn:Hd;
    [|unfold Project.load_ip_core; rewrite Hn, Hd; discriminate].
  destruct (Toml.Ip.rtl_dir_pattern ip) as [pat|] eqn:Hp;
    [|unfold Project.load_ip_core; rewrite Hn, Hd, Hp; discriminate].
  rewrite (load_ip_core_spec ip cores w Hn Hd Hp).
  destruct (Project.discover w d pat) as [l|]; [|discriminate].
  destruct (Project.registered l Dict.empty) as [files|m]; [|discriminate].
  destruct (Dict.contains n files); [|discriminate].
  intros H; inversion H; subst. split; [reflexivity|].
  eexists; split; reflexivity.
Qed.

Lemma load_ip_cores_ok decls : forall infos acc w,
  map (Project.core_info w) decls = map Some infos ->
  foldM Project.load_ip_core decls acc w
  = (Ok (Project.collect_cores infos acc), w).
Proof.
  induction decls as [|ip decls IH]; intros [|i infos] acc w H;
    try discriminate H; simpl in *.
  - reflexivity.
  - inversion H as [[Hi Hrest]].
    unfold bind. rewrite (load_ip_core_ok ip acc w Hi). apply IH; exact Hrest.
Qed.

Lemma load_ip_cores_inv decls : forall acc w c w',
  foldM Project.load_ip_core decls acc w = (Ok c, w') ->
  w' = w /\ exists infos, map (Project.core_info w) decls = map Some infos
                          /\ c = Project.collect_cores infos acc.
Proof.
  induction decls as [|ip decls IH]; intros acc w c w' H; simpl in H.
  - inversion H; subst. split; [reflexivity|]. exists []; auto.
  - apply bind_ok_inv in H as (c1 & w1 & H1 & H2).
    apply load_ip_core_inv in H1 as (-> & info & Hi & ->).
    apply IH in H2 as (-> & infos & Hm & ->).
    split; [reflexivity|]. exists (info :: infos); simpl.
    rewrite Hi, Hm; auto.
Qed.

Lemma including_loop dirs : forall acc w,
  foldM (fun inc_dir including_dir =>
           full <- Os.abspath inc_dir ;; ret (including_dir ++ [full]))
    dirs acc w
  = (Ok (acc ++ map (PosixPath.abspath (Os.getcwd w)) dirs), w).
Proof.
  induction dirs as [|d dirs IH]; intros acc w; simpl.
  - rewrite app_nil_r; reflexivity.
  - unfold bind at 1. unfold bind at 1. unfold Os.abspath, ret; cbv beta iota.
    rewrite IH, <- app_assoc; reflexivity.
Qed.

Lemma quiet_lib_loop libs acc :
  quiet (foldM (fun lib libs0 =>
                  name <- getitem "name" (Toml.Lib.name lib) ;;
                  path <- getitem "path" (Toml.Lib.path lib) ;;
                  full <- Os.abspath path ;;
                  ret (libs0 ++ [LibInfo.mk name full])) libs acc).
Proof.
  apply quiet_foldM; intros lib l0.
  apply quiet_bind; [apply quiet_getitem | intros name].
  apply quiet_bind; [apply quiet_getitem | intros path].
  apply quiet_bind; [apply quiet_abspath | intros full]. apply quiet_ret.
Qed.

Lemma load_spec_file_inv file w libs ext w' :
  Project._load_spec_file file w = (Ok (libs, ext), w') ->
  w' = w
  /\ exists doc, Rtoml.load (PosixPath.abspath (Os.getcwd w) file) w = (Ok doc, w)
                 /\ ext = spec_dirs w doc.
Proof.
  unfold Project._load_spec_file. intros H.
  apply bind_ok_inv in H as (full & w1 & H1 & H).
  inversion H1; subst full w1; clear H1.
  apply bind_ok_inv in H as (doc & w1 & H1 & H).
  pose proof (quiet_load _ _ H1); subst w1.
  apply bind_ok_inv in H as (libs0 & w1 & H2 & H).
  assert (w1 = w); [|subst w1].
  { destruct (Toml.lib doc); [exact (quiet_lib_loop _ _ _ H2) | inversion H2; reflexivity]. }
  apply bind_ok_inv in H as (inc & w1 & H3 & H).
  assert (Hfin : inc = ext /\ w1 = w') by (inversion H; auto).
  destruct Hfin as [-> ->]; clear H.
  assert (Hext : w' = w /\ ext = spec_dirs w doc).
  { unfold spec_dirs. destruct (Toml.ext_including_dir doc) as [dirs|].
    - rewrite including_loop in H3. inversion H3; auto.
    - inversion H3; auto. }
  destruct Hext as [-> ->].
  split; [reflexivity|]. exists doc; auto.
Qed.

Lemma quiet_load_ip_cores decls : quiet (Project._load_ip_cores decls).
Proof.
  intros w c w' H. apply load_ip_cores_inv in H. tauto.
Qed.

Lemma quiet_load_spec_file file : quiet (Project._load_spec_file file).
Proof.
  intros w [libs ext] w' H. apply load_spec_file_inv in H. tauto.
Qed.

Lemma init_ok_body file w p w' :
  Project.__init__ file w = (Ok p, w') -> Project.init_body file w = (Ok p, w').
Proof.
  unfold Project.__init__.
  destruct (Project.init_body file w) as [[p0|e] w1]; [auto|].
  destruct e; discriminate.
Qed.

(** Everything a successful construction went through. *)
Lemma init_ok_inv file w p w' :
  Project.__init__ file w = (Ok p, w') ->
  exists doc prj tbd tbp tbf ext bd,
    Rtoml.load file w = (Ok doc, w)
    /\ Toml.project doc = Some prj
    /\ Project._load_project_properties prj w
       = (Ok (Project.language p, Project.top_module p, Project.root_dir p,
              Project.files p), w)
    /\ Toml.Project.tb_dir prj = Some tbd
    /\ Toml.Project.tb_dir_pattern prj = Some tbp
    /\ Project._file_lists tbd tbp Project._append_file_to_map_parteval Dict.empty w
       = (Ok tbf, w)
    /\ Project._load_testbench_files (Project.files p) prj tbf
       = Ok (Project.test_bench p)
    /\ match Toml.ip doc with
       | Some decls => Project._load_ip_cores decls w = (Ok (Project.ip_cores p), w)
       | None => Project.ip_cores p = Dict.empty
       end
    /\ match Toml.Project.spec prj with
       | Some spec_file =>
           Project._load_spec_file spec_file w = (Ok (Project.libs p, ext), w)
       | None => Project.libs p = [] /\ ext = []
       end
    /\ Project.including_dir p
       = ([Project.root_dir p]
            ++ map IpCoreInfo.root_dir (Dict.values (Project.ip_cores p))) ++ ext
    /\ Toml.Project.build_dir prj = Some bd
    /\ Project.build_out_dir p = PosixPath.abspath (Os.getcwd w) bd +++ "/"
    /\ ensure_dir (Project.build_out_dir p) w w'.
Proof.
  intros H. apply init_ok_body in H. unfold Project.init_body in H.
  apply bind_ok_inv in H as (doc & w1 & Hload & H).
  pose proof (quiet_load _ _ Hload); subst w1.
  apply bind_ok_inv in H as (prj & w1 & Hprj & H).
  destruct (Toml.project doc) as [prj0|] eqn:Eprj; [|discriminate Hprj].
  inversion Hprj; subst prj0 w1; clear Hprj.
  apply bind_ok_inv in H as ([[[lang top] rd] files] & w1 & Hprops & H).
  pose proof (quiet_load_project_properties _ _ Hprops); subst w1.
  apply bind_ok_inv in H as (tbd & w1 & Htbd & H).
  destruct (Toml.Project.tb_dir prj) as [tbd0|] eqn:Etbd; [|discriminate Htbd].
  inversion Htbd; subst tbd0 w1; clear Htbd.
  apply bind_ok_inv in H as (tbp & w1 & Htbp & H).
  destruct (Toml.Project.tb_dir_pattern prj) as [tbp0|] eqn:Etbp; [|discriminate Htbp].
  inversion Htbp; subst tbp0 w1; clear Htbp.
  apply bind_ok_inv in H as (tbf & w1 & Htbf & H).
  pose proof (quiet_file_lists _ _ _ _ quiet_append _ Htbf); subst w1.
  apply bind_ok_inv in H as (tb & w1 & Htb & H).
  assert (Htb' : Project._load_testbench_files files prj tbf = Ok tb /\ w1 = w)
    by (unfold lift in Htb; inversion Htb; auto).
  destruct Htb' as [Htb' ->]; clear Htb.
  apply bind_ok_inv in H as (cores & w1 & Hip & H).
  assert (w1 = w); [|subst w1].
  { destruct (Toml.ip doc);
      [exact (quiet_load_ip_cores _ _ Hip) | inversion Hip; reflexivity]. }
  apply bind_ok_inv in H as ([libs ext] & w1 & Hspec & H).
  assert (w1 = w); [|subst w1].
  { destruct (Toml.Project.spec prj);
      [exact (quiet_load_spec_file _ _ Hspec) | inversion Hspec; reflexivity]. }
  apply bind_ok_inv in H as (bd & w1 & Hbd & H).
  destruct (Toml.Project.build_dir prj) as [bd0|] eqn:Ebd; [|discriminate Hbd].
  inversion Hbd; subst bd0 w1; clear Hbd.
  apply bind_ok_inv in H as (abs & w1 & Habs & H).
  inversion Habs; subst abs w1; clear Habs.
  apply bind_ok_inv in H as (present & w1 & Hex & H).
  inversion Hex; subst w1; clear Hex.
  apply bind_ok_inv in H as ([] & w1 & Hmk & H).
  inversion H; subst p w'; clear H. simpl.
  exists doc, prj, tbd, tbp, tbf, ext, bd.
  repeat (split; [first [reflexivity | assumption]|]).
  split.
  { destruct (Toml.ip doc); [exact Hip | inversion Hip; reflexivity]. }
  split.
  { destruct (Toml.Project.spec prj); [exact Hspec | inversion Hspec; auto]. }
  repeat (split; [first [reflexivity | assumption]|]).
  unfold ensure_dir.
  destruct (Os.stat w (PosixPath.abspath (Os.getcwd w) bd +++ PosixPath.sep))
    as [e|n] eqn:Est; subst present; simpl in Hmk.
  - right. split; [exists e; reflexivity | exact Hmk].
  - left. inversion Hmk; subst. split; [exists n; reflexivity | reflexivity].
Qed.

Lemma getitem_some {A : Type} key (a : A) : getitem key (Some a) = ret a.
Proof. reflexivity. Qed.

Lemma bind_ret {A B : Type} (a : A) (k : A -> M B) w : bind (ret a) k w = k a w.
Proof. reflexivity. Qed.



(* ================================================================= *)
(** ** The top module *)



(* ================================================================= *)
(** ** Duplicate names *)





(* ================================================================= *)
(** ** The testbench resolver *)

Lemma contains_cons {V : Type} k (v : V) d m :
  Dict.contains m ((k, v) :: d) = (String.eqb k m || Dict.contains m d)%bool.
Proof.
  unfold Dict.contains, Dict.get; simpl. destruct (String.eqb k m); reflexivity.
Qed.

Section TestbenchLoop.

Variable tmpl : string.
Variable T : string -> string.
Variable F : Dict.t FileInfo.t.

Lemma testbench_loop_spec : forall items acc,
  (forall m, In m (Dict.keys items) -> Format.format tmpl m = Ok (T m)) ->
  exists R,
    Project.testbench_loop items (Some tmpl) F acc = Ok R
    /\ forall m, Dict.get m R = resolved T F items acc m.
Proof.
  induction items as [|[k f] items IH]; intros acc Hfmt; simpl.
  - exists acc. split; [reflexivity | intros m; reflexivity].
  - rewrite (Hfmt k (or_introl eq_refl)).
    assert (Hfmt' : forall m, In m (Dict.keys items) -> Format.format tmpl m = Ok (T m))
      by (intros m Hm; apply Hfmt; right; exact Hm).
    destruct (Dict.get (T k) F) as [info|] eqn:Eg.
    + destruct (IH (Dict.update k info acc) Hfmt') as (R & HR & Hget).
      exists R. split; [exact HR|]. intros m. rewrite Hget. unfold resolved.
      rewrite contains_cons. destruct (String.eqb_spec k m) as [->|Hne]; simpl.
      * rewrite Eg, get_update_same. destruct (Dict.contains m items); reflexivity.
      * rewrite (get_update_other _ _ Hne). reflexivity.
    + destruct (IH acc Hfmt') as (R & HR & Hget).
      exists R. split; [exact HR|]. intros m. rewrite Hget. unfold resolved.
      rewrite contains_cons. destruct (String.eqb_spec k m) as [->|Hne]; simpl.
      * rewrite Eg. destruct (Dict.contains m items); reflexivity.
      * reflexivity.
Qed.

End TestbenchLoop.

(** ** str.format on a template with one slot *)

Lemma scan_out_cons c s :
  Format.scan Format.Out (String c s)
  = if Ascii.eqb c "{" then Format.scan Format.AfterOpen s
    else if Ascii.eqb c "}" then Format.scan Format.AfterClose s
    else Format.Lit c :: Format.scan Format.Out s.
Proof. reflexivity. Qed.

Lemma scan_brace_free pre rest :
  brace_free pre ->
  Format.scan Format.Out (pre +++ rest) = lits pre ++ Format.scan Format.Out rest.
Proof.
  unfold brace_free. induction pre as [|c pre IH]; intros H; [reflexivity|].
  change (PyStr.all_chars (fun c => negb (Ascii.eqb c "{" || Ascii.eqb c "}"))
            (String c pre))
    with (negb (Ascii.eqb c "{" || Ascii.eqb c "}")
          && PyStr.all_chars (fun c => negb (Ascii.eqb c "{" || Ascii.eqb c "}")) pre)%bool
    in H.
  apply andb_true_iff in H as [Hc Hpre].
  apply negb_true_iff, orb_false_iff in Hc as [Ho Hcl].
  change (String c pre +++ rest) with (String c (pre +++ rest)).
  rewrite scan_out_cons, Ho, Hcl, (IH Hpre). reflexivity.
Qed.

Lemma render_lits s : forall ps numbering next arg,
  Format.render (lits s ++ ps) numbering next arg
  = match Format.render ps numbering next arg with
    | Ok t => Ok (s +++ t)
    | Raise e => Raise e
    end.
Proof.
  induction s as [|c s IH]; intros ps numbering next arg; simpl.
  - destruct (Format.render ps numbering next arg); reflexivity.
  - rewrite IH. destruct (Format.render ps numbering next arg); reflexivity.
Qed.

(** A template that is text, one pair of braces, and text formats a name
    to the first text, the name and the second text. *)
Lemma format_single_slot pre post m :
  brace_free pre -> brace_free post ->
  Format.format (pre +++ "{}" +++ post) m = Ok (pre +++ m +++ post).
Proof.
  intros Hpre Hpost. unfold Format.format.
  rewrite (scan_brace_free _ Hpre).
  change (Format.scan Format.Out ("{}" +++ post))
    with (Format.Auto :: Format.scan Format.Out post).
  rewrite <- (append_nil_r post) at 1. rewrite (scan_brace_free _ Hpost).
  rewrite render_lits.
  change (Format.render (Format.Auto :: lits post ++ Format.scan Format.Out "")
            None 0 m)
    with (match Format.render (lits post ++ []) (Some true) 1 m with
          | Ok t => Ok (m +++ t)
          | Raise e => Raise e
          end).
  rewrite render_lits. simpl. rewrite append_nil_r. reflexivity.
Qed.

(** C2. [_load_testbench_files] is a function of the primary modules, the
    template and the raw testbench map alone (it has no access to the
    world, so two runs on the same three arguments give the same map).
    With a template that formats every module name [m] of the primary map
    to [T m], it returns a map that sends [m] to [tb_files[T m]] exactly
    when [m] is a primary module and [T m] is a key of the raw testbench
    map; every key of the result is a primary module, and a module without
    testbench is left out, without error.  Every template made of text, one
    pair of braces and text is such a template. *)
Theorem testbench_resolution :
  (forall (files : Dict.t FileInfo.t) (prj : Toml.Project.t)
          (tb_files : Dict.t FileInfo.t) (tmpl : string) (T : string -> string),
      Toml.Project.tb_file_fmt prj = Some tmpl ->
      (forall m, In m (Dict.keys files) -> Format.format tmpl m = Ok (T m)) ->
      exists R,
        Project._load_testbench_files files prj tb_files = Ok R
        /\ (forall m,
               Dict.get m R
               = if Dict.contains m files then Dict.get (T m) tb_files else None)
        /\ (forall m, In m (Dict.keys R) -> In m (Dict.keys files))
        /\ (forall m, In m (Dict.keys files) ->
                      Dict.contains (T m) tb_files = false ->
                      Dict.contains m R = false))
  /\ (forall (files : Dict.t FileInfo.t) (prj : Toml.Project.t)
             (tb_files : Dict.t FileInfo.t) (pre post : string),
         Toml.Project.tb_file_fmt prj = Some (pre +++ "{}" +++ post) ->
         brace_free pre ->
         brace_free post ->
         exists R,
           Project._load_testbench_files files prj tb_files = Ok R
           /\ (forall m,
                  Dict.get m R
                  = if Dict.contains m files
                    then Dict.get (pre +++ m +++ post) tb_files
                    else None)
           /\ (forall m, In m (Dict.keys R) -> In m (Dict.keys files))).
Proof.
  assert (General : forall files prj tb_files tmpl T,
             Toml.Project.tb_file_fmt prj = Some tmpl ->
             (forall m, In m (Dict.keys files) -> Format.format tmpl m = Ok (T m)) ->
             exists R,
               Project._load_testbench_files files prj tb_files = Ok R
               /\ (forall m,
                      Dict.get m R
                      = if Dict.contains m files then Dict.get (T m) tb_files
                        else None)
               /\ (forall m, In m (Dict.keys R) -> In m (Dict.keys files))
               /\ (forall m, In m (Dict.keys files) ->
                             Dict.contains (T m) tb_files = false ->
                             Dict.contains m R = false)).
  { intros files prj tb_files tmpl T Hfmt HT.
    unfold Project._load_testbench_files. rewrite Hfmt.
    destruct (@testbench_loop_spec tmpl T tb_files files Dict.empty HT)
      as (R & HR & Hget).
    assert (Hget' : forall m,
               Dict.get m R
               = if Dict.contains m files then Dict.get (T m) tb_files else None).
    { intros m. rewrite Hget. unfold resolved.
      destruct (Dict.contains m files); [|reflexivity].
      destruct (Dict.get (T m) tb_files); reflexivity. }
    exists R. split; [exact HR|]. split; [exact Hget'|]. split.
    - intros m Hm. apply contains_in_keys in Hm. apply contains_in_keys.
      unfold Dict.contains in Hm at 1. rewrite Hget' in Hm.
      destruct (Dict.contains m files); [reflexivity | discriminate Hm].
    - intros m _ Hno. unfold Dict.contains at 1. rewrite Hget'.
      unfold Dict.contains in Hno.
      destruct (Dict.contains m files); [|reflexivity].
      destruct (Dict.get (T m) tb_files); [discriminate Hno | reflexivity]. }
  split; [exact General|].
  intros files prj tb_files pre post Hfmt Hpre Hpost.
  destruct (General files prj tb_files (pre +++ "{}" +++ post)
              (fun m => pre +++ m +++ post) Hfmt) as (R & HR & Hget & Hkeys & _).
  - intros m _. apply format_single_slot; assumption.
  - exists R. auto.
Qed.

Lemma testbench_resolution_witness :
  exists R,
    Project._load_testbench_files
      [("adder", FileInfo.mk "adder" ".v" "/home/u/prj/rtl/adder.v");
       ("mul", FileInfo.mk "mul" ".v" "/home/u/prj/rtl/sub/mul.v")]
      prj_adder
      [("adder_tb", FileInfo.mk "adder_tb" ".v" "/home/u/prj/rtl_tb/adder_tb.v")]
    = Ok R
    /\ Dict.get "adder" R
       = Some (FileInfo.mk "adder_tb" ".v" "/home/u/prj/rtl_tb/adder_tb.v")
    /\ Dict.get "mul" R = None.
Proof.
  destruct (proj2 testbench_resolution
              [("adder", FileInfo.mk "adder" ".v" "/home/u/prj/rtl/adder.v");
               ("mul", FileInfo.mk "mul" ".v" "/home/u/prj/rtl/sub/mul.v")]
              prj_adder
              [("adder_tb", FileInfo.mk "adder_tb" ".v" "/home/u/prj/rtl_tb/adder_tb.v")]
              "" "_tb")
    as (R & HR & Hget & _).
  - reflexivity.
  - reflexivity.
  - reflexivity.
  - exists R. split; [exact HR|]. split; rewrite Hget; reflexivity.
Defined.

(* ================================================================= *)
(** ** The IP core resolver *)

Lemma core_info_inv w ip info :
  Project.core_info w ip = Some info ->
  exists dir pat l,
    Toml.Ip.name ip = Some (IpCoreInfo.name info)
    /\ Toml.Ip.rtl_dir ip = Some dir
    /\ Toml.Ip.rtl_dir_pattern ip = Some pat
    /\ Project.discover w dir pat = Some l
    /\ Project.registered l Dict.empty = inl (IpCoreInfo.rtl_files info)
    /\ IpCoreInfo.root_dir info = PosixPath.abspath (Os.getcwd w) dir
    /\ Dict.contains (IpCoreInfo.name info) (IpCoreInfo.rtl_files info) = true.
Proof.
  unfold Project.core_info.
  destruct (Toml.Ip.name ip) as [n|]; [|discriminate].
  destruct (Toml.Ip.rtl_dir ip) as [d|]; [|discriminate].
  destruct (Toml.Ip.rtl_dir_pattern ip) as [pat|]; [|discriminate].
  destruct (Project.discover w d pat) as [l|] eqn:Hdisc; [|discriminate].
  destruct (Project.registered l Dict.empty) as [files|m] eqn:Hreg; [|discriminate].
  destruct (Dict.contains n files) eqn:Hc; [|discriminate].
  intros H; inversion H; subst; simpl.
  exists d, pat, l. repeat split; auto.
Qed.

Lemma in_update {V : Type} k (v : V) k0 v0 d :
  In (k, v) (Dict.update k0 v0 d) -> (k = k0 /\ v = v0) \/ In (k, v) d.
Proof.
  induction d as [|[k1 v1] d IH]; simpl.
  - intros [H|[]]; inversion H; auto.
  - destruct (String.eqb_spec k1 k0) as [->|Hne]; simpl.
    + intros [H|H]; [inversion H; auto | auto].
    + intros [H|H]; [auto | destruct (IH H); auto].
Qed.

Lemma in_collect_cores infos : forall acc k info,
  In (k, info) (Project.collect_cores infos acc) ->
  In (k, info) acc \/ (In info infos /\ k = IpCoreInfo.name info).
Proof.
  unfold Project.collect_cores.
  induction infos as [|i infos IH]; intros acc k info H; simpl in *.
  - left; exact H.
  - destruct (IH _ _ _ H) as [Hin|[Hin Hk]].
    + apply in_update in Hin as [[-> ->]|Hin]; auto.
    + auto.
Qed.

Lemma find_app {A : Type} (f : A -> bool) l1 l2 :
  find f (l1 ++ l2)
  = match find f l1 with Some x => Some x | None => find f l2 end.
Proof.
  induction l1 as [|a l1 IH]; simpl; [reflexivity|].
  destruct (f a); [reflexivity | exact IH].
Qed.

Lemma get_collect_cores infos : forall acc n,
  Dict.get n (Project.collect_cores infos acc)
  = match last_named n infos with
    | Some i => Some i
    | None => Dict.get n acc
    end.
Proof.
  unfold Project.collect_cores, last_named.
  induction infos as [|i infos IH]; intros acc n; simpl.
  - reflexivity.
  - rewrite IH, find_app; simpl.
    destruct (find (fun i0 => String.eqb (IpCoreInfo.name i0) n) (rev infos));
      [reflexivity|].
    destruct (String.eqb_spec (IpCoreInfo.name i) n) as [<-|Hne].
    + apply get_update_same.
    + apply get_update_other; exact Hne.
Qed.






Lemma collect_cores_fresh infos : forall acc,
  NoDup (Dict.keys acc ++ map IpCoreInfo.name infos) ->
  Project.collect_cores infos acc
  = acc ++ map (fun i => (IpCoreInfo.name i, i)) infos.
Proof.
  unfold Project.collect_cores.
  induction infos as [|i infos IH]; intros acc Hnd; simpl.
  - rewrite app_nil_r; reflexivity.
  - assert (Hfresh : Dict.contains (IpCoreInfo.name i) acc = false).
    { apply contains_false_keys. intros Hin.
      apply NoDup_remove_2 in Hnd. apply Hnd. apply in_app_iff; left; exact Hin. }
    rewrite (update_fresh _ _ _ Hfresh), IH.
    + rewrite <- app_assoc; reflexivity.
    + unfold Dict.keys. rewrite map_app, <- app_assoc. exact Hnd.
Qed.

Lemma core_infos_declared w decls : forall infos,
  map (Project.core_info w) decls = map Some infos ->
  map IpCoreInfo.name infos = declared_names decls
  /\ map IpCoreInfo.root_dir infos = declared_root_dirs w decls.
Proof.
  induction decls as [|ip decls IH]; intros [|i infos] H; try discriminate H;
    simpl in *; [auto|].
  inversion H as [[Hi Hrest]]. destruct (IH _ Hrest) as [Hn Hr].
  apply core_info_inv in Hi as (dir & pat & l & En & Ed & _ & _ & _ & Er & _).
  rewrite En, Ed, Er, Hn, Hr. auto.
Qed.

(** C10. Declarations that each pass their own checks are all loaded, with
    no check across declarations: the result holds, for every name, the
    info of the last declaration of that name; in particular two
    declarations of one name leave the single entry of the later one.
    This is the [ip_cores] of the constructed project, and the construction
    does succeed on such a manifest. *)
Theorem ip_cores_later_declaration_wins :
  (forall w decls infos,
      map (Project.core_info w) decls = map Some infos ->
      Project._load_ip_cores decls w
      = (Ok (Project.collect_cores infos Dict.empty), w)
      /\ forall n,
          Dict.get n (Project.collect_cores infos Dict.empty) = last_named n infos)
  /\ (forall w ip1 ip2 i1 i2,
         Project.core_info w ip1 = Some i1 ->
         Project.core_info w ip2 = Some i2 ->
         IpCoreInfo.name i1 = IpCoreInfo.name i2 ->
         Project._load_ip_cores [ip1; ip2] w = (Ok [(IpCoreInfo.name i2, i2)], w))
  /\ (forall file w p w' doc decls,
         Project.__init__ file w = (Ok p, w') ->
         Rtoml.load file w = (Ok doc, w) ->
         Toml.ip doc = Some decls ->
         exists infos,
           map (Project.core_info w) decls = map Some infos
           /\ Project.ip_cores p = Project.collect_cores infos Dict.empty)
  /\ (exists p w',
         Project.__init__ "project.toml" w_three_cores = (Ok p, w')
         /\ Toml.ip doc_three_cores
            = Some [ip_decl "fifo" "./ip/fifo" "ip/fifo/.*\.v";
                    ip_decl "uart" "./ip/uart" "ip/uart/.*\.v";
                    ip_decl "fifo" "./ip/fifo2" "ip/fifo2/.*\.v"]
         /\ Project.ip_cores p
            = [("fifo",
                 IpCoreInfo.mk "fifo" "/home/u/prj/ip/fifo2"
                   [("fifo", FileInfo.mk "fifo" ".v" "/home/u/prj/ip/fifo2/fifo.v")]);
               ("uart",
                 IpCoreInfo.mk "uart" "/home/u/prj/ip/uart"
                   [("uart", FileInfo.mk "uart" ".v" "/home/u/prj/ip/uart/uart.v")])]).
Proof.
  split; [|split; [|split]].
  - intros w decls infos H. split.
    + exact (load_ip_cores_ok decls infos Dict.empty w H).
    + intros n. rewrite get_collect_cores.
      destruct (last_named n infos); reflexivity.
  - intros w ip1 ip2 i1 i2 H1 H2 Hn.
    assert (Hm : map (Project.core_info w) [ip1; ip2] = map Some [i1; i2])
      by (simpl; rewrite H1, H2; reflexivity).
    unfold Project._load_ip_cores.
    rewrite (load_ip_cores_ok [ip1; ip2] [i1; i2] Dict.empty w Hm).
    unfold Project.collect_cores; simpl. rewrite Hn, String.eqb_refl. reflexivity.
  - intros file w p w' doc decls Hinit Hload Hip.
    apply init_ok_inv in Hinit
      as (doc' & prj & tbd & tbp & tbf & ext & bd & Hload' & _ & _ & _ & _ & _ & _
          & Hcores & _).
    rewrite Hload in Hload'. inversion Hload'; subst doc'. rewrite Hip in Hcores.
    apply load_ip_cores_inv in Hcores as (_ & infos & Hm & Hc).
    exists infos; auto.
  - eexists; eexists. split; [vm_compute; reflexivity|].
    split; reflexivity.
Qed.

Lemma ip_cores_later_declaration_wins_witness :
  Project._load_ip_cores
    [ip_decl "fifo" "./ip/fifo" "ip/fifo/.*\.v";
     ip_decl "fifo" "./ip/fifo2" "ip/fifo2/.*\.v"] w_three_cores
  = (Ok [("fifo",
           IpCoreInfo.mk "fifo" "/home/u/prj/ip/fifo2"
             [("fifo", FileInfo.mk "fifo" ".v" "/home/u/prj/ip/fifo2/fifo.v")])],
     w_three_cores).
Proof.
  apply (proj1 (proj2 ip_cores_later_declaration_wins) w_three_cores
           (ip_decl "fifo" "./ip/fifo" "ip/fifo/.*\.v")
           (ip_decl "fifo" "./ip/fifo2" "ip/fifo2/.*\.v")
           (IpCoreInfo.mk "fifo" "/home/u/prj/ip/fifo"
              [("fifo", FileInfo.mk "fifo" ".v" "/home/u/prj/ip/fifo/fifo.v")])
           (IpCoreInfo.mk "fifo" "/home/u/prj/ip/fifo2"
              [("fifo", FileInfo.mk "fifo" ".v" "/home/u/prj/ip/fifo2/fifo.v")])).
  - vm_compute; reflexivity.
  - vm_compute; reflexivity.
  - reflexivity.
Defined.

(* ================================================================= *)
(** ** The include directories *)

(** With fifo declared at ip/fifo, then uart, then fifo again at ip/fifo2,
    the construction succeeds with two include directories for the cores,
    ip/fifo2 before ip/uart. *)
Lemma including_dir_counterexample :
  exists p w',
    Project.__init__ "project.toml" w_three_cores = (Ok p, w')
    /\ Project.including_dir p
       = ["/home/u/prj/rtl"; "/home/u/prj/ip/fifo2"; "/home/u/prj/ip/uart"]
    /\ spec_including_dir w_three_cores (Project.root_dir p)
         [ip_decl "fifo" "./ip/fifo" "ip/fifo/.*\.v";
          ip_decl "uart" "./ip/uart" "ip/uart/.*\.v";
          ip_decl "fifo" "./ip/fifo2" "ip/fifo2/.*\.v"] []
       = ["/home/u/prj/rtl"; "/home/u/prj/ip/fifo"; "/home/u/prj/ip/uart";
          "/home/u/prj/ip/fifo2"]
    /\ Project.including_dir p
       <> spec_including_dir w_three_cores (Project.root_dir p)
            [ip_decl "fifo" "./ip/fifo" "ip/fifo/.*\.v";
             ip_decl "uart" "./ip/uart" "ip/uart/.*\.v";
             ip_decl "fifo" "./ip/fifo2" "ip/fifo2/.*\.v"] [].
Proof.
  eexists; eexists. split; [vm_compute; reflexivity|].
  split; [reflexivity|]. split; [vm_compute; reflexivity|].
  intros H. apply (f_equal (@List.length string)) in H. vm_compute in H.
  discriminate H.
Qed.

(** C3, amended.  After a successful construction [including_dir] is
    [root_dir], then the [root_dir] of every entry of [ip_cores] in the
    order of that dict, then the directories of the spec file in the order
    of the file.  When the declared cores have pairwise different names,
    the middle part is the directory of every declaration, in the order of
    the manifest.  Without declarations and without spec file, [ip_cores]
    and [libs] are empty and [including_dir] is [root_dir] alone. *)
Theorem including_dir_order :
  forall file w p w' doc prj decls,
    Project.__init__ file w = (Ok p, w') ->
    Rtoml.load file w = (Ok doc, w) ->
    Toml.project doc = Some prj ->
    decls = match Toml.ip doc with Some d => d | None => [] end ->
    exists ext,
      match Toml.Project.spec prj with
      | Some spec_file =>
          exists sdoc,
            Rtoml.load (PosixPath.abspath (Os.getcwd w) spec_file) w = (Ok sdoc, w)
            /\ ext = spec_dirs w sdoc
      | None => ext = [] /\ Project.libs p = []
      end
      /\ Project.including_dir p
         = [Project.root_dir p]
             ++ map IpCoreInfo.root_dir (Dict.values (Project.ip_cores p)) ++ ext
      /\ (NoDup (declared_names decls) ->
          Project.including_dir p
          = [Project.root_dir p] ++ declared_root_dirs w decls ++ ext)
      /\ (decls = [] -> Project.ip_cores p = Dict.empty)
      /\ (decls = [] -> Toml.Project.spec prj = None ->
          Project.including_dir p = [Project.root_dir p]).
Proof.
  intros file w p w' doc prj decls Hinit Hload Hprj Hdecls.
  apply init_ok_inv in Hinit
    as (doc' & prj' & tbd & tbp & tbf & ext & bd & Hload' & Hprj' & _ & _ & _ & _ & _
        & Hcores & Hspec & Hinc & _).
  rewrite Hload in Hload'. inversion Hload'; subst doc'.
  rewrite Hprj in Hprj'. inversion Hprj'; subst prj'.
  assert (Hinfos : exists infos,
             map (Project.core_info w) decls = map Some infos
             /\ Project.ip_cores p = Project.collect_cores infos Dict.empty).
  { destruct (Toml.ip doc) as [d|]; subst decls.
    - apply load_ip_cores_inv in Hcores as (_ & infos & Hm & Hc). exists infos; auto.
    - exists []. split; [reflexivity | exact Hcores]. }
  destruct Hinfos as (infos & Hm & Hc).
  destruct (core_infos_declared w decls infos Hm) as [Hnames Hdirs].
  exists ext. split; [|split; [|split; [|split]]].
  - destruct (Toml.Project.spec prj) as [f|].
    + apply load_spec_file_inv in Hspec as (_ & sdoc & Hs & He). exists sdoc; auto.
    + destruct Hspec; auto.
  - rewrite Hinc, <- app_assoc. reflexivity.
  - intros Hnd. rewrite Hinc, Hc, collect_cores_fresh.
    + simpl. unfold Dict.values. rewrite !map_map; simpl.
      rewrite <- Hdirs. reflexivity.
    + simpl. rewrite Hnames. exact Hnd.
  - intros ->. destruct infos; [exact Hc | discriminate Hm].
  - intros -> Hnone. rewrite Hnone in Hspec. destruct Hspec as [_ ->].
    destruct infos; [|discriminate Hm]. rewrite Hinc, Hc. reflexivity.
Qed.

Lemma including_dir_order_witness :
  exists p w',
    Project.__init__ "project.toml" w_spec = (Ok p, w')
    /\ Project.including_dir p
       = ["/home/u/prj/rtl"; "/home/u/prj/ip/fifo"; "/home/u/prj/ip/uart";
          "/home/u/prj/inc"; "/opt/inc"].
Proof.
  assert (E : exists p w', Project.__init__ "project.toml" w_spec = (Ok p, w'))
    by (eexists; eexists; vm_compute; reflexivity).
  destruct E as (p & w' & E). exists p, w'. split; [exact E|].
  destruct (@including_dir_order "project.toml" w_spec p w' doc_spec prj_spec
              [ip_decl "fifo" "./ip/fifo" "ip/fifo/.*\.v";
               ip_decl "uart" "./ip/uart" "ip/uart/.*\.v"] E)
    as (ext & Hspec & _ & Hnd & _).
  - vm_compute; reflexivity.
  - reflexivity.
  - reflexivity.
  - simpl in Hspec. destruct Hspec as (sdoc & Hs & He).
    assert (Hsd : sdoc = doc_spec_file).
    { vm_compute in Hs. inversion Hs; reflexivity. }
    subst sdoc. rewrite Hnd.
    + rewrite He.
      assert (Hr : Project.root_dir p = "/home/u/prj/rtl").
      { vm_compute in E. inversion E; reflexivity. }
      rewrite Hr. vm_compute. reflexivity.
    + vm_compute. repeat constructor; simpl; intuition discriminate.
Defined.

(* ================================================================= *)
(** ** Patterns *)

Lemma nullable_lang r : Re.nullable r = true <-> Re.lang r "".
Proof.
  split.
  - induction r; simpl; intros H; try discriminate H.
    + constructor.
    + apply orb_true_iff in H as [H|H];
        [apply Re.LAltL | apply Re.LAltR]; auto.
    + apply andb_true_iff in H as [H1 H2].
      change "" with ("" +++ ""). constructor; auto.
    + constructor.
  - intros H. remember "" as s eqn:Es.
    induction H; simpl; try reflexivity; try discriminate Es.
    + rewrite IHlang by exact Es. reflexivity.
    + rewrite IHlang by exact Es. apply orb_true_r.
    + apply append_eq_nil in Es as [-> ->].
      rewrite IHlang1, IHlang2 by reflexivity. reflexivity.
Qed.

Lemma deriv_sound c r : forall s, Re.lang (Re.deriv c r) s -> Re.lang r (String c s).
Proof.
  induction r; simpl; intros s H.
  - inversion H.
  - inversion H.
  - destruct (Ascii.eqb_spec c c0) as [->|Hne]; inversion H; subst. constructor.
  - destruct (Re.any_char c) eqn:Ea; inversion H; subst. constructor; exact Ea.
  - inversion H; subst; [apply Re.LAltL | apply Re.LAltR]; auto.
  - destruct (Re.nullable r1) eqn:En.
    + inversion H as [| | |? ? ? H1|? ? ? H2| | |]; subst.
      * inversion H1; subst.
        change (String c (s1 +++ s2)) with (String c s1 +++ s2).
        constructor; auto.
      * change (String c s) with ("" +++ String c s).
        constructor; [apply nullable_lang; exact En | auto].
    + inversion H; subst.
      change (String c (s1 +++ s2)) with (String c s1 +++ s2).
      constructor; auto.
  - inversion H; subst.
    change (String c (s1 +++ s2)) with (String c s1 +++ s2).
    apply Re.LStarS; auto.
Qed.

Lemma deriv_complete c r x :
  Re.lang r x -> forall s, x = String c s -> Re.lang (Re.deriv c r) s.
Proof.
  induction 1 as [|d|d Hd|r1 r2 x H IH|r1 r2 x H IH
                  |r1 r2 s1 s2 H1 IH1 H2 IH2|r|r s1 s2 H1 IH1 H2 IH2];
    intros s E; simpl.
  - discriminate E.
  - inversion E; subst. rewrite Ascii.eqb_refl. constructor.
  - inversion E; subst. rewrite Hd. constructor.
  - apply Re.LAltL; auto.
  - apply Re.LAltR; auto.
  - destruct s1 as [|c1 s1]; simpl in E.
    + subst s2. apply nullable_lang in H1. rewrite H1. apply Re.LAltR; auto.
    + inversion E; subst.
      assert (Hs : Re.lang (Re.Seq (Re.deriv c r1) r2) (s1 +++ s2))
        by (constructor; auto).
      destruct (Re.nullable r1); [apply Re.LAltL|]; exact Hs.
  - discriminate E.
  - destruct s1 as [|c1 s1]; simpl in E.
    + exact (IH2 _ E).
    + inversion E; subst. constructor; auto.
Qed.

Lemma deriv_lang c r s : Re.lang (Re.deriv c r) s <-> Re.lang r (String c s).
Proof.
  split; [apply deriv_sound | intros H; exact (deriv_complete H eq_refl)].
Qed.

(** [match_] is matching at the start: some prefix of the text is a word
    of the pattern. *)
Lemma match_prefix : forall text r,
  Re.match_ r text = true
  <-> exists pre rest, text = pre +++ rest /\ Re.lang r pre.
Proof.
  induction text as [|c text IH]; intros r; simpl.
  - rewrite orb_false_r, nullable_lang. split.
    + intros H. exists "", "". auto.
    + intros (pre & rest & E & H). symmetry in E.
      apply append_eq_nil in E as [-> _]. exact H.
  - rewrite orb_true_iff, nullable_lang, IH. split.
    + intros [H|(pre & rest & -> & H)].
      * exists "", (String c text). auto.
      * exists (String c pre), rest. split; [reflexivity | apply deriv_lang; exact H].
    + intros (pre & rest & E & H). destruct pre as [|d pre]; simpl in E.
      * left; exact H.
      * inversion E; subst. right. exists pre, rest.
        split; [reflexivity | apply deriv_lang; exact H].
Qed.

(** rtl/adder.v exists and the glob ./*.v matches ./adder.v in full, yet
    nothing is discovered below rtl with the pattern *.v; and below "."
    the pattern rtl/a discovers rtl/adder.v, of which it matches only the
    beginning. *)
Lemma file_discovery_counterexample :
  (Os.stat w_adder "rtl/adder.v" = inr vfile
   /\ spec_yields "*.v" "adder.v" = true
   /\ Project.discover w_adder "rtl" "*.v" = Some [])
  /\ (spec_yields "rtl/a" "rtl/adder.v" = false
      /\ Project.discover w_adder "." "rtl/a"
         = Some [("adder", "/home/u/prj/rtl/adder.v", ".v")]).
Proof. repeat split; vm_compute; reflexivity. Qed.

Lemma candidate_matched cwd r path file :
  (exists e, Project.candidate cwd r path file = Some e)
  <-> Re.match_ r (PyStr.replace "\" "/" (PosixPath.join path file)) = true.
Proof.
  unfold Project.candidate.
  destruct (Re.match_ r (PyStr.replace "\" "/" (PosixPath.join path file))).
  - split; [reflexivity | intros _; eexists; reflexivity].
  - split; [intros [e H]; discriminate H | discriminate].
Qed.

Lemma in_discovered w r dir e :
  In e (Project.discovered w r dir)
  <-> exists path dirs files file,
      In (path, dirs, files) (Os.walked w dir)
      /\ In file files
      /\ Project.candidate (Os.getcwd w) r path file = Some e.
Proof.
  unfold Project.discovered. rewrite in_flat_map. split.
  - intros ([[path dirs] files] & Hin & He). apply in_flat_map in He as (file & Hf & He).
    exists path, dirs, files, file. repeat split; [exact Hin | exact Hf|].
    destruct (Project.candidate (Os.getcwd w) r path file) as [e'|];
      [destruct He as [->|[]]; reflexivity | destruct He].
  - intros (path & dirs & files & file & Hin & Hf & He).
    exists (path, dirs, files). split; [exact Hin|].
    apply in_flat_map. exists file. split; [exact Hf|]. rewrite He. left; reflexivity.
Qed.

(** C6, amended.  The pattern is compiled as a regular expression after
    the three characters of "\./", and a file is passed on if and only if
    that expression matches at the start of its path, that is, some prefix
    of the path is a word of the expression; the path is the join of the
    directory [os.walk] reports, which begins with the directory as it is
    written in the manifest, and of the file name, with every backslash
    replaced by a slash. *)
Theorem file_discovery_by_regex_prefix :
  forall w dir pattern r,
    Re.compile ("\./" +++ pattern) = Some r ->
    Project.discover w dir pattern = Some (Project.discovered w r dir)
    /\ (forall (S : Type) (cont : string -> string -> string -> S -> M S) acc,
           (forall n p e a, quiet (cont n p e a)) ->
           Project._file_lists dir pattern cont acc w
           = foldM (call cont) (Project.discovered w r dir) acc w)
    /\ (forall cwd path file,
           (exists e, Project.candidate cwd r path file = Some e)
           <-> exists pre rest,
               PyStr.replace "\" "/" (PosixPath.join path file) = pre +++ rest
               /\ Re.lang r pre)
    /\ Os.walk dir w = (Ok (Os.walked w dir), w)
    /\ (forall e,
           In e (Project.discovered w r dir)
           <-> exists path dirs files file,
               In (path, dirs, files) (Os.walked w dir)
               /\ In file files
               /\ Project.candidate (Os.getcwd w) r path file = Some e).
Proof.
  intros w dir pattern r Hr. split; [|split; [|split; [|split]]].
  - unfold Project.discover. rewrite Hr. reflexivity.
  - intros S cont acc Hq. rewrite file_lists_spec by exact Hq. rewrite Hr. reflexivity.
  - intros cwd path file. rewrite candidate_matched. apply match_prefix.
  - reflexivity.
  - intros e. apply in_discovered.
Qed.

Lemma file_discovery_by_regex_prefix_witness :
  Project.discover w_adder "./rtl" "rtl/.*\.v"
  = Some [("adder", "/home/u/prj/rtl/adder.v", ".v");
          ("mul", "/home/u/prj/rtl/sub/mul.v", ".v")].
Proof.
  destruct (Re.compile ("\./" +++ "rtl/.*\.v")) as [r|] eqn:Hr;
    [|vm_compute in Hr; discriminate Hr].
  rewrite (proj1 (file_discovery_by_regex_prefix w_adder "./rtl" "rtl/.*\.v" Hr)).
  vm_compute in Hr. inversion Hr; subst r. vm_compute. reflexivity.
Defined.

(* ================================================================= *)
(** ** Names and extensions *)

Lemma rfind_from_range c s : forall i best,
  PyStr.rfind_from c s i best = best
  \/ (i <= PyStr.rfind_from c s i best < i + Z.of_nat (String.length s))%Z.
Proof.
  induction s as [|d s IH]; intros i best; simpl PyStr.rfind_from.
  - left; reflexivity.
  - destruct (IH (i + 1)%Z (if Ascii.eqb c d then i else best)) as [H|H].
    + rewrite H. destruct (Ascii.eqb c d); [right | left; reflexivity].
      simpl String.length. lia.
    + right. simpl String.length. lia.
Qed.

Lemma rfind_range c s :
  PyStr.rfind c s = (-1)%Z \/ (0 <= PyStr.rfind c s < PyStr.len s)%Z.
Proof. unfold PyStr.rfind, PyStr.len. apply rfind_from_range. Qed.

Lemma substring_length : forall s n m,
  n + m <= String.length s -> String.length (String.substring n m s) = m.
Proof.
  induction s as [|c s IH]; intros [|n] [|m] H; simpl in *; try lia.
  - rewrite IH by lia. reflexivity.
  - apply IH; lia.
  - apply IH; lia.
Qed.

Lemma substring_split : forall s n m1 m2,
  n + m1 + m2 <= String.length s ->
  String.substring n (m1 + m2) s
  = String.substring n m1 s +++ String.substring (n + m1) m2 s.
Proof.
  induction s as [|c s IH]; intros [|n] [|m1] m2 H; simpl in *; try lia.
  - reflexivity.
  - reflexivity.
  - rewrite (IH 0 m1 m2) by lia. reflexivity.
  - exact (IH n 0 m2 ltac:(lia)).
  - exact (IH n (S m1) m2 ltac:(lia)).
Qed.

Lemma substring_prefix : forall x y,
  String.substring 0 (String.length x) (x +++ y) = x.
Proof.
  induction x as [|c x IH]; intros y; simpl.
  - destruct y; reflexivity.
  - rewrite IH. reflexivity.
Qed.

Lemma length_zero s : String.length s = 0 -> s = "".
Proof. destruct s; [reflexivity | discriminate]. Qed.

Lemma candidate_name_ext cwd r path file n a e :
  Project.candidate cwd r path file = Some (n, a, e) ->
  e <> "" ->
  n +++ e = PosixPath.basename (PosixPath.join path file).
Proof.
  unfold Project.candidate.
  destruct (Re.match_ r (PyStr.replace "\" "/" (PosixPath.join path file)));
    [|discriminate].
  set (p := PosixPath.join path file).
  intros H He. inversion H; subst n a e; clear H.
  unfold PosixPath.splitext in *.
  pose proof (rfind_range "/" p) as Hsep.
  pose proof (rfind_range "." p) as Hdot.
  set (sep := PyStr.rfind "/" p) in *.
  set (dot := PyStr.rfind "." p) in *.
  destruct (sep <? dot)%Z eqn:Elt; [|exfalso; apply He; reflexivity].
  apply Z.ltb_lt in Elt.
  destruct (PyStr.all_chars (Ascii.eqb ".")
              (PyStr.slice p (Some (sep + 1)%Z) (Some dot)));
    [exfalso; apply He; reflexivity|].
  clear He. cbn [snd].
  unfold PosixPath.basename. fold sep.
  unfold PyStr.len in Hsep, Hdot.
  set (L := String.length p) in *.
  assert (Hext : PyStr.slice p (Some dot) None
                 = String.substring (Z.to_nat dot) (L - Z.to_nat dot) p).
  { unfold PyStr.slice, PyStr.clamp, PyStr.len. fold L.
    replace (dot <? 0)%Z with false by (symmetry; apply Z.ltb_ge; lia).
    rewrite Z.min_l by lia.
    replace (dot <? Z.of_nat L)%Z with true by (symmetry; apply Z.ltb_lt; lia).
    f_equal. lia. }
  assert (Hbase : PyStr.slice p (Some (sep + 1)%Z) None
                  = String.substring (Z.to_nat (sep + 1)) (L - Z.to_nat (sep + 1)) p).
  { unfold PyStr.slice, PyStr.clamp, PyStr.len. fold L.
    replace (sep + 1 <? 0)%Z with false by (symmetry; apply Z.ltb_ge; lia).
    rewrite Z.min_l by lia.
    replace (sep + 1 <? Z.of_nat L)%Z with true by (symmetry; apply Z.ltb_lt; lia).
    f_equal. lia. }
  rewrite Hext, Hbase.
  set (s1 := Z.to_nat (sep + 1)) in *.
  set (d := Z.to_nat dot) in *.
  assert (Hs1 : s1 <= d) by lia.
  assert (Hd : d < L) by lia.
  replace (L - s1) with ((d - s1) + (L - d)) by lia.
  assert (Hxe : String.length (String.substring s1 (d - s1 + (L - d)) p)
                = (d - s1) + (L - d)) by (apply substring_length; lia).
  rewrite (substring_split p s1 (d - s1) (L - d)) in * by lia.
  replace (s1 + (d - s1)) with d in * by lia.
  set (x := String.substring s1 (d - s1) p) in *.
  set (e := String.substring d (L - d) p) in *.
  assert (Hx : String.length x = d - s1) by (apply substring_length; lia).
  assert (Hel : String.length e = L - d) by (apply substring_length; lia).
  f_equal.
  unfold PyStr.slice, PyStr.clamp, PyStr.len. rewrite Hxe, Hel.
  replace (- Z.of_nat (L - d) <? 0)%Z with true by (symmetry; apply Z.ltb_lt; lia).
  destruct (0 <? Z.max 0 (Z.of_nat (d - s1 + (L - d)) + - Z.of_nat (L - d)))%Z eqn:Epos.
  - replace (Z.to_nat (Z.max 0 (Z.of_nat (d - s1 + (L - d)) + - Z.of_nat (L - d)) - 0))
      with (String.length x) by lia.
    apply substring_prefix.
  - apply Z.ltb_ge in Epos. symmetry. apply length_zero. lia.
Qed.

(** C7. The extension passed on is the one [os.path.splitext] gives, and
    the name is the basename cut by [[:-len(ext_name)]].  For a file with
    a suffix, name and extension make up the file name again.  When the
    extension is empty that slice is [[:0]], so the name passed on for a
    file without suffix is the empty string and not the file name, as for
    the Makefile below rtl/. *)
Theorem suffixless_file_yields_empty_name :
  (forall cwd r path file n a e,
      Project.candidate cwd r path file = Some (n, a, e) ->
      e = snd (PosixPath.splitext (PosixPath.join path file))
      /\ n = PyStr.slice (PosixPath.basename (PosixPath.join path file)) None
               (Some (- PyStr.len e)%Z)
      /\ (e <> "" -> n +++ e = PosixPath.basename (PosixPath.join path file))
      /\ (e = "" -> n = ""))
  /\ Project.discover w_makefile "./rtl" "rtl/.*"
     = Some [("adder", "/home/u/prj/rtl/adder.v", ".v");
             ("", "/home/u/prj/rtl/Makefile", "")].
Proof.
  split.
  - intros cwd r path file n a e H.
    pose proof (candidate_name_ext _ _ _ _ H) as Hsuffix.
    unfold Project.candidate in H.
    destruct (Re.match_ r (PyStr.replace "\" "/" (PosixPath.join path file)));
      [|discriminate H].
    inversion H; subst; clear H. split; [reflexivity|]. split; [reflexivity|].
    split; [exact Hsuffix|].
    intros ->. unfold PyStr.slice, PyStr.clamp; simpl.
    assert (Hlen : (0 <= PyStr.len (PosixPath.basename (PosixPath.join path file)))%Z)
      by (unfold PyStr.len; lia).
    rewrite Z.min_l by exact Hlen. reflexivity.
  - vm_compute. reflexivity.
Qed.

Lemma suffixless_file_yields_empty_name_witness :
  exists n a e,
    Project.candidate "/home/u/prj" (Re.Seq (Re.Chr ".") (Re.Star Re.Any))
      "./rtl" "Makefile" = Some (n, a, e)
    /\ e = "" /\ n = "".
Proof.
  assert (E : exists n a e,
             Project.candidate "/home/u/prj" (Re.Seq (Re.Chr ".") (Re.Star Re.Any))
               "./rtl" "Makefile" = Some (n, a, e))
    by (eexists; eexists; eexists; vm_compute; reflexivity).
  destruct E as (n & a & e & H). exists n, a, e. split; [exact H|].
  destruct (proj1 suffixless_file_yields_empty_name _ _ _ _ _ _ _ H)
    as (He & _ & _ & Hn).
  assert (E : e = "") by (rewrite He; vm_compute; reflexivity).
  split; [exact E | exact (Hn E)].
Defined.

(* ================================================================= *)
(** ** The file tree *)


















(* ================================================================= *)
(** ** The output directory *)

Lemma startswith_slash s :
  PyStr.startswith "/" s = true -> exists s', s = String "/" s'.
Proof.
  destruct s as [|c s]; [discriminate|].
  change (PyStr.startswith "/" (String c s))
    with (if Ascii.ascii_dec "/" c then String.prefix "" s else false).
  destruct (Ascii.ascii_dec "/" c) as [<-|]; [|discriminate].
  intros _. exists s; reflexivity.
Qed.

Lemma startswith_cons s : PyStr.startswith "/" (String "/" s) = true.
Proof. destruct s; reflexivity. Qed.

Lemma normpath_absolute q :
  PyStr.startswith "/" q = true ->
  PyStr.startswith "/" (PosixPath.normpath q) = true.
Proof.
  intros H. destruct (startswith_slash _ H) as [q' ->].
  unfold PosixPath.normpath. rewrite H.
  change (String.eqb (String "/" q') "") with false. cbv iota.
  destruct (PyStr.startswith "//" (String "/" q')
            && negb (PyStr.startswith "///" (String "/" q')))%bool;
    cbn [PosixPath.slashes String.append String.eqb]; apply startswith_cons.
Qed.

(** [os.path.abspath] gives a path that starts at the root. *)
Lemma abspath_absolute w path :
  PyStr.startswith "/" (PosixPath.abspath (Os.getcwd w) path) = true.
Proof.
  unfold PosixPath.abspath. apply normpath_absolute.
  destruct (PyStr.startswith "/" path) eqn:E; [exact E|].
  unfold PosixPath.join, PosixPath.sep. rewrite E.
  unfold Os.getcwd.
  destruct (String.eqb ("/" +++ PyStr.join "/" (cwd w)) ""
            || PyStr.endswith "/" ("/" +++ PyStr.join "/" (cwd w)))%bool;
    cbn [String.append]; apply startswith_cons.
Qed.



(* ================================================================= *)
(** ** Paths that do not exist *)











(* ================================================================= *)
(** * Properties of the rest of the code *)

(* ================================================================= *)
(** ** The registries of a constructed project *)

Lemma registered_closed l : forall acc d,
  Project.registered l acc = inl d -> d = acc ++ map to_entry l.
Proof.
  induction l as [|[[n p] e] l IH]; intros acc d H; simpl in H.
  - inversion H; subst. rewrite app_nil_r; reflexivity.
  - destruct (Dict.contains n acc) eqn:E; [discriminate H|].
    rewrite (IH _ _ H), (update_fresh _ _ _ E), <- app_assoc. reflexivity.
Qed.

Lemma keys_to_entry l : Dict.keys (map to_entry l) = map Project.entry_name l.
Proof.
  unfold Dict.keys. rewrite map_map. reflexivity.
Qed.

Lemma candidate_absolute w r path file n a e :
  Project.candidate (Os.getcwd w) r path file = Some (n, a, e) -> absolute a.
Proof.
  unfold Project.candidate.
  destruct (Re.match_ r (PyStr.replace "\" "/" (PosixPath.join path file)));
    [|discriminate].
  intros H; inversion H; subst. apply abspath_absolute.
Qed.

Lemma discovered_absolute w r dir e :
  In e (Project.discovered w r dir) -> absolute (snd (fst e)).
Proof.
  intros H. apply in_discovered in H as (path & dirs & files & file & _ & _ & Hc).
  destruct e as [[n a] x]. exact (candidate_absolute _ _ _ _ Hc).
Qed.

(** What [_file_lists] with the insertion rule returns when it returns: the
    discovered files in the order of discovery, one entry each, under
    pairwise different names. *)
Lemma registry_closed dir pattern w d w' :
  Project._file_lists dir pattern Project._append_file_to_map_parteval Dict.empty w
  = (Ok d, w') ->
  w' = w
  /\ exists l,
      Project.discover w dir pattern = Some l
      /\ d = map to_entry l
      /\ NoDup (Dict.keys d)
      /\ forall k i, In (k, i) d -> k = FileInfo.filename i /\ absolute (FileInfo.fullpath i).
Proof.
  intros H. apply registry_ok_inv in H as (-> & l & Hdisc & Hreg).
  split; [reflexivity|]. exists l. split; [exact Hdisc|].
  pose proof (registered_closed _ _ Hreg) as Hd. simpl in Hd.
  split; [exact Hd|]. split.
  - subst d. rewrite keys_to_entry.
    apply (proj1 (registered_ok_iff l Dict.empty)). exists (map to_entry l).
    exact Hreg.
  - intros k i Hin. subst d. apply in_map_iff in Hin as (e & He & Hin).
    inversion He; subst. split; [reflexivity|]. simpl.
    unfold Project.discover in Hdisc.
    destruct (Re.compile ("\./" +++ pattern)) as [r|]; [|discriminate Hdisc].
    inversion Hdisc; subst l. exact (discovered_absolute _ _ _ _ Hin).
Qed.

Lemma in_ip_cores decls w cores w' k c :
  Project._load_ip_cores decls w = (Ok cores, w') ->
  In (k, c) cores ->
  k = IpCoreInfo.name c
  /\ exists ip, In ip decls /\ Project.core_info w ip = Some c.
Proof.
  intros H Hin. apply load_ip_cores_inv in H as (-> & infos & Hmap & ->).
  apply in_collect_cores in Hin as [[]|[Hin Hk]]. split; [exact Hk|].
  clear Hk. revert infos Hmap Hin.
  induction decls as [|ip decls IH]; intros [|i infos] Hmap Hin;
    try discriminate Hmap; simpl in *; [contradiction|].
  inversion Hmap as [[Hi Hrest]]. destruct Hin as [->|Hin].
  - exists ip; auto.
  - destruct (IH _ Hrest Hin) as (ip' & Hip' & Hc). exists ip'; auto.
Qed.

Lemma testbench_loop_entries fmt F : forall items acc R,
  Project.testbench_loop items fmt F acc = Ok R ->
  forall k i, In (k, i) R ->
    In (k, i) acc \/ (In k (Dict.keys items) /\ exists k', In (k', i) F).
Proof.
  induction items as [|[m f] items IH]; intros acc R H k i Hin; simpl in H.
  - inversion H; subst. left; exact Hin.
  - destruct fmt as [tmpl|]; [|discriminate H].
    destruct (Format.format tmpl m) as [tb_module|]; [|discriminate H].
    destruct (Dict.get tb_module F) as [info|] eqn:Eg.
    + destruct (IH _ _ H _ _ Hin) as [Hacc|[Hk Hv]].
      * apply in_update in Hacc as [[-> ->]|Hacc]; [|left; exact Hacc].
        right. split; [left; reflexivity|]. exists tb_module. exact (get_in _ _ Eg).
      * right. split; [right; exact Hk | exact Hv].
    + destruct (IH _ _ H _ _ Hin) as [Hacc|[Hk Hv]]; [left; exact Hacc|].
      right. split; [right; exact Hk | exact Hv].
Qed.

Lemma core_info_files w ip c :
  Project.core_info w ip = Some c ->
  absolute (IpCoreInfo.root_dir c)
  /\ NoDup (Dict.keys (IpCoreInfo.rtl_files c))
  /\ Dict.contains (IpCoreInfo.name c) (IpCoreInfo.rtl_files c) = true
  /\ forall k i, In (k, i) (IpCoreInfo.rtl_files c) ->
                 k = FileInfo.filename i /\ absolute (FileInfo.fullpath i).
Proof.
  intros H. apply core_info_inv in H
    as (dir & pat & l & _ & _ & _ & Hdisc & Hreg & Hroot & Hc).
  split; [rewrite Hroot; apply abspath_absolute|].
  pose proof (registered_closed _ _ Hreg) as Hd. simpl in Hd.
  split; [|split; [exact Hc|]].
  - rewrite Hd, keys_to_entry.
    apply (proj1 (registered_ok_iff l Dict.empty)). eexists; exact Hreg.
  - intros k i Hin. rewrite Hd in Hin. apply in_map_iff in Hin as (e & He & Hin).
    inversion He; subst. split; [reflexivity|]. simpl.
    unfold Project.discover in Hdisc.
    destruct (Re.compile ("\./" +++ pat)) as [r|]; [|discriminate Hdisc].
    inversion Hdisc; subst l. exact (discovered_absolute _ _ _ _ Hin).
Qed.

Lemma init_registries :
  forall file w p w',
    Project.__init__ file w = (Ok p, w') ->
    exists doc prj dir pat l tbd tbp tbl,
      Rtoml.load file w = (Ok doc, w)
      /\ Toml.project doc = Some prj
      /\ Toml.Project.rtl_dir prj = Some dir
      /\ Toml.Project.rtl_dir_pattern prj = Some pat
      /\ Project.discover w dir pat = Some l
      /\ Project.files p = map to_entry l
      /\ NoDup (Dict.keys (Project.files p))
      /\ In (Project.top_module p) (Dict.keys (Project.files p))
      /\ Toml.Project.tb_dir prj = Some tbd
      /\ Toml.Project.tb_dir_pattern prj = Some tbp
      /\ Project.discover w tbd tbp = Some tbl
      /\ (forall k i, In (k, i) (Project.test_bench p) ->
            In k (Dict.keys (Project.files p))
            /\ In (FileInfo.filename i, i) (map to_entry tbl))
      /\ (forall k c, In (k, c) (Project.ip_cores p) ->
            k = IpCoreInfo.name c
            /\ NoDup (Dict.keys (IpCoreInfo.rtl_files c))
            /\ In k (Dict.keys (IpCoreInfo.rtl_files c))).
Proof.
  intros file w p w' H.
  apply init_ok_inv in H
    as (doc & prj & tbd & tbp & tbf & ext & bd & Hload & Hprj & Hprops & Htbd & Htbp
        & Htbf & Htb & Hcores & _).
  apply load_project_properties_inv in Hprops
    as (_ & _ & _ & dir & pat & l & Hdir & Hpat & _ & Hdisc & Hreg & Hc).
  pose proof (registered_closed _ _ Hreg) as Hfiles. simpl in Hfiles.
  apply registry_closed in Htbf as (_ & tbl & Htbl & Htbf & _ & Htbe).
  exists doc, prj, dir, pat, l, tbd, tbp, tbl.
  repeat (split; [assumption|]).
  split.
  { rewrite Hfiles, keys_to_entry.
    apply (proj1 (registered_ok_iff l Dict.empty)). eexists; exact Hreg. }
  split; [apply contains_in_keys; exact Hc|].
  repeat (split; [assumption|]).
  split.
  - intros k i Hin. unfold Project._load_testbench_files in Htb.
    destruct (testbench_loop_entries _ _ _ _ Htb _ _ Hin) as [[]|[Hk [k' Hv]]].
    split; [exact Hk|]. rewrite <- Htbf.
    destruct (Htbe _ _ Hv) as [-> _]. exact Hv.
  - intros k c Hin. destruct (Toml.ip doc) as [decls|].
    + destruct (@in_ip_cores _ _ _ _ _ _ Hcores Hin) as (Hk & ip & _ & Hi).
      destruct (@core_info_files _ _ _ Hi) as (_ & Hnd & Hcc & _).
      split; [exact Hk|]. split; [exact Hnd|].
      rewrite Hk. apply contains_in_keys; exact Hcc.
    + rewrite Hcores in Hin. destruct Hin.
Qed.



(* ================================================================= *)
(** ** The spec resolver *)

Lemma lib_loop_ok w : forall decls infos acc,
  map (lib_info w) decls = map Some infos ->
  foldM (fun lib libs0 =>
           name <- getitem "name" (Toml.Lib.name lib) ;;
           path <- getitem "path" (Toml.Lib.path lib) ;;
           full <- Os.abspath path ;;
           ret (libs0 ++ [LibInfo.mk name full])) decls acc w
  = (Ok (acc ++ infos), w).
Proof.
  induction decls as [|lib decls IH]; intros [|i infos] acc H;
    try discriminate H; simpl in *.
  - rewrite app_nil_r; reflexivity.
  - inversion H as [[Hi Hrest]]. unfold lib_info in Hi.
    destruct (Toml.Lib.name lib) as [n|]; [|discriminate Hi].
    destruct (Toml.Lib.path lib) as [pth|]; [|discriminate Hi].
    inversion Hi; subst i.
    unfold bind at 1. unfold bind at 1. unfold bind at 1. unfold bind at 1.
    unfold getitem, ret, Os.abspath; cbv beta iota.
    rewrite (IH infos _ Hrest), <- app_assoc. reflexivity.
Qed.

Lemma lib_loop_fail w lib post : forall pre infos acc,
  map (lib_info w) pre = map Some infos ->
  lib_info w lib = None ->
  foldM (fun lib libs0 =>
           name <- getitem "name" (Toml.Lib.name lib) ;;
           path <- getitem "path" (Toml.Lib.path lib) ;;
           full <- Os.abspath path ;;
           ret (libs0 ++ [LibInfo.mk name full])) (pre ++ lib :: post) acc w
  = (Raise (KeyError (lib_missing_key lib)), w).
Proof.
  intros pre infos acc Hpre Hlib.
  rewrite foldM_app, (bind_ok _ _ _ (lib_loop_ok w pre infos acc Hpre)).
  simpl. apply bind_raise.
  unfold lib_info in Hlib. unfold lib_missing_key.
  destruct (Toml.Lib.name lib) as [n|]; [|reflexivity].
  destruct (Toml.Lib.path lib) as [pth|]; [discriminate Hlib | reflexivity].
Qed.

Lemma lib_loop_inv w : forall decls acc r w',
  foldM (fun lib libs0 =>
           name <- getitem "name" (Toml.Lib.name lib) ;;
           path <- getitem "path" (Toml.Lib.path lib) ;;
           full <- Os.abspath path ;;
           ret (libs0 ++ [LibInfo.mk name full])) decls acc w
  = (Ok r, w') ->
  exists infos, map (lib_info w) decls = map Some infos /\ r = acc ++ infos.
Proof.
  induction decls as [|lib decls IH]; intros acc r w' H.
  - simpl in H. inversion H; subst. exists []. rewrite app_nil_r; auto.
  - destruct (lib_info w lib) as [i|] eqn:Hi.
    + change (lib :: decls) with ([lib] ++ decls) in H.
      rewrite foldM_app in H.
      assert (H1 : map (lib_info w) [lib] = map Some [i]) by (simpl; rewrite Hi; reflexivity).
      rewrite (bind_ok _ _ _ (lib_loop_ok w [lib] [i] acc H1)) in H.
      destruct (IH _ _ _ H) as (infos & Hm & ->).
      exists (i :: infos). simpl. rewrite Hi, Hm, <- app_assoc. auto.
    + change (lib :: decls) with ([] ++ lib :: decls) in H.
      rewrite (lib_loop_fail w lib decls [] [] acc eq_refl Hi) in H.
      discriminate H.
Qed.

Lemma spec_dirs_absolute w doc : Forall absolute (spec_dirs w doc).
Proof.
  unfold spec_dirs. destruct (Toml.ext_including_dir doc) as [dirs|]; [|constructor].
  apply Forall_forall. intros d Hd. apply in_map_iff in Hd as (x & <- & _).
  apply abspath_absolute.
Qed.

Lemma lib_infos_absolute w decls : forall infos,
  map (lib_info w) decls = map Some infos ->
  Forall (fun i => absolute (LibInfo.full_path i)) infos
  /\ map LibInfo.name infos
     = flat_map (fun lib => match Toml.Lib.name lib with
                            | Some n => [n]
                            | None => []
                            end) decls.
Proof.
  induction decls as [|lib decls IH]; intros [|i infos] H; try discriminate H;
    simpl in *; [split; [constructor | reflexivity]|].
  inversion H as [[Hi Hrest]]. destruct (IH _ Hrest) as [Ha Hn].
  unfold lib_info in Hi.
  destruct (Toml.Lib.name lib) as [n|]; [|discriminate Hi].
  destruct (Toml.Lib.path lib) as [pth|]; [|discriminate Hi].
  inversion Hi; subst i. split.
  - constructor; [apply abspath_absolute | exact Ha].
  - simpl. rewrite Hn. reflexivity.
Qed.

Lemma load_spec_file_shape :
  forall file w doc decls,
    Rtoml.load (PosixPath.abspath (Os.getcwd w) file) w = (Ok doc, w) ->
    decls = match Toml.lib doc with Some l => l | None => [] end ->
    (forall infos,
        map (lib_info w) decls = map Some infos ->
        Project._load_spec_file file w = (Ok (infos, spec_dirs w doc), w)
        /\ Forall (fun i => absolute (LibInfo.full_path i)) infos
        /\ Forall absolute (spec_dirs w doc)
        /\ List.length infos = List.length decls)
    /\ (forall pre lib post infos,
           decls = pre ++ lib :: post ->
           map (lib_info w) pre = map Some infos ->
           lib_info w lib = None ->
           Project._load_spec_file file w
           = (Raise (KeyError (lib_missing_key lib)), w))
    /\ (forall libs ext w',
           Project._load_spec_file file w = (Ok (libs, ext), w') ->
           w' = w /\ map (lib_info w) decls = map Some libs /\ ext = spec_dirs w doc).
Proof.
  intros file w doc decls Hload Hdecls.
  assert (Hdirs : (match Toml.ext_including_dir doc with
                   | Some dirs =>
                       foldM (fun inc_dir including_dir =>
                                full <- Os.abspath inc_dir ;;
                                ret (including_dir ++ [full])) dirs []
                   | None => ret []
                   end) w = (Ok (spec_dirs w doc), w)).
  { unfold spec_dirs. destruct (Toml.ext_including_dir doc) as [dirs|];
      [apply including_loop | reflexivity]. }
  split; [|split].
  - intros infos Hm. split; [|split; [|split]].
    + unfold Project._load_spec_file.
      unfold bind at 1, Os.abspath; cbv beta iota.
      rewrite (bind_ok _ _ _ Hload).
      assert (Hl : (match Toml.lib doc with
                    | Some toml_lib_dat =>
                        foldM (fun lib libs0 =>
                                 name <- getitem "name" (Toml.Lib.name lib) ;;
                                 path <- getitem "path" (Toml.Lib.path lib) ;;
                                 full <- Os.abspath path ;;
                                 ret (libs0 ++ [LibInfo.mk name full]))
                          toml_lib_dat []
                    | None => ret []
                    end) w = (Ok infos, w)).
      { destruct (Toml.lib doc) as [l|]; subst decls.
        - exact (lib_loop_ok w l infos [] Hm).
        - destruct infos; [reflexivity | discriminate Hm]. }
      rewrite (bind_ok _ _ _ Hl), (bind_ok _ _ _ Hdirs). reflexivity.
    + exact (proj1 (lib_infos_absolute w decls infos Hm)).
    + apply spec_dirs_absolute.
    + rewrite <- (length_map Some infos), <- Hm, length_map. reflexivity.
  - intros pre lib post infos Hd Hpre Hlib.
    unfold Project._load_spec_file.
    unfold bind at 1, Os.abspath; cbv beta iota.
    rewrite (bind_ok _ _ _ Hload).
    destruct (Toml.lib doc) as [l|]; subst decls.
    + apply bind_raise. rewrite Hd. exact (lib_loop_fail w lib post pre infos [] Hpre Hlib).
    + destruct pre; discriminate Hd.
  - intros libs ext w' H.
    destruct (load_spec_file_inv _ _ H) as (-> & doc' & Hload' & ->).
    rewrite Hload in Hload'. inversion Hload'; subst doc'.
    split; [reflexivity|]. split; [|reflexivity].
    unfold Project._load_spec_file in H.
    unfold bind at 1, Os.abspath in H; cbv beta iota in H.
    rewrite (bind_ok _ _ _ Hload) in H.
    apply bind_ok_inv in H as (libs0 & w1 & Hl & H).
    assert (Hw1 : w1 = w).
    { destruct (Toml.lib doc); [exact (quiet_lib_loop _ _ _ Hl) | inversion Hl; reflexivity]. }
    subst w1. rewrite (bind_ok _ _ _ Hdirs) in H. inversion H; subst libs0.
    destruct (Toml.lib doc) as [l|]; subst decls.
    + destruct (lib_loop_inv w l [] Hl) as (infos & Hm & ->). exact Hm.
    + inversion Hl; reflexivity.
Qed.

(** X2. The spec resolver on a spec file that loads.  When every library
    declaration has its two keys, it returns one [LibInfo] for each, in the
    order of the file and with an absolute path, and the include
    directories of the file, in its order and absolute; a file without
    [lib] or without [ext_including_dir] gives the empty list for that
    part.  The first library declaration that lacks a key stops it with the
    [KeyError] of that key, which [__init__] reports as an incomplete
    manifest. *)
Theorem spec_file_resolution :
  forall file w doc decls,
    Rtoml.load (PosixPath.abspath (Os.getcwd w) file) w = (Ok doc, w) ->
    decls = match Toml.lib doc with Some l => l | None => [] end ->
    (forall infos,
        map (lib_info w) decls = map Some infos ->
        Project._load_spec_file file w = (Ok (infos, spec_dirs w doc), w)
        /\ Forall (fun i => absolute (LibInfo.full_path i)) infos
        /\ Forall absolute (spec_dirs w doc)
        /\ List.length infos = List.length decls)
    /\ (forall pre lib post infos,
           decls = pre ++ lib :: post ->
           map (lib_info w) pre = map Some infos ->
           lib_info w lib = None ->
           Project._load_spec_file file w
           = (Raise (KeyError (lib_missing_key lib)), w))
    /\ (forall libs ext w',
           Project._load_spec_file file w = (Ok (libs, ext), w') ->
           w' = w /\ map (lib_info w) decls = map Some libs /\ ext = spec_dirs w doc).
Proof. exact load_spec_file_shape. Qed.

Lemma spec_file_resolution_witness :
  Project._load_spec_file "./spec.toml" w_spec
  = (Ok ([LibInfo.mk "cells" "/home/u/prj/lib/cells"],
         ["/home/u/prj/inc"; "/opt/inc"]), w_spec).
Proof.
  destruct (@spec_file_resolution "./spec.toml" w_spec doc_spec_file
              [Toml.Lib.mk (Some "cells") (Some "./lib/cells")])
    as (Hok & _).
  - vm_compute; reflexivity.
  - reflexivity.
  - destruct (Hok [LibInfo.mk "cells" "/home/u/prj/lib/cells"]) as (H & _).
    + vm_compute; reflexivity.
    + rewrite H. vm_compute. reflexivity.
Defined.

(* ================================================================= *)
(** ** The paths of a constructed project *)

Lemma absolute_append s t : absolute s -> absolute (s +++ t).
Proof.
  intros H. destruct (startswith_slash _ H) as [s' ->].
  unfold absolute. cbn [String.append]. apply startswith_cons.
Qed.

Lemma init_paths_absolute :
  forall file w p w',
    Project.__init__ file w = (Ok p, w') ->
    absolute (Project.root_dir p)
    /\ absolute (Project.build_out_dir p)
    /\ Forall absolute (Project.including_dir p)
    /\ Forall (fun l => absolute (LibInfo.full_path l)) (Project.libs p)
    /\ (forall k i, In (k, i) (Project.files p) -> absolute (FileInfo.fullpath i))
    /\ (forall k i, In (k, i) (Project.test_bench p) ->
                    absolute (FileInfo.fullpath i))
    /\ (forall k c, In (k, c) (Project.ip_cores p) ->
          absolute (IpCoreInfo.root_dir c)
          /\ forall k' i, In (k', i) (IpCoreInfo.rtl_files c) ->
                          absolute (FileInfo.fullpath i)).
Proof.
  intros file w p w' H.
  pose proof (init_registries _ _ H)
    as (doc0 & prj0 & dir & pat & l & tbd0 & tbp0 & tbl & Hload0 & Hprj0 & _ & Hpat
        & Hdisc & Hfiles & _ & _ & _ & Htbp0 & Htbl & Htb & _).
  apply init_ok_inv in H
    as (doc & prj & tbd & tbp & tbf & ext & bd & Hload & Hprj & Hprops & _ & _
        & _ & _ & Hcores & Hspec & Hinc & _ & Hout & _).
  rewrite Hload in Hload0. inversion Hload0; subst doc0.
  rewrite Hprj in Hprj0. inversion Hprj0; subst prj0.
  apply load_project_properties_inv in Hprops
    as (_ & _ & _ & dir' & pat' & l' & _ & _ & Hroot & _).
  assert (Hcore : forall k c, In (k, c) (Project.ip_cores p) ->
            absolute (IpCoreInfo.root_dir c)
            /\ forall k' i, In (k', i) (IpCoreInfo.rtl_files c) ->
                            absolute (FileInfo.fullpath i)).
  { intros k c Hin. destruct (Toml.ip doc) as [decls|].
    - destruct (@in_ip_cores _ _ _ _ _ _ Hcores Hin) as (_ & ip & _ & Hi).
      destruct (@core_info_files _ _ _ Hi) as (Hr & _ & _ & He).
      split; [exact Hr|]. intros k' i Hi'. exact (proj2 (He _ _ Hi')).
    - rewrite Hcores in Hin. destruct Hin. }
  assert (Hext : Forall absolute ext
                 /\ Forall (fun l => absolute (LibInfo.full_path l)) (Project.libs p)).
  { destruct (Toml.Project.spec prj) as [f|].
    - destruct (load_spec_file_inv _ _ Hspec) as (_ & sdoc & Hs & He).
      destruct (proj2 (proj2 (@load_spec_file_shape f w sdoc _ Hs eq_refl))
                  _ _ _ Hspec) as (_ & Hm & _).
      split; [rewrite He; apply spec_dirs_absolute|].
      exact (proj1 (lib_infos_absolute w _ _ Hm)).
    - destruct Hspec as [-> ->]. split; constructor. }
  split; [rewrite Hroot; apply abspath_absolute|].
  split; [rewrite Hout; apply absolute_append, abspath_absolute|].
  split.
  { rewrite Hinc. apply Forall_app. split; [apply Forall_app; split|exact (proj1 Hext)].
    - constructor; [rewrite Hroot; apply abspath_absolute | constructor].
    - apply Forall_forall. intros d Hd. apply in_map_iff in Hd as (c & <- & Hc).
      unfold Dict.values in Hc. apply in_map_iff in Hc as ([k c'] & <- & Hc).
      exact (proj1 (Hcore _ _ Hc)). }
  split; [exact (proj2 Hext)|].
  split.
  { intros k i Hin. rewrite Hfiles in Hin. apply in_map_iff in Hin as (e & He & Hin).
    inversion He; subst. simpl.
    unfold Project.discover in Hdisc.
    destruct (Re.compile ("\./" +++ pat)) as [r|]; [|discriminate Hdisc].
    inversion Hdisc; subst l. exact (discovered_absolute _ _ _ _ Hin). }
  split; [|exact Hcore].
  intros k i Hin. destruct (Htb _ _ Hin) as [_ Hv].
  apply in_map_iff in Hv as (e & He & Hv). inversion He; subst. simpl.
  unfold Project.discover in Htbl.
  destruct (Re.compile ("\./" +++ tbp0)) as [r|]; [|discriminate Htbl].
  inversion Htbl; subst tbl. exact (discovered_absolute _ _ _ _ Hv).
Qed.

(** X3. Every path a constructed project holds starts at the root: the RTL
    root directory, the output directory, every include directory, the
    path of every library, the root directory of every IP core, and the
    full path of every file of [files], of [test_bench] and of the
    registries of the IP cores.  So the model does not depend on the
    working directory of whoever uses it later. *)
Theorem constructed_paths_absolute :
  forall file w p w',
    Project.__init__ file w = (Ok p, w') ->
    absolute (Project.root_dir p)
    /\ absolute (Project.build_out_dir p)
    /\ Forall absolute (Project.including_dir p)
    /\ Forall (fun l => absolute (LibInfo.full_path l)) (Project.libs p)
    /\ (forall k i, In (k, i) (Project.files p) -> absolute (FileInfo.fullpath i))
    /\ (forall k i, In (k, i) (Project.test_bench p) ->
                    absolute (FileInfo.fullpath i))
    /\ (forall k c, In (k, c) (Project.ip_cores p) ->
          absolute (IpCoreInfo.root_dir c)
          /\ forall k' i, In (k', i) (IpCoreInfo.rtl_files c) ->
                          absolute (FileInfo.fullpath i)).
Proof. exact init_paths_absolute. Qed.

Lemma constructed_paths_absolute_witness :
  exists p w',
    Project.__init__ "project.toml" w_spec = (Ok p, w')
    /\ Forall absolute (Project.including_dir p).
Proof.
  assert (E : exists p w', Project.__init__ "project.toml" w_spec = (Ok p, w'))
    by (eexists; eexists; vm_compute; reflexivity).
  destruct E as (p & w' & E). exists p, w'. split; [exact E|].
  exact (proj1 (proj2 (proj2 (constructed_paths_absolute _ _ E)))).
Defined.

(* ================================================================= *)
(** ** What a construction does to the world *)

Lemma raised_in_refl w e : raised_in w w e.
Proof. unfold raised_in; auto. Qed.

Lemma tidy_ret {A : Type} (a : A) : tidy (ret a).
Proof. intros w r w' H; inversion H; reflexivity. Qed.

Lemma tidy_raise {A : Type} e : tidy (@raise A e).
Proof. intros w r w' H; inversion H; apply raised_in_refl. Qed.

Lemma tidy_lift {A : Type} (o : outcome A) : tidy (lift o).
Proof.
  intros w r w' H; inversion H; subst. destruct r; [reflexivity | apply raised_in_refl].
Qed.

Lemma tidy_getitem {A : Type} key (o : option A) : tidy (getitem key o).
Proof. destruct o; [apply tidy_ret | apply tidy_raise]. Qed.

Lemma eff_bind {A B : Type} okrel (m : M A) (k : A -> M B) :
  tidy m -> (forall a, eff okrel (k a)) -> eff okrel (bind m k).
Proof.
  intros Hm Hk w r w' H. unfold bind in H.
  destruct (m w) as [[a|e] w1] eqn:E.
  - pose proof (Hm _ _ _ E) as Hw; simpl in Hw; subst w1. exact (Hk a _ _ _ H).
  - inversion H; subst. exact (Hm _ _ _ E).
Qed.

Lemma tidy_bind {A B : Type} (m : M A) (k : A -> M B) :
  tidy m -> (forall a, tidy (k a)) -> tidy (bind m k).
Proof. apply eff_bind. Qed.

Lemma tidy_foldM {A S : Type} (f : A -> S -> M S) l :
  (forall a s, tidy (f a s)) -> forall s, tidy (foldM f l s).
Proof.
  intros Hf; induction l as [|a l IH]; intros s; simpl.
  - apply tidy_ret.
  - apply tidy_bind; [apply Hf | exact IH].
Qed.

Lemma tidy_abspath p : tidy (Os.abspath p).
Proof. intros w r w' H; inversion H; reflexivity. Qed.

Lemma tidy_walk p : tidy (Os.walk p).
Proof. intros w r w' H; inversion H; reflexivity. Qed.

Lemma tidy_path_exists p : tidy (Os.path_exists p).
Proof. intros w r w' H; inversion H; reflexivity. Qed.

Lemma tidy_load f : tidy (Rtoml.load f).
Proof.
  intros w r w' H; unfold Rtoml.load in H.
  destruct (Os.stat w (PosixPath.pathlib_str f)) as [[|]|[[d|]|es]];
    inversion H; subst; try reflexivity; apply raised_in_refl.
Qed.

Lemma raised_in_line w line : raised_in w (with_line w line) Exception.
Proof.
  unfold raised_in, with_line; simpl. repeat split. right. split; [reflexivity|].
  exists line; reflexivity.
Qed.

Lemma tidy_append n p e acc :
  tidy (Project._append_file_to_map_parteval n p e acc).
Proof.
  unfold Project._append_file_to_map_parteval; simpl.
  destruct (Dict.contains n acc).
  - intros w r w' H. unfold bind, print, raise in H. inversion H; subst.
    apply raised_in_line.
  - apply tidy_ret.
Qed.

Lemma tidy_file_lists {S : Type} (cont : string -> string -> string -> S -> M S)
  dir pattern acc :
  (forall n p e a, tidy (cont n p e a)) ->
  tidy (Project._file_lists dir pattern cont acc).
Proof.
  intros Hc. unfold Project._file_lists.
  apply tidy_bind.
  { destruct (Re.compile ("\./" +++ pattern)); [apply tidy_ret | apply tidy_raise]. }
  intros regexp. apply tidy_bind; [apply tidy_walk|]. intros triples.
  apply tidy_foldM. intros [[path dirs] files] acc1.
  apply tidy_foldM. intros file acc2 w r w' H.
  destruct (Project.candidate (Os.getcwd w) regexp path file) as [[[n a] e]|].
  - exact (Hc _ _ _ _ _ _ _ H).
  - inversion H; reflexivity.
Qed.

Lemma tidy_check_top_module top files : tidy (Project._check_top_module top files).
Proof.
  intros w r w' H. rewrite check_top_module_spec in H.
  destruct (Dict.contains top files); inversion H; subst;
    [reflexivity | apply raised_in_line].
Qed.

Lemma tidy_load_project_properties prj : tidy (Project._load_project_properties prj).
Proof.
  unfold Project._load_project_properties.
  apply tidy_bind; [apply tidy_getitem | intros lang].
  apply tidy_bind; [apply tidy_getitem | intros top].
  apply tidy_bind; [apply tidy_getitem | intros rtl_dir].
  apply tidy_bind; [apply tidy_abspath | intros root_dir].
  apply tidy_bind; [apply tidy_getitem | intros rtl_dir'].
  apply tidy_bind; [apply tidy_getitem | intros pattern].
  apply tidy_bind; [apply tidy_file_lists; intros; apply tidy_append | intros files].
  apply tidy_bind; [apply tidy_check_top_module | intros _]. apply tidy_ret.
Qed.

Lemma tidy_load_ip_core ip cores : tidy (Project.load_ip_core ip cores).
Proof.
  unfold Project.load_ip_core.
  apply tidy_bind; [apply tidy_getitem | intros ip_name].
  apply tidy_bind; [apply tidy_getitem | intros rtl_dir].
  apply tidy_bind; [apply tidy_getitem | intros pattern].
  apply tidy_bind; [apply tidy_file_lists; intros; apply tidy_append | intros ip_files].
  destruct (negb (Dict.contains ip_name ip_files)).
  - intros w r w' H. unfold bind, print, raise in H. inversion H; subst.
    apply raised_in_line.
  - apply tidy_bind; [apply tidy_getitem | intros rtl_dir'].
    apply tidy_bind; [apply tidy_abspath | intros root_dir]. apply tidy_ret.
Qed.

Lemma tidy_load_spec_file file : tidy (Project._load_spec_file file).
Proof.
  unfold Project._load_spec_file.
  apply tidy_bind; [apply tidy_abspath | intros full_path].
  apply tidy_bind; [apply tidy_load | intros toml_dat].
  apply tidy_bind.
  { destruct (Toml.lib toml_dat); [|apply tidy_ret].
    apply tidy_foldM. intros lib libs0.
    apply tidy_bind; [apply tidy_getitem | intros name].
    apply tidy_bind; [apply tidy_getitem | intros path].
    apply tidy_bind; [apply tidy_abspath | intros full]. apply tidy_ret. }
  intros libs. apply tidy_bind; [|intros inc; apply tidy_ret].
  destruct (Toml.ext_including_dir toml_dat); [|apply tidy_ret].
  apply tidy_foldM. intros d acc.
  apply tidy_bind; [apply tidy_abspath | intros full]. apply tidy_ret.
Qed.

Lemma eff_init_body file : eff constructed_in (Project.init_body file).
Proof.
  unfold Project.init_body.
  apply eff_bind; [apply tidy_load | intros toml_dat].
  apply eff_bind; [apply tidy_getitem | intros toml_prj_dat].
  apply eff_bind; [apply tidy_load_project_properties | intros [[[lang top] rd] files]].
  apply eff_bind; [apply tidy_getitem | intros tb_dir].
  apply eff_bind; [apply tidy_getitem | intros tb_dir_pattern].
  apply eff_bind; [apply tidy_file_lists; intros; apply tidy_append | intros tbf].
  apply eff_bind; [apply tidy_lift | intros tb].
  apply eff_bind.
  { destruct (Toml.ip toml_dat); [|apply tidy_ret].
    apply tidy_foldM. intros ip cores. apply tidy_load_ip_core. }
  intros cores. apply eff_bind.
  { destruct (Toml.Project.spec toml_prj_dat);
      [apply tidy_load_spec_file | apply tidy_ret]. }
  intros [libs ext].
  apply eff_bind; [apply tidy_getitem | intros build_dir].
  apply eff_bind; [apply tidy_abspath | intros abs_build].
  apply eff_bind; [apply tidy_path_exists | intros present].
  intros w r w' H. unfold bind in H.
  destruct present; simpl in H.
  - inversion H; subst. unfold constructed_in. auto.
  - destruct (Os.mkdir (abs_build +++ PosixPath.sep) w) as [[[]|e] w1] eqn:Emk.
    + inversion H; subst. unfold constructed_in; simpl.
      unfold Os.mkdir in Emk.
      assert (Hw : stdout w' = stdout w /\ cwd w' = cwd w).
      { destruct (FS.strip_trailing (PyStr.split "/" (abs_build +++ PosixPath.sep)));
          [destruct (String.eqb (abs_build +++ PosixPath.sep) ""); discriminate Emk|].
        destruct (FS.namei _ _ _) as [[|]|q]; try discriminate Emk.
        destruct (FS.lookup (root w) q) as [[d|es]|]; try discriminate Emk.
        destruct (_ || _)%bool; [discriminate Emk|].
        destruct (FS.assoc _ es); [discriminate Emk|].
        inversion Emk; subst; simpl; auto. }
      destruct Hw as [Hs Hc]. repeat split; [exact Hs | exact Hc|].
      right. unfold Os.mkdir. exact Emk.
    + inversion H; subst.
      assert (Hw : w' = w).
      { unfold Os.mkdir in Emk.
        destruct (FS.strip_trailing (PyStr.split "/" (abs_build +++ PosixPath.sep)));
          [inversion Emk; reflexivity|].
        destruct (FS.namei _ _ _) as [[|]|q]; try (inversion Emk; reflexivity).
        destruct (FS.lookup (root w) q) as [[d|es]|]; try (inversion Emk; reflexivity).
        destruct (_ || _)%bool; [inversion Emk; reflexivity|].
        destruct (FS.assoc _ es); inversion Emk; reflexivity. }
      subst w'. apply raised_in_refl.
Qed.

Lemma init_effects :
  forall file w r w',
    Project.__init__ file w = (r, w') ->
    cwd w' = cwd w
    /\ match r with
       | Ok p =>
           stdout w' = stdout w
           /\ (w' = w \/ Os.mkdir (Project.build_out_dir p) w = (Ok tt, w'))
       | Raise e =>
           root w' = root w
           /\ (stdout w' = stdout w
               \/ (e = Exception /\ exists line, stdout w' = stdout w ++ [line]))
       end.
Proof.
  intros file w r w' H. unfold Project.__init__ in H.
  destruct (Project.init_body file w) as [r0 w0] eqn:E.
  pose proof (eff_init_body file) as Heff. unfold eff in Heff.
  specialize (Heff _ _ _ E).
  destruct r0 as [p|e].
  - inversion H; subst. destruct Heff as (Hs & Hc & Hm). auto.
  - destruct Heff as (Hr & Hc & Hs).
    assert (Hquiet : e <> Exception -> stdout w0 = stdout w).
    { intros Hne. destruct Hs as [Hs|[He _]]; [exact Hs | contradiction]. }
    destruct e; inversion H; subst; (split; [exact Hc|]); (split; [exact Hr|]);
      try exact Hs; left; apply Hquiet; discriminate.
Qed.



(* ================================================================= *)
(** ** Manifests that are missing or incomplete *)




(* ================================================================= *)
(** ** Templates that str.format rejects *)

Lemma ident_char_no_brace c :
  Format.is_ident_char c = true ->
  Ascii.eqb c "{" = false /\ Ascii.eqb c "}" = false.
Proof.
  intros H. split.
  - destruct (Ascii.eqb_spec c "{") as [->|]; [vm_compute in H; discriminate H | reflexivity].
  - destruct (Ascii.eqb_spec c "}") as [->|]; [vm_compute in H; discriminate H | reflexivity].
Qed.

Lemma scan_in_field_cons acc c s :
  Format.scan (Format.InField acc) (String c s)
  = if Ascii.eqb c "}" then Format.field acc :: Format.scan Format.Out s
    else if Ascii.eqb c "{" then [Format.Other]
    else Format.scan (Format.InField (acc +++ PyStr.of_char c)) s.
Proof. reflexivity. Qed.

Lemma scan_after_open_cons c s :
  Format.scan Format.AfterOpen (String c s)
  = if Ascii.eqb c "{" then Format.Lit "{" :: Format.scan Format.Out s
    else if Ascii.eqb c "}" then Format.Auto :: Format.scan Format.Out s
    else Format.scan (Format.InField (PyStr.of_char c)) s.
Proof. reflexivity. Qed.

Lemma scan_in_field post : forall name acc,
  PyStr.all_chars Format.is_ident_char name = true ->
  Format.scan (Format.InField acc) (name +++ "}" +++ post)
  = Format.field (acc +++ name) :: Format.scan Format.Out post.
Proof.
  induction name as [|c name IH]; intros acc H.
  - rewrite append_nil_r. reflexivity.
  - change (PyStr.all_chars Format.is_ident_char (String c name))
      with (Format.is_ident_char c && PyStr.all_chars Format.is_ident_char name)%bool
      in H.
    apply andb_true_iff in H as [Hc Hn].
    destruct (ident_char_no_brace c Hc) as [Ho Hcl].
    change (String c name +++ "}" +++ post) with (String c (name +++ "}" +++ post)).
    rewrite scan_in_field_cons, Hcl, Ho, (IH _ Hn), append_assoc. reflexivity.
Qed.

Lemma field_identifier name : identifier name -> Format.field name = Format.Named name.
Proof.
  intros [Hall (c & rest & -> & Hd)]. unfold Format.field.
  change (PyStr.all_chars Format.is_digit (String c rest))
    with (Format.is_digit c && PyStr.all_chars Format.is_digit rest)%bool.
  rewrite Hd, Hall. reflexivity.
Qed.

(** A named field is looked up among the keyword arguments, of which
    there are none. *)
Lemma format_named_field pre name post m :
  brace_free pre -> identifier name ->
  Format.format (pre +++ "{" +++ name +++ "}" +++ post) m = Raise (KeyError name).
Proof.
  intros Hpre Hid. unfold Format.format. rewrite (scan_brace_free _ Hpre).
  pose proof Hid as [Hall (c & rest & Hname & Hd)].
  assert (Hscan : Format.scan Format.Out ("{" +++ name +++ "}" +++ post)
                  = Format.Named name :: Format.scan Format.Out post).
  { change (Format.scan Format.Out ("{" +++ name +++ "}" +++ post))
      with (Format.scan Format.AfterOpen (name +++ "}" +++ post)).
    rewrite Hname in *.
    change (PyStr.all_chars Format.is_ident_char (String c rest))
      with (Format.is_ident_char c && PyStr.all_chars Format.is_ident_char rest)%bool
      in Hall.
    apply andb_true_iff in Hall as [Hc Hrest].
    destruct (ident_char_no_brace c Hc) as [Ho Hcl].
    change (String c rest +++ "}" +++ post) with (String c (rest +++ "}" +++ post)).
    rewrite scan_after_open_cons, Ho, Hcl, (scan_in_field post rest _ Hrest).
    change (PyStr.of_char c +++ rest) with (String c rest).
    rewrite (field_identifier Hid). reflexivity. }
  rewrite Hscan, render_lits. reflexivity.
Qed.

(** A second pair of braces asks for a second argument. *)
Lemma format_second_slot pre mid post m :
  brace_free pre -> brace_free mid ->
  Format.format (pre +++ "{}" +++ mid +++ "{}" +++ post) m = Raise IndexError.
Proof.
  intros Hpre Hmid. unfold Format.format. rewrite (scan_brace_free _ Hpre).
  change (Format.scan Format.Out ("{}" +++ mid +++ "{}" +++ post))
    with (Format.Auto :: Format.scan Format.Out (mid +++ "{}" +++ post)).
  rewrite (scan_brace_free _ Hmid).
  change (Format.scan Format.Out ("{}" +++ post))
    with (Format.Auto :: Format.scan Format.Out post).
  rewrite render_lits.
  change (Format.render
            (Format.Auto :: lits mid ++ Format.Auto :: Format.scan Format.Out post)
            None 0 m)
    with (match Format.render
                  (lits mid ++ Format.Auto :: Format.scan Format.Out post)
                  (Some true) 1 m with
          | Ok t => Ok (m +++ t)
          | Raise e => Raise e
          end).
  rewrite render_lits. reflexivity.
Qed.

(** The resolution up to the testbench resolver. *)
Lemma init_body_testbench_files file w doc prj props tbd tbp tbf :
  Rtoml.load file w = (Ok doc, w) ->
  Toml.project doc = Some prj ->
  Project._load_project_properties prj w = (Ok props, w) ->
  Toml.Project.tb_dir prj = Some tbd ->
  Toml.Project.tb_dir_pattern prj = Some tbp ->
  Project._file_lists tbd tbp Project._append_file_to_map_parteval Dict.empty w
  = (Ok tbf, w) ->
  forall e,
    Project._load_testbench_files (snd props) prj tbf = Raise e ->
    Project.init_body file w = (Raise e, w).
Proof.
  intros Hload Hprj Hprops Htbd Htbp Htbf e Htb. unfold Project.init_body.
  rewrite (bind_ok _ _ _ Hload), Hprj, getitem_some, bind_ret.
  rewrite (bind_ok _ _ _ Hprops). destruct props as [[[lang top] rd] files].
  rewrite Htbd, Htbp, !getitem_some, !bind_ret.
  rewrite (bind_ok _ _ _ Htbf). simpl in Htb. rewrite Htb. reflexivity.
Qed.

Lemma testbench_first_format_error files prj tbf tmpl e props w :
  Project._load_project_properties prj w = (Ok props, w) ->
  snd props = files ->
  Toml.Project.tb_file_fmt prj = Some tmpl ->
  (forall m, Format.format tmpl m = Raise e) ->
  Project._load_testbench_files files prj tbf = Raise e.
Proof.
  intros Hprops Hfiles Hfmt He. destruct props as [[[lang top] rd] files0].
  simpl in Hfiles; subst files0.
  apply load_project_properties_inv in Hprops as (_ & _ & _ & _ & _ & _ & _ & _ & _ & _ & _ & Hc).
  unfold Project._load_testbench_files. rewrite Hfmt.
  destruct files as [|[m f] items].
  - unfold Dict.contains in Hc; simpl in Hc. discriminate Hc.
  - simpl. rewrite He. reflexivity.
Qed.

(** X6. Templates that [str.format] rejects, once the primary modules and
    the raw testbench map are there.  A template with a named field, as in
    "{name}_tb", raises a [KeyError] that the handler of [__init__] takes
    for a missing key: the failure is the error for an incomplete manifest,
    although no key is missing.  A template with a second pair of braces
    raises an [IndexError] that no handler catches and that is none of the
    three kinds of error.  Nothing is printed or changed in either case. *)
Theorem testbench_template_errors :
  forall file w doc prj props tbd tbp tbf,
    Rtoml.load file w = (Ok doc, w) ->
    Toml.project doc = Some prj ->
    Project._load_project_properties prj w = (Ok props, w) ->
    Toml.Project.tb_dir prj = Some tbd ->
    Toml.Project.tb_dir_pattern prj = Some tbp ->
    Project._file_lists tbd tbp Project._append_file_to_map_parteval Dict.empty w
    = (Ok tbf, w) ->
    (forall pre name post,
        Toml.Project.tb_file_fmt prj = Some (pre +++ "{" +++ name +++ "}" +++ post) ->
        brace_free pre -> identifier name ->
        Project.__init__ file w
        = (Raise (AttributeError Project.msg_missing_items), w))
    /\ (forall pre mid post,
           Toml.Project.tb_file_fmt prj
           = Some (pre +++ "{}" +++ mid +++ "{}" +++ post) ->
           brace_free pre -> brace_free mid ->
           Project.__init__ file w = (Raise IndexError, w)
           /\ Project.classify IndexError = None).
Proof.
  intros file w doc prj props tbd tbp tbf Hload Hprj Hprops Htbd Htbp Htbf.
  split.
  - intros pre name post Hfmt Hpre Hid.
    assert (Htb : Project._load_testbench_files (snd props) prj tbf
                  = Raise (KeyError name)).
    { apply (@testbench_first_format_error (snd props) prj tbf _ _ props w Hprops eq_refl Hfmt).
      intros m. apply format_named_field; assumption. }
    unfold Project.__init__.
    rewrite (init_body_testbench_files file Hload Hprj Hprops Htbd Htbp Htbf Htb).
    reflexivity.
  - intros pre mid post Hfmt Hpre Hmid. split; [|reflexivity].
    assert (Htb : Project._load_testbench_files (snd props) prj tbf = Raise IndexError).
    { apply (@testbench_first_format_error (snd props) prj tbf _ _ props w Hprops eq_refl Hfmt).
      intros m. apply format_second_slot; assumption. }
    unfold Project.__init__.
    rewrite (init_body_testbench_files file Hload Hprj Hprops Htbd Htbp Htbf Htb).
    reflexivity.
Qed.

Lemma testbench_template_errors_witness :
  Project.__init__ "project.toml" (w_fmt "{name}_tb")
  = (Raise (AttributeError Project.msg_missing_items), w_fmt "{name}_tb")
  /\ Project.__init__ "project.toml" (w_fmt "{}_{}_tb")
     = (Raise IndexError, w_fmt "{}_{}_tb").
Proof.
  assert (Hstart : forall tmpl,
    exists props tbf,
      Rtoml.load "project.toml" (w_fmt tmpl)
      = (Ok (Toml.mk (Some (prj_fmt tmpl)) None None None), w_fmt tmpl)
      /\ Project._load_project_properties (prj_fmt tmpl) (w_fmt tmpl)
         = (Ok props, w_fmt tmpl)
      /\ Project._file_lists "./rtl_tb" "rtl_tb/.*\.v"
           Project._append_file_to_map_parteval Dict.empty (w_fmt tmpl)
         = (Ok tbf, w_fmt tmpl)).
  { intros tmpl. eexists. eexists. repeat split; vm_compute; reflexivity. }
  split.
  - destruct (Hstart "{name}_tb") as (props & tbf & Hload & Hprops & Htbf).
    destruct (@testbench_template_errors _ _ _ _ _ _ _ _ Hload eq_refl Hprops
                eq_refl eq_refl Htbf) as [Hnamed _].
    apply (Hnamed "" "name" "_tb").
    + reflexivity.
    + reflexivity.
    + split; [reflexivity|]. exists "n"%char, "ame". split; reflexivity.
  - destruct (Hstart "{}_{}_tb") as (props & tbf & Hload & Hprops & Htbf).
    destruct (@testbench_template_errors _ _ _ _ _ _ _ _ Hload eq_refl Hprops
                eq_refl eq_refl Htbf) as [_ Hslots].
    apply (Hslots "" "_" "_tb"); reflexivity.
Defined.

(* ================================================================= *)
(** * Properties of action.py and app.py *)

Lemma abind_return A B (m : Act A) (k : A -> Act B) w a w' :
  m w = (Return a, w') -> abind m k w = k a w'.
Proof. intros H. unfold abind. rewrite H. reflexivity. Qed.

Lemma abind_raised A B (m : Act A) (k : A -> Act B) w e w' :
  m w = (Raised e, w') -> abind m k w = (Raised e, w').
Proof. intros H. unfold abind. rewrite H. reflexivity. Qed.

Lemma aprint_eq line w : aprint line w = (Return tt, with_line w line).
Proof. reflexivity. Qed.

Lemma abind_aprint B line (k : Act B) w :
  (aprint line ;;~ k) w = k (with_line w line).
Proof. reflexivity. Qed.

Lemma with_lines_nil w : with_lines w [] = w.
Proof. unfold with_lines. rewrite app_nil_r. destruct w; reflexivity. Qed.

Lemma with_lines_cons w line lines :
  with_lines (with_line w line) lines = with_lines w (line :: lines).
Proof. unfold with_lines, with_line. simpl. rewrite <- app_assoc. reflexivity. Qed.

Lemma fold_left_pairs A (opt : string) (g : A -> string) l : forall acc,
  fold_left (fun c x => (c ++ [opt]) ++ [g x]) l acc
  = acc ++ flat_map (fun x => [opt; g x]) l.
Proof.
  induction l as [|x l IH]; intros acc; simpl.
  - rewrite app_nil_r. reflexivity.
  - rewrite IH, <- !app_assoc. reflexivity.
Qed.


(** The three loops of [_iverilog_invoke], in closed form. *)
Lemma iverilog_command_eq self p ext fs :
  Actions.iverilog_command self p ext fs
  = ActionBase.iverilog_path self :: ext
    ++ flat_map (fun d => ["-I"; d]) (Project.including_dir p)
    ++ flat_map (fun l => ["-y"; LibInfo.full_path l]) (Project.libs p)
    ++ flat_map (fun ip => ["-y"; IpCoreInfo.root_dir (snd ip)]) (Project.ip_cores p)
    ++ ["-y"; Project.root_dir p] ++ fs.
Proof.
  unfold Actions.iverilog_command.
  rewrite (fold_left_pairs "-I" (fun d : string => d)).
  rewrite (fold_left_pairs "-y" LibInfo.full_path).
  rewrite (fold_left_pairs "-y" (fun ip : string * IpCoreInfo.t => IpCoreInfo.root_dir (snd ip))).
  simpl. rewrite <- !app_assoc. reflexivity.
Qed.

Lemma iverilog_invoke_eq E self p ext fs w :
  Actions._iverilog_invoke E self p ext fs w
  = invoked E "iverilog" (Actions.iverilog_command self p ext fs) w.
Proof.
  unfold Actions._iverilog_invoke. rewrite abind_aprint.
  unfold invoked, check_run.
  change (with_line w (">" +++ cyan +++ " Running " +++ "iverilog" +++ "..."))
    with (with_line w (">" +++ cyan +++ " Running iverilog...")).
  destruct (Subprocess.run (sub E) _ _) as [[e|c] w']; [reflexivity|].
  destruct (c =? 0)%Z; reflexivity.
Qed.

Lemma yosys_invoke_eq E self script w :
  Actions._yosys_invoke E self script w
  = invoked E "yosys" (Actions.yosys_command self script) w.
Proof.
  unfold Actions._yosys_invoke. rewrite abind_aprint.
  unfold invoked, check_run.
  change (with_line w (">" +++ cyan +++ " Running " +++ "yosys" +++ "..."))
    with (with_line w (">" +++ cyan +++ " Running yosys...")).
  destruct (Subprocess.run (sub E) _ _) as [[e|c] w']; [reflexivity|].
  destruct (c =? 0)%Z; reflexivity.
Qed.

Lemma item_some V k (d : Dict.t V) v w :
  Dict.get k d = Some v -> item (Some k) d w = (Return v, w).
Proof. intros H. unfold item, of_py. rewrite H. reflexivity. Qed.

Lemma contains_get V k (d : Dict.t V) v :
  Dict.get k d = Some v -> Dict.contains k d = true.
Proof. intros H. unfold Dict.contains. rewrite H. reflexivity. Qed.

Lemma contains_none V k (d : Dict.t V) :
  Dict.get k d = None -> Dict.contains k d = false.
Proof. intros H. unfold Dict.contains. rewrite H. reflexivity. Qed.

Lemma make_testbench_launch E self p m rtl tb w :
  Dict.get m (Project.files p) = Some rtl ->
  Dict.get m (Project.test_bench p) = Some tb ->
  Actions.make_testbench E self p (Some m) w
  = invoked E "iverilog"
      (Actions.iverilog_command self p
         ["-o"; Project.build_out_dir p +++ m +++ ".vo"]
         [FileInfo.fullpath rtl; FileInfo.fullpath tb])
      (with_line w ("> " +++ cyan +++ "make_test " +++ m)).
Proof.
  intros Hrtl Htb. unfold Actions.make_testbench. rewrite abind_aprint.
  unfold has.
  rewrite (@contains_get _ _ _ _ Hrtl), (@contains_get _ _ _ _ Htb).
  cbn [negb].
  rewrite (@abind_return _ _ _ _ _ _ _ (@item_some _ _ _ _ _ Hrtl)).
  rewrite (@abind_return _ _ _ _ _ _ _ (@item_some _ _ _ _ _ Htb)).
  apply iverilog_invoke_eq.
Qed.

Lemma in_keys_get V k (d : Dict.t V) : In k (Dict.keys d) -> exists v, Dict.get k d = Some v.
Proof.
  unfold Dict.get, Dict.keys. induction d as [|[k' v'] d IH]; simpl; [intros []|].
  destruct (String.eqb_spec k' k) as [->|Hne].
  - intros _. eexists. reflexivity.
  - intros [H|H]; [congruence|exact (IH H)].
Qed.

(* ================================================================= *)
(** ** The commands built for a constructed project *)

(** X7. [make_testbench] on a constructed project.  A module with a test
    bench is a module of [files], so the first guard cannot fire for it and
    iverilog is launched once, after the announcement, with this command
    line: the output file below the output directory, one [-I] for each
    include directory, of which the RTL root is the first, one [-y] for
    each library, each IP core and the RTL root, then the module's file
    and its test bench, all three paths absolute; the verdict is the exit
    code's.  A module without a test bench launches nothing: the result is
    [False] after one line that says which of the two it lacks.  So does
    a call without a target, which is reported as the module "None". *)
Theorem make_testbench_on_constructed :
  forall E self file w0 p w1,
    Project.__init__ file w0 = (Ok p, w1) ->
    forall m w,
      let announced := with_line w ("> " +++ cyan +++ "make_test " +++ m) in
      match Dict.get m (Project.test_bench p) with
      | Some tb =>
          exists rtl,
            Dict.get m (Project.files p) = Some rtl
            /\ Actions.make_testbench E self p (Some m) w
               = invoked E "iverilog"
                   (ActionBase.iverilog_path self :: "-o"
                      :: (Project.build_out_dir p +++ m +++ ".vo")
                      :: flat_map (fun d => ["-I"; d]) (Project.including_dir p)
                      ++ flat_map (fun l => ["-y"; LibInfo.full_path l])
                           (Project.libs p)
                      ++ flat_map (fun ip => ["-y"; IpCoreInfo.root_dir (snd ip)])
                           (Project.ip_cores p)
                      ++ ["-y"; Project.root_dir p;
                          FileInfo.fullpath rtl; FileInfo.fullpath tb])
                   announced
            /\ absolute (Project.build_out_dir p +++ m +++ ".vo")
            /\ absolute (FileInfo.fullpath rtl)
            /\ absolute (FileInfo.fullpath tb)
            /\ hd_error (Project.including_dir p) = Some (Project.root_dir p)
      | None =>
          Actions.make_testbench E self p (Some m) w
          = (Return false,
             with_line announced
               (if Dict.contains m (Project.files p)
                then Actions.msg_no_testbench (Some m)
                else Actions.msg_no_module (Some m)))
      end
      /\ Actions.make_testbench E self p None w
         = (Return false,
            with_line (with_line w ("> " +++ cyan +++ "make_test None"))
              (Actions.msg_no_module None)).
Proof.
  intros E self file w0 p w1 H m w announced. split; [|reflexivity].
  destruct (Dict.get m (Project.test_bench p)) as [tb|] eqn:Htb.
  - pose proof (init_registries _ _ H)
      as (doc & prj & dir & pat & l & tbd & tbp & tbl & _ & _ & _ & _ & _ & _ & _
          & _ & _ & _ & _ & Hkeys & _).
    destruct (Hkeys _ _ (get_in _ _ Htb)) as [Hin _].
    destruct (in_keys_get _ _ Hin) as [rtl Hrtl].
    pose proof (init_paths_absolute _ _ H) as (_ & Hout & _ & _ & Hf & Ht & _).
    exists rtl. split; [exact Hrtl|]. split.
    { rewrite (@make_testbench_launch E self p m rtl tb w Hrtl Htb).
      rewrite iverilog_command_eq. reflexivity. }
    split; [apply absolute_append; exact Hout|].
    split; [exact (Hf _ _ (get_in _ _ Hrtl))|].
    split; [exact (Ht _ _ (get_in _ _ Htb))|].
    apply init_ok_inv in H
      as (? & ? & ? & ? & ? & ? & ? & _ & _ & _ & _ & _ & _ & _ & _ & _ & Hinc & _).
    rewrite Hinc. reflexivity.
  - unfold Actions.make_testbench. rewrite abind_aprint. unfold has.
    destruct (Dict.contains m (Project.files p)); cbn [negb].
    + rewrite (contains_none _ _ Htb). reflexivity.
    + reflexivity.
Qed.

Lemma make_testbench_on_constructed_witness :
  exists p w1 rtl,
    Project.__init__ "project.toml" w_adder = (Ok p, w1)
    /\ Dict.get "adder" (Project.files p) = Some rtl
    /\ absolute (FileInfo.fullpath rtl)
    /\ hd_error (Project.including_dir p) = Some (Project.root_dir p).
Proof.
  assert (E : exists p w1,
             Project.__init__ "project.toml" w_adder = (Ok p, w1)
             /\ exists tb, Dict.get "adder" (Project.test_bench p) = Some tb).
  { eexists. eexists. split; [vm_compute; reflexivity|].
    eexists. vm_compute. reflexivity. }
  destruct E as (p & w1 & E & tb & Htb).
  pose proof (@make_testbench_on_constructed env_vvp_fails (ActionBase.__init__ None)
                _ _ _ _ E "adder" w1) as [Hm _].
  rewrite Htb in Hm. destruct Hm as (rtl & Hrtl & _ & _ & Habs & _ & Hhd).
  exists p, w1, rtl. auto.
Defined.




(* ================================================================= *)
(** ** What the actions raise *)

Lemma no_exit_return A (a : A) : no_exit (areturn a).
Proof. intros w c w' H. discriminate H. Qed.

Lemma no_exit_of_py A (m : M A) : no_exit (of_py m).
Proof.
  intros w c w' H. unfold of_py in H. destruct (m w) as [[a|e] w1]; discriminate H.
Qed.

Lemma no_exit_aprint line : no_exit (aprint line).
Proof. apply no_exit_of_py. Qed.

Lemma no_exit_bind A B (m : Act A) (k : A -> Act B) :
  no_exit m -> (forall a, no_exit (k a)) -> no_exit (abind m k).
Proof.
  intros Hm Hk w c w' H. unfold abind in H. destruct (m w) as [[a|e] w1] eqn:Em.
  - exact (Hk a _ _ _ H).
  - inversion H; subst. exact (Hm _ _ _ Em).
Qed.

Lemma no_exit_check_run E command : no_exit (check_run E command).
Proof.
  intros w c w' H. unfold check_run in H.
  destruct (Subprocess.run (sub E) command w) as [[e|code] w1]; [discriminate H|].
  destruct (code =? 0)%Z; discriminate H.
Qed.

Lemma no_exit_captured E command : no_exit (EnviromentActions.captured E command).
Proof.
  intros w c w' H. unfold EnviromentActions.captured in H.
  destruct (Subprocess.run_captured (sub E) command w) as [[e|[code out]] w1];
    discriminate H.
Qed.

Lemma no_exit_index A (t : list A) i : no_exit (index t i).
Proof.
  intros w c w' H. unfold index in H. destruct (nth_error t i); discriminate H.
Qed.

Lemma no_exit_item V x (d : Dict.t V) : no_exit (item x d).
Proof.
  destruct x as [k|]; simpl; [apply no_exit_of_py|].
  intros w c w' H. discriminate H.
Qed.

Lemma no_exit_invoked E tool command : no_exit (invoked E tool command).
Proof.
  intros w c w' H. unfold invoked in H.
  destruct (Subprocess.run (sub E) command _) as [[e|code] w1]; [discriminate H|].
  destruct (code =? 0)%Z; discriminate H.
Qed.

Lemma no_exit_ext A (m m' : Act A) : (forall w, m w = m' w) -> no_exit m' -> no_exit m.
Proof. intros Heq H w c w'. rewrite Heq. apply H. Qed.

Lemma no_exit_make_testbench E self p module :
  no_exit (Actions.make_testbench E self p module).
Proof.
  unfold Actions.make_testbench.
  apply no_exit_bind; [apply no_exit_aprint|intros _].
  destruct (negb (has module (Project.files p))).
  { apply no_exit_bind; [apply no_exit_aprint|intros _; apply no_exit_return]. }
  destruct (negb (has module (Project.test_bench p))).
  { apply no_exit_bind; [apply no_exit_aprint|intros _; apply no_exit_return]. }
  apply no_exit_bind; [apply no_exit_item|intros rtl].
  apply no_exit_bind; [apply no_exit_item|intros tb].
  eapply no_exit_ext; [intros w; apply iverilog_invoke_eq|apply no_exit_invoked].
Qed.

Lemma no_exit_synthesis E self p output : no_exit (Actions.synthesis E self p output).
Proof.
  unfold Actions.synthesis.
  eapply no_exit_ext; [intros w; apply yosys_invoke_eq|apply no_exit_invoked].
Qed.

Lemma no_exit_check_iverilog E self :
  no_exit (EnviromentActions.check_iverilog_enviroment E self).
Proof.
  unfold EnviromentActions.check_iverilog_enviroment.
  apply no_exit_bind; [apply no_exit_aprint|intros _].
  apply no_exit_bind; [apply no_exit_captured|intros out].
  destruct (re_groups E _ out) as [groups|].
  - apply no_exit_bind; [apply no_exit_index|intros v].
    apply no_exit_bind; [apply no_exit_aprint|intros _; apply no_exit_return].
  - apply no_exit_bind; [apply no_exit_aprint|intros _; apply no_exit_return].
Qed.

Lemma no_exit_check_yosys E self :
  no_exit (EnviromentActions.check_yosys_enviroment E self).
Proof.
  unfold EnviromentActions.check_yosys_enviroment.
  apply no_exit_bind; [apply no_exit_aprint|intros _].
  apply no_exit_bind; [apply no_exit_captured|intros out].
  destruct (re_groups E _ out) as [groups|].
  - apply no_exit_bind; [apply no_exit_index|intros v].
    apply no_exit_bind; [apply no_exit_aprint|intros _; apply no_exit_return].
  - apply no_exit_bind; [apply no_exit_aprint|intros _; apply no_exit_return].
Qed.

(** [_load_project]: the announcement, the construction, five lines. *)
Lemma load_project_eq f w :
  App._load_project f w
  = match Project.__init__ f (with_line w (App.msg_load f)) with
    | (Ok p, w') => (Return p, with_lines w' (summary p))
    | (Raise e, w') => (Raised (Py e), w')
    end.
Proof.
  unfold App._load_project. rewrite abind_aprint. unfold abind at 1, of_py.
  destruct (Project.__init__ f _) as [[p|e] w']; [|reflexivity].
  rewrite !abind_aprint. unfold areturn, summary.
  rewrite <- !with_lines_cons, with_lines_nil. reflexivity.
Qed.

Lemma no_exit_load_project f : no_exit (App._load_project f).
Proof.
  intros w c w' H. rewrite load_project_eq in H.
  destruct (Project.__init__ f _) as [[p|e] w1]; discriminate H.
Qed.

Lemma no_exit_check_body E a f : no_exit (App.check_body E a f).
Proof.
  unfold App.check_body.
  apply no_exit_bind; [apply no_exit_check_iverilog|intros _].
  apply no_exit_bind; [apply no_exit_check_yosys|intros _].
  apply no_exit_bind; [apply no_exit_load_project|intros _; apply no_exit_return].
Qed.

Lemma no_exit_check_enviroment E a f : no_exit (App._check_enviroment E a f).
Proof.
  intros w c w' H. unfold App._check_enviroment in H.
  destruct (App.check_body E a f w) as [[b|e] w1] eqn:Eb; [discriminate H|].
  destruct e as [e|rc cmd|c0].
  - destruct e; discriminate H.
  - discriminate H.
  - exact (@no_exit_check_body E a f _ _ _ Eb).
Qed.

Lemma no_exit_dump_wave E a p t : no_exit (App._dump_wave E a p t).
Proof.
  unfold App._dump_wave.
  apply no_exit_bind; [apply no_exit_aprint|intros _].
  apply no_exit_bind; [apply no_exit_check_run|intros _; apply no_exit_return].
Qed.

Lemma no_exit_actions E a act :
  In act (Dict.values (App.actions E a)) -> no_exit act.
Proof.
  intros [<-|[<-|[<-|[<-|[]]]]].
  - apply no_exit_check_enviroment.
  - unfold App._simu. apply no_exit_bind; [apply no_exit_load_project|intros p].
    apply no_exit_bind; [apply no_exit_make_testbench|intros made].
    destruct (negb made); [apply no_exit_return|apply no_exit_dump_wave].
  - unfold App._synth. apply no_exit_bind; [apply no_exit_load_project|intros p].
    apply no_exit_synthesis.
  - unfold App._make_simu. apply no_exit_bind; [apply no_exit_load_project|intros p].
    apply no_exit_make_testbench.
Qed.

Lemma init_never_key_error file w e w' :
  Project.__init__ file w = (Raise e, w') ->
  (forall k, e <> KeyError k) /\ (forall x, e <> FileNotFoundError x).
Proof.
  unfold Project.__init__. intros H.
  destruct (Project.init_body file w) as [[p|e0] w1]; [discriminate H|].
  destruct e0; inversion H; subst; split; intros; discriminate.
Qed.

(* ================================================================= *)
(** ** The check action *)

Lemma check_body_project E a f w b1 w1 b2 w2 :
  EnviromentActions.check_iverilog_enviroment E a w = (Return b1, w1) ->
  EnviromentActions.check_yosys_enviroment E a w1 = (Return b2, w2) ->
  App.check_body E a f w
  = match Project.__init__ f (with_line w2 (App.msg_load f)) with
    | (Ok p, w') => (Return true, with_lines w' (summary p))
    | (Raise e, w') => (Raised (Py e), w')
    end.
Proof.
  intros H1 H2. unfold App.check_body.
  rewrite (@abind_return _ _ _ _ _ _ _ H1).
  rewrite (@abind_return _ _ _ _ _ _ _ H2).
  unfold abind. rewrite load_project_eq.
  destruct (Project.__init__ f _) as [[p|e] w']; reflexivity.
Qed.

(** X9. The check action.  The verdicts of the two version checks are
    thrown away: when both return, the result depends on the project
    alone, and it is [True] for a project that constructs even when the
    output of neither tool was recognised.  A tool that cannot be started
    gives [False] after the line about PATH.  A construction that fails
    gives [False] after one line chosen by the class of the exception; it
    is the line about missing keys for every [AttributeError], so also for
    a manifest file that does not exist, which never yields the line about
    the tools.  The action itself never raises, short of what the model
    leaves open. *)
Theorem check_enviroment_verdict :
  forall E a f w,
    (forall x w1,
        EnviromentActions.check_iverilog_enviroment E a w
        = (Raised (Py (FileNotFoundError x)), w1) ->
        App._check_enviroment E a f w = (Return false, with_line w1 App.msg_tools))
    /\ (forall b1 w1 x w2,
           EnviromentActions.check_iverilog_enviroment E a w = (Return b1, w1) ->
           EnviromentActions.check_yosys_enviroment E a w1
           = (Raised (Py (FileNotFoundError x)), w2) ->
           App._check_enviroment E a f w = (Return false, with_line w2 App.msg_tools))
    /\ (forall b1 w1 b2 w2 r w3,
           EnviromentActions.check_iverilog_enviroment E a w = (Return b1, w1) ->
           EnviromentActions.check_yosys_enviroment E a w1 = (Return b2, w2) ->
           Project.__init__ f (with_line w2 (App.msg_load f)) = (r, w3) ->
           match r with
           | Ok p =>
               App._check_enviroment E a f w
               = (Return true, with_lines w3 (summary p))
           | Raise (AttributeError msg) =>
               App._check_enviroment E a f w
               = (Return false, with_line w3 (App.msg_missing_keys msg))
           | Raise TomlParsingError =>
               App._check_enviroment E a f w
               = (Return false,
                  with_line w3 (App.msg_invalid_file E (Py TomlParsingError)))
           | Raise (Unmodelled what) =>
               App._check_enviroment E a f w = (Raised (Py (Unmodelled what)), w3)
           | Raise (KeyError _) => False
           | Raise (FileNotFoundError _) => False
           | Raise e =>
               App._check_enviroment E a f w
               = (Return false, with_line w3 (App.msg_exception E (Py e)))
           end)
    /\ (forall r w',
           App._check_enviroment E a f w = (r, w') ->
           match r with
           | Return _ => True
           | Raised (Py (Unmodelled _)) => True
           | Raised _ => False
           end).
Proof.
  intros E a f w. split; [|split; [|split]].
  - intros x w1 H. unfold App._check_enviroment, App.check_body.
    rewrite (@abind_raised _ _ _ _ _ _ _ H). reflexivity.
  - intros b1 w1 x w2 H1 H2. unfold App._check_enviroment, App.check_body.
    rewrite (@abind_return _ _ _ _ _ _ _ H1).
    rewrite (@abind_raised _ _ _ _ _ _ _ H2). reflexivity.
  - intros b1 w1 b2 w2 r w3 H1 H2 H3. unfold App._check_enviroment.
    rewrite (@check_body_project E a f _ _ _ _ _ H1 H2), H3.
    destruct r as [p|e]; [reflexivity|].
    destruct (@init_never_key_error _ _ _ _ H3) as [Hk Hf].
    destruct e; try reflexivity.
    + exact (Hk _ eq_refl).
    + exact (Hf _ eq_refl).
  - intros r w' H. destruct r as [b|e]; [exact I|].
    unfold App._check_enviroment in H.
    destruct (App.check_body E a f w) as [[b|e0] w1] eqn:Eb; [discriminate H|].
    destruct e0 as [e0|rc cmd|c0].
    + destruct e0; inversion H; subst; exact I.
    + discriminate H.
    + exfalso. exact (@no_exit_check_body E a f _ _ _ Eb).
Qed.

Lemma check_enviroment_verdict_witness :
  exists w',
    App._check_enviroment env_vvp_fails (ActionBase.__init__ None) "project.toml" w_adder
    = (Return true, w')
    /\ EnviromentActions.check_iverilog_enviroment env_vvp_fails
         (ActionBase.__init__ None) w_adder
       = (Return false,
          with_lines w_adder
            ["> " +++ cyan +++ "iverilog -v";
             "  " +++ Project.red +++ "iverilog command output is not be recognized."]).
Proof.
  assert (H1 : exists w1,
             EnviromentActions.check_iverilog_enviroment env_vvp_fails
               (ActionBase.__init__ None) w_adder = (Return false, w1)
             /\ exists w2,
                 EnviromentActions.check_yosys_enviroment env_vvp_fails
                   (ActionBase.__init__ None) w1 = (Return false, w2)
                 /\ exists p w3,
                     Project.__init__ "project.toml"
                       (with_line w2 (App.msg_load "project.toml")) = (Ok p, w3)).
  { eexists. split; [vm_compute; reflexivity|].
    eexists. split; [vm_compute; reflexivity|].
    eexists. eexists. vm_compute. reflexivity. }
  destruct H1 as (w1 & H1 & w2 & H2 & p & w3 & H3).
  pose proof (proj1 (proj2 (proj2
                (check_enviroment_verdict env_vvp_fails (ActionBase.__init__ None)
                   "project.toml" w_adder)))
                _ _ _ _ _ _ H1 H2 H3) as H.
  exists (with_lines w3 (summary p)). split; [exact H|].
  vm_compute. reflexivity.
Defined.

(* ================================================================= *)
(** ** The build actions and the entry point *)

Lemma load_project_raises f w e w' B (k : Project.t -> Act B) :
  Project.__init__ f (with_line w (App.msg_load f)) = (Raise e, w') ->
  abind (App._load_project f) k w = (Raised (Py e), w').
Proof.
  intros H. unfold abind. rewrite load_project_eq, H. reflexivity.
Qed.

Lemma load_project_returns f w p w' B (k : Project.t -> Act B) :
  Project.__init__ f (with_line w (App.msg_load f)) = (Ok p, w') ->
  abind (App._load_project f) k w = k p (with_lines w' (summary p)).
Proof.
  intros H. unfold abind. rewrite load_project_eq, H. reflexivity.
Qed.

Lemma actions_keys E a :
  Dict.keys (App.actions E a) = ["check"; "simu"; "synth"; "make_simu"].
Proof. reflexivity. Qed.

(** X10. The three build actions do not handle a construction that fails.
    When [Project(file)] raises, [_make_simu], [_simu] and [_synth] raise
    the same exception, and so does [app_start] for these actions: the
    run ends in that exception, not in the line about the failed target
    and the exit code -1.  Nothing has been launched by then, whatever the
    tools are, and the file tree is the one found. *)
Theorem construction_errors_escape_actions :
  forall E a f t w e w',
    Project.__init__ f (with_line w (App.msg_load f)) = (Raise e, w') ->
    App._make_simu E a f t w = (Raised (Py e), w')
    /\ App._simu E a f t w = (Raised (Py e), w')
    /\ App._synth E a f t w = (Raised (Py e), w')
    /\ (forall args,
           App.project args = f -> App.target args = t ->
           In (App.active args) ["simu"; "synth"; "make_simu"] ->
           App.app_start E args w = (Raised (Py e), w'))
    /\ root w' = root w.
Proof.
  intros E a f t w e w' H.
  assert (Hk : forall B (k : Project.t -> Act B),
             abind (App._load_project f) k w = (Raised (Py e), w'))
    by (intros; apply load_project_raises; exact H).
  split; [apply Hk|]. split; [apply Hk|]. split; [apply Hk|]. split.
  - intros args Hf Ht Hin. subst f t. unfold App.app_start.
    apply abind_raised.
    destruct Hin as [Ha|[Ha|[Ha|[]]]]; rewrite <- Ha; apply Hk.
  - destruct (init_effects _ _ H) as (_ & Hr & _). exact Hr.
Qed.

Lemma construction_errors_escape_actions_witness :
  exists w',
    App.app_start env_tools_missing (App.mkArgs "project.toml" None (Some "adder") "synth")
      w_dup
    = (Raised (Py Exception), w')
    /\ root w' = root w_dup.
Proof.
  assert (H : exists w',
             Project.__init__ "project.toml"
               (with_line w_dup (App.msg_load "project.toml")) = (Raise Exception, w'))
    by (eexists; vm_compute; reflexivity).
  destruct H as (w' & H). exists w'.
  destruct (@construction_errors_escape_actions env_tools_missing
              (ActionBase.__init__ None) _ (Some "adder") _ _ _ H)
    as (_ & _ & _ & Happ & Hroot).
  split; [|exact Hroot].
  apply Happ; [reflexivity|reflexivity|]. right. left. reflexivity.
Defined.

(** X11. How [app_start] ends.  An action that is none of the four prints
    the line about the invalid action and the line about the failed
    target, and exits with the code -1; no project is loaded and no tool
    launched.  In general a run that returns has printed the line about
    the successful target last; a run that exits does so with the code -1
    and has printed the line about the failed target last; a run that ends
    in another exception was one of the four actions. *)
Theorem app_start_outcome :
  forall E a w,
    (~ In (App.active a) ["check"; "simu"; "synth"; "make_simu"] ->
     App.app_start E a w
     = (Raised (SystemExit (-1)),
        with_lines w [App.msg_invalid_action a;
                      App.msg_outcome Project.red a "failed."]))
    /\ (forall r w',
           App.app_start E a w = (r, w') ->
           match r with
           | Return _ =>
               In (App.active a) ["check"; "simu"; "synth"; "make_simu"]
               /\ last_line w' (App.msg_outcome cyan a "successed.")
           | Raised (SystemExit c) =>
               c = (-1)%Z
               /\ last_line w' (App.msg_outcome Project.red a "failed.")
           | Raised _ => In (App.active a) ["check"; "simu"; "synth"; "make_simu"]
           end).
Proof.
  intros E a w. split.
  - intros Hn. rewrite <- (actions_keys E a) in Hn.
    apply contains_false_keys in Hn. unfold Dict.contains in Hn.
    unfold App.app_start.
    destruct (Dict.get (App.active a) (App.actions E a)); [discriminate Hn|].
    unfold abind, aprint, of_py, print, areturn, araise, with_lines. simpl.
    rewrite <- app_assoc. reflexivity.
  - intros r w' H. unfold App.app_start in H. unfold abind at 1 in H.
    destruct (Dict.get (App.active a) (App.actions E a)) as [act|] eqn:G.
    + assert (Hin : In (App.active a) ["check"; "simu"; "synth"; "make_simu"]).
      { rewrite <- (actions_keys E a). apply contains_in_keys.
        unfold Dict.contains. rewrite G. reflexivity. }
      assert (Hact : no_exit act).
      { apply (@no_exit_actions E a). unfold Dict.values.
        apply in_map_iff. exists (App.active a, act). split; [reflexivity|].
        exact (get_in _ _ G). }
      destruct (act w) as [[[|]|e] w1] eqn:Ea.
      * inversion H; subst. split; [exact Hin|]. eexists. reflexivity.
      * inversion H; subst. split; [reflexivity|]. eexists. reflexivity.
      * inversion H; subst. destruct e as [e|rc cmd|c]; [exact Hin|exact Hin|].
        exfalso. exact (Hact _ _ _ Ea).
    + inversion H; subst. split; [reflexivity|]. eexists. reflexivity.
Qed.

Lemma app_start_outcome_witness :
  App.app_start env_tools_missing (App.mkArgs "project.toml" None None "build") w_adder
  = (Raised (SystemExit (-1)),
     with_lines w_adder
       [App.msg_invalid_action (App.mkArgs "project.toml" None None "build");
        App.msg_outcome Project.red (App.mkArgs "project.toml" None None "build")
          "failed."]).
Proof.
  apply (proj1 (app_start_outcome env_tools_missing
                  (App.mkArgs "project.toml" None None "build") w_adder)).
  intros [H|[H|[H|[H|[]]]]]; discriminate H.
Defined.

(** X12. The two tools of a simulation fail differently.  After a project
    that constructs, [_simu] is [False] when [make_testbench] is, so when
    iverilog exits with another code than 0, and [app_start] then prints
    the line about the failed target and exits with -1.  When the test
    bench is made, vvp is launched on the file iverilog was told to write;
    its exit code 0 gives [True], and any other code leaves [_simu], and
    [app_start], as a [CalledProcessError] that nothing handles. *)
Theorem simu_tool_failures :
  forall E a f t w p w1,
    Project.__init__ f (with_line w (App.msg_load f)) = (Ok p, w1) ->
    forall r w2,
      Actions.make_testbench E a p t (with_lines w1 (summary p)) = (r, w2) ->
      match r with
      | Return false =>
          App._simu E a f t w = (Return false, w2)
          /\ forall args,
               App.project args = f -> App.target args = t ->
               App.active args = "simu" ->
               ActionBase.__init__ (App.basepath args) = a ->
               App.app_start E args w
               = (Raised (SystemExit (-1)),
                  with_line w2 (App.msg_outcome Project.red args "failed."))
      | Return true =>
          forall v w3,
            Subprocess.run (sub E)
              [ActionBase.vvp_path a; "-n";
               Project.build_out_dir p +++ fstr t +++ ".vo"]
              (with_line w2 (">" +++ cyan +++ " Running vvp...")) = (v, w3) ->
            match v with
            | inl e => App._simu E a f t w = (Raised (Py e), w3)
            | inr code =>
                if (code =? 0)%Z then App._simu E a f t w = (Return true, w3)
                else
                  App._simu E a f t w
                  = (Raised (CalledProcessError code (App.vvp_command a p t)), w3)
                  /\ forall args,
                       App.project args = f -> App.target args = t ->
                       App.active args = "simu" ->
                       ActionBase.__init__ (App.basepath args) = a ->
                       App.app_start E args w
                       = (Raised (CalledProcessError code (App.vvp_command a p t)),
                          w3)
            end
      | Raised e => App._simu E a f t w = (Raised e, w2)
      end.
Proof.
  intros E a f t w p w1 H r w2 Hm.
  assert (Hsimu : App._simu E a f t w
                  = (made <~ Actions.make_testbench E a p t ;;
                     if negb made then areturn false
                     else App._dump_wave E a p t) (with_lines w1 (summary p))).
  { unfold App._simu.
    exact (@load_project_returns f w p w1 bool
             (fun prj => made <~ Actions.make_testbench E a prj t ;;
                         if negb made then areturn false
                         else App._dump_wave E a prj t) H). }
  assert (Happ : forall args,
             App.project args = f -> App.target args = t ->
             App.active args = "simu" ->
             ActionBase.__init__ (App.basepath args) = a ->
             App.app_start E args w
             = (res <~ App._simu E a f t ;;
                if (res : bool) then aprint (App.msg_outcome cyan args "successed.")
                else aprint (App.msg_outcome Project.red args "failed.") ;;~
                     araise (SystemExit (-1))) w).
  { intros args Hf Ht Ha Hb. subst f t a. unfold App.app_start.
    rewrite Ha. reflexivity. }
  destruct r as [[|]|e].
  - intros v w3 Hv.
    assert (Hd : App._simu E a f t w
                 = match v with
                   | inl e => (Raised (Py e), w3)
                   | inr code =>
                       if (code =? 0)%Z then (Return true, w3)
                       else (Raised (CalledProcessError code (App.vvp_command a p t)),
                             w3)
                   end).
    { rewrite Hsimu, (@abind_return _ _ _ _ _ _ _ Hm). cbn [negb].
      unfold App._dump_wave. rewrite abind_aprint.
      unfold abind, check_run, App.vvp_command. rewrite Hv.
      destruct v as [e|code]; [reflexivity|].
      destruct (code =? 0)%Z; reflexivity. }
    destruct v as [e|code]; [exact Hd|].
    destruct (code =? 0)%Z; [exact Hd|]. split; [exact Hd|].
    intros args Hf Ht Ha Hb. rewrite (Happ args Hf Ht Ha Hb).
    apply abind_raised. exact Hd.
  - assert (Hd : App._simu E a f t w = (Return false, w2)).
    { rewrite Hsimu, (@abind_return _ _ _ _ _ _ _ Hm). reflexivity. }
    split; [exact Hd|].
    intros args Hf Ht Ha Hb. rewrite (Happ args Hf Ht Ha Hb).
    rewrite (@abind_return _ _ _ _ _ _ _ Hd). reflexivity.
  - rewrite Hsimu. apply abind_raised. exact Hm.
Qed.

Lemma simu_tool_failures_witness :
  exists w3,
    App.app_start env_vvp_fails (App.mkArgs "project.toml" None (Some "adder") "simu")
      w_adder
    = (Raised (CalledProcessError 1 ["vvp"; "-n"; "/home/u/prj/build/adder.vo"]), w3).
Proof.
  assert (H : exists p w1,
             Project.__init__ "project.toml"
               (with_line w_adder (App.msg_load "project.toml")) = (Ok p, w1)
             /\ exists w2,
                 Actions.make_testbench env_vvp_fails (ActionBase.__init__ None) p
                   (Some "adder") (with_lines w1 (summary p)) = (Return true, w2)
                 /\ exists w3,
                     Subprocess.run (sub env_vvp_fails)
                       [ActionBase.vvp_path (ActionBase.__init__ None); "-n";
                        Project.build_out_dir p +++ fstr (Some "adder") +++ ".vo"]
                       (with_line w2 (">" +++ cyan +++ " Running vvp..."))
                     = (inr 1%Z, w3)
                     /\ App.vvp_command (ActionBase.__init__ None) p (Some "adder")
                        = ["vvp"; "-n"; "/home/u/prj/build/adder.vo"]).
  { eexists. eexists. split; [vm_compute; reflexivity|].
    eexists. split; [vm_compute; reflexivity|].
    eexists. split; vm_compute; reflexivity. }
  destruct H as (p & w1 & H & w2 & Hm & w3 & Hv & Hc).
  exists w3.
  pose proof (@simu_tool_failures env_vvp_fails (ActionBase.__init__ None)
                "project.toml" (Some "adder") w_adder p w1 H _ _ Hm _ _ Hv) as Hs.
  cbn beta iota in Hs. destruct Hs as [_ Happ].
  rewrite <- Hc. apply Happ; reflexivity.
Defined.
